(** * Outbound message dispatch of the Signal bridge (package signalmeow)

    A shallow embedding of the sending half of [signalmeow]: the padding
    codec ([padBlock], [addPadding]), the envelope builder
    ([checkForErrorWithSessions], [buildMessagesToSend],
    [buildAuthedMessageToSend], [buildSSMessageToSend]), the dispatcher and
    retry machine ([sendContent], [handle409], [handle410], [handle428]) and
    the two entry points ([SendMessage], [SendGroupMessage]).

    Pure Go code is translated to Rocq functions.  Calls that leave the
    package (session store, cipher, websocket, clock, logger) are events of
    a program tree; a run of a program is the list of the calls it made
    together with the answers it got. *)

From Stdlib Require Import ZArith Lia.
From stdpp Require Import base list strings gmap pretty.

Local Open Scope Z_scope.

(** ** Go values *)

Abbreviation bytes := (list Byte.byte).

#[global] Instance byte_eq_decision : EqDecision Byte.byte := Byte.byte_eq_dec.

(** [len(s)] of a slice, as a Go [int]. *)
Definition len {A} (s : list A) : Z := Z.of_nat (length s).

(** Go's [int] is 64 bits wide on the platforms the bridge runs on; the
    arithmetic wraps around. *)
Module GoInt.
Definition wrap (z : Z) : Z := (z + 2 ^ 63) mod 2 ^ 64 - 2 ^ 63.
Definition add (a b : Z) : Z := wrap (a + b).
Definition mul (a b : Z) : Z := wrap (a * b).
(** [/] and [%] truncate towards zero. *)
Definition quot (a b : Z) : Z := wrap (Z.quot a b).
Definition rem (a b : Z) : Z := Z.rem a b.
(** Conversions [int(x)] from [uint] / [uint64] and [int64(x)] from
    [uint64] keep the low 64 bits. *)
Definition of_uint (u : Z) : Z := wrap u.
Definition in_range (z : Z) : Prop := - 2 ^ 63 <= z < 2 ^ 63.
End GoInt.

(** A Go [error] value; [nil] is [None] of [option error].  Only the
    message is observable. *)
Record error : Type := errors_New { Error : string }.

#[global] Instance error_eq_dec : EqDecision error.
Proof. solve_decision. Defined.

(** A Go call either returns or panics (index out of range, failed type
    assertion, nil dereference). *)
Inductive Outcome (A : Type) : Type :=
| Returned (a : A)
| Panicked (msg : string).
Arguments Returned {A} a.
Arguments Panicked {A} msg.

Definition Outcome_bind {A B} (o : Outcome A) (f : A -> Outcome B) : Outcome B :=
  match o with
  | Returned a => f a
  | Panicked m => Panicked m
  end.

(** ** Padding codec *)

(** [make([]byte, n)]. *)
Definition make_bytes (n : Z) : Outcome bytes :=
  if n <? 0 then Panicked "makeslice: len out of range"
  else Returned (replicate (Z.to_nat n) Byte.x00).

(** [copy(buffer[:n], src)]: the slice expression shares the storage of
    [buffer], so the copy overwrites the first [min n (len src)] bytes of
    [buffer]. *)
Definition copy_prefix (buffer : bytes) (n : Z) (src : bytes) : Outcome bytes :=
  if (n <? 0) || (len buffer <? n) then Panicked "slice bounds out of range"
  else
    let k := Nat.min (Z.to_nat n) (length src) in
    Returned (take k src ++ drop k buffer).

(** [padBlock(block *[]byte, pos int) error]; the block is updated in
    place, so the new contents are returned next to the error. *)
Definition padBlock (block : bytes) (pos : Z) : Outcome (bytes * option error) :=
  if len block <=? pos then
    Returned (block, Some (errors_New "Padding error: position exceeds block length"))
  else if pos <? 0 then Panicked "index out of range"
  else
    let block := <[Z.to_nat pos := Byte.x80]> block in
    (* for i := pos + 1; i < len(block); i++ { block[i] = 0 } *)
    let block :=
      foldl (fun b i => <[Z.to_nat i := Byte.x00]> b) block
            (seqZ (pos + 1) (len block - (pos + 1))) in
    Returned (block, None).

(** [addPadding(version uint32, contents []byte) ([]byte, error)]. *)
Definition addPadding (version : Z) (contents : bytes)
  : Outcome (option bytes * option error) :=
  if version <? 2 then
    Returned (None, Some (errors_New ("Unknown version " +:+ pretty version)))
  else if version =? 2 then
    Returned (Some contents, None)
  else
    let messageLength := len contents in
    let messageLengthWithTerminator := GoInt.add (len contents) 1 in
    let messagePartCount := GoInt.quot messageLengthWithTerminator 160 in
    let messagePartCount :=
      if GoInt.rem messageLengthWithTerminator 160 =? 0 then messagePartCount
      else GoInt.add messagePartCount 1 in
    let messageLengthWithPadding := GoInt.mul messagePartCount 160 in
    Outcome_bind (make_bytes messageLengthWithPadding) (fun buffer =>
    Outcome_bind (copy_prefix buffer messageLength contents) (fun buffer =>
    Outcome_bind (padBlock buffer messageLength) (fun '(buffer, err) =>
    match err with
    | Some e =>
        Returned (None, Some (errors_New ("Invalid message padding: " +:+ Error e)))
    | None => Returned (Some buffer, None)
    end))).


(** ** Strings and encodings from the Go standard library *)

Definition dquote : string := String (Ascii.ascii_of_nat 34) EmptyString.

(** [base64.StdEncoding.EncodeToString]: the standard alphabet, padded
    with [=]. *)
Definition base64_alphabet : list Ascii.ascii :=
  String.list_ascii_of_string
    "ABCDEFGHIJKLMNOPQRSTUVWXYZabcdefghijklmnopqrstuvwxyz0123456789+/".

Definition base64_char (n : Z) : Ascii.ascii :=
  default (Ascii.ascii_of_nat 61) (base64_alphabet !! Z.to_nat n).

Definition byte_val (b : Byte.byte) : Z := Z.of_N (Byte.to_N b).

Fixpoint base64_EncodeToString (src : bytes) : string :=
  match src with
  | [] => EmptyString
  | [a] =>
      let n := byte_val a in
      String (base64_char (n / 4))
        (String (base64_char (n mod 4 * 16)) "==")
  | [a; b] =>
      let n := byte_val a * 256 + byte_val b in
      String (base64_char (n / 1024))
        (String (base64_char (n / 16 mod 64))
           (String (base64_char (n mod 16 * 4)) "="))
  | a :: b :: c :: rest =>
      let n := byte_val a * 65536 + byte_val b * 256 + byte_val c in
      String (base64_char (n / 262144))
        (String (base64_char (n / 4096 mod 64))
           (String (base64_char (n / 64 mod 64))
              (String (base64_char (n mod 64))
                 (base64_EncodeToString rest))))
  end.

(** Base64 of a slice that may be [nil]. *)
Definition base64_of_slice (s : option bytes) : string :=
  base64_EncodeToString (default [] s).

Definition colon : Ascii.ascii := Ascii.ascii_of_nat 58.

(** [strings.Split(s, ":")]. *)
Fixpoint split_colon_go (cur : string) (s : string) : list string :=
  match s with
  | EmptyString => [String.rev cur]
  | String c rest =>
      if Ascii.eqb c colon then String.rev cur :: split_colon_go EmptyString rest
      else split_colon_go (String c cur) rest
  end.

Definition strings_Split_colon (s : string) : list string :=
  split_colon_go EmptyString s.

(** [strconv.ParseUint(s, 10, 64)]. *)
Definition digit_of (c : Ascii.ascii) : option Z :=
  let n := Z.of_nat (Ascii.nat_of_ascii c) in
  if (48 <=? n) && (n <=? 57) then Some (n - 48) else None.

Fixpoint parse_digits (acc : Z) (s : string) : option Z :=
  match s with
  | EmptyString => Some acc
  | String c rest =>
      match digit_of c with
      | Some d => parse_digits (acc * 10 + d) rest
      | None => None
      end
  end.

Definition strconv_ParseUint (s : string) : Z * option error :=
  let quoted := dquote +:+ s +:+ dquote in
  match s with
  | EmptyString =>
      (0, Some (errors_New ("strconv.ParseUint: parsing " +:+ quoted +:+ ": invalid syntax")))
  | _ =>
      match parse_digits 0 s with
      | None =>
          (0, Some (errors_New ("strconv.ParseUint: parsing " +:+ quoted +:+ ": invalid syntax")))
      | Some v =>
          if 2 ^ 64 <=? v then
            (2 ^ 64 - 1,
             Some (errors_New ("strconv.ParseUint: parsing " +:+ quoted +:+ ": value out of range")))
          else (v, None)
      end
  end.

Set Warnings "-register-all".

(** JSON values.  [encoding/json] decodes every number to a [float64];
    the numbers the dispatch engine reads are device ids, integers that a
    [float64] holds exactly, so a number is a [Z] here and the conversions
    [int(f)] and [uint(f)] keep it. *)
Inductive json : Type :=
| JNull
| JBool (b : bool)
| JNumber (n : Z)
| JString (s : string)
| JArray (items : list json)
| JObject (fields : list (string * json)).

Definition join_comma (l : list string) : string :=
  match l with
  | [] => EmptyString
  | x :: rest => foldl (fun acc y => acc +:+ "," +:+ y) x rest
  end.

(** The text [json.Marshal] writes for a value.  Strings are written
    without escapes: the engine only marshals base64 text. *)
Fixpoint json_render (j : json) : string :=
  match j with
  | JNull => "null"
  | JBool true => "true"
  | JBool false => "false"
  | JNumber n => pretty n
  | JString s => dquote +:+ s +:+ dquote
  | JArray items => "[" +:+ join_comma (map json_render items) +:+ "]"
  | JObject fields =>
      "{" +:+
      join_comma (map (fun kv => dquote +:+ fst kv +:+ dquote +:+ ":" +:+ json_render (snd kv)) fields)
      +:+ "}"
  end.

Definition bytes_of_string (s : string) : bytes := String.list_byte_of_string s.

(** ** Data model *)

(** Modelled from the spec: [libsignalgo.Address] is declared outside the
    files at hand.  An address is the pair (account identifier, device
    identifier) of one recipient device.  Building one ([NewAddress]) and
    reading its device id ([DeviceID]) go through the foreign library and
    can fail; the failure is an answer of the environment below. *)
Record Address : Type := mkAddress { addr_name : string; addr_device : Z }.

#[global] Instance Address_eq_dec : EqDecision Address.
Proof. solve_decision. Defined.

(** Handles of objects that live in the foreign library. *)
Inductive SessionRecord : Type := SessionRecord_ptr (p : Z).
Inductive CiphertextMessage : Type := CiphertextMessage_ptr (p : Z).
Inductive SenderCertificate : Type := SenderCertificate_ptr (p : Z).
Inductive Chan : Type := Chan_ptr (p : Z).

Definition ProfileKey : Type := bytes.
Definition AccessKey : Type := bytes.

(** The numbering of ciphertext kinds and of envelope types; the comments
    of [buildAuthedMessageToSend] give the first two pairs ([3 -> 3],
    [2 -> 1]). *)
Definition CiphertextMessageTypeWhisper : Z := 2.
Definition CiphertextMessageTypePreKey : Z := 3.
Definition Envelope_CIPHERTEXT : Z := 1.
Definition Envelope_PREKEY_BUNDLE : Z := 3.
(** Modelled from the spec: the constant is declared outside the files at
    hand; the spec calls it the service's designated sealed-sender type
    constant, which is 6 in the service's enumeration.  No theorem depends
    on the number. *)
Definition Envelope_UNIDENTIFIED_SENDER : Z := 6.

Record MyMessage : Type := mkMyMessage {
  Type_ : Z;
  DestinationDeviceID : Z;
  DestinationRegistrationID : Z;
  Content_ : string
}.

Record MyMessages : Type := mkMyMessages {
  Timestamp : Z;
  Online : bool;
  Urgent : bool;
  Messages : option (list MyMessage)
}.

(** [json.Marshal] of the two structs, following their field tags. *)
Definition MyMessage_json (m : MyMessage) : json :=
  JObject [("type", JNumber (Type_ m));
           ("destinationDeviceId", JNumber (DestinationDeviceID m));
           ("destinationRegistrationId", JNumber (DestinationRegistrationID m));
           ("content", JString (Content_ m))].

Definition MyMessages_json (ms : MyMessages) : json :=
  JObject [("timestamp", JNumber (Timestamp ms));
           ("online", JBool (Online ms));
           ("urgent", JBool (Urgent ms));
           ("messages",
            match Messages ms with
            | None => JNull
            | Some l => JArray (map MyMessage_json l)
            end)].

Definition json_Marshal (ms : MyMessages) : bytes * option error :=
  (bytes_of_string (json_render (MyMessages_json ms)), None).

(** The protobuf messages the engine builds. *)
Record DataMessage : Type := mkDataMessage {
  dm_Body : option string;
  dm_Timestamp : option Z;
  dm_GroupV2 : option bytes
}.

Record UnidentifiedDeliveryStatus : Type := mkUnidentifiedDeliveryStatus {
  uds_DestinationUuid : string;
  uds_Unidentified : bool
}.

Record SyncMessage_Sent : Type := mkSent {
  sent_Message : DataMessage;
  sent_DestinationUuid : option string;
  sent_Timestamp : option Z;
  sent_UnidentifiedStatus : list UnidentifiedDeliveryStatus
}.

Record Content : Type := mkContent {
  content_DataMessage : option DataMessage;
  content_SyncMessage : option SyncMessage_Sent
}.

Record WebSocketRequestMessage : Type := mkRequest {
  Verb : string;
  Path : string;
  Body : bytes;
  Headers : list string
}.

Record WebSocketResponseMessage : Type := mkResponse {
  resp_Id : option Z;
  resp_Status : option Z;
  resp_Headers : list string;
  resp_Body : bytes
}.

Record GroupMember : Type := mkGroupMember { UserId : string }.
Record Group : Type := mkGroup { Members : list GroupMember }.

(** The fields of [Device.Data] the engine reads. *)
Record Device : Type := mkDevice { AciUuid : string; DeviceId : Z }.

Inductive Socket : Type := AuthedWS | UnauthedWS.
Inductive LogLevel : Type := LevelErr | LevelWarn.

(** ** Calls that leave the engine

    Each constructor is one call, indexed by the type of what it returns.
    A Go pair [(ptr, err)] is a pair of options.  Of the logger only the
    error and warning lines are kept (trace and debug lines are not
    events). *)
Inductive Call : Type -> Type :=
| ProfileKeyForSignalID (uuid : string) : Call (option ProfileKey * option error)
| DeriveAccessKey (profileKey : option ProfileKey) : Call (option AccessKey * option error)
| AllSessionsForUUID (uuid : string)
    : Call (option (list Address) * option (list SessionRecord) * option error)
| FetchAndProcessPreKey (uuid : string) (deviceId : Z) : Call (option error)
| NewAddress (name : string) (deviceId : Z) : Call (option error)
| DeviceID (a : Address) : Call (option error)
| RemoveSession (a : option Address) : Call (option error)
| GetRemoteRegistrationID (s : SessionRecord) : Call (Z * option error)
| proto_Marshal (c : Content) : Call (bytes * option error)
| Encrypt (plaintext : bytes) (a : Address)
    : Call (option CiphertextMessage * option error)
| Serialize (m : option CiphertextMessage) : Call (option bytes * option error)
| MessageType (m : option CiphertextMessage) : Call (Z * option error)
| senderCertificate : Call (option SenderCertificate * option error)
| SealedSenderEncryptPlaintext (plaintext : bytes) (a : Address)
    (cert : option SenderCertificate) : Call (option bytes * option error)
| SendRequest (ws : Socket) (request : WebSocketRequestMessage)
    : Call (Chan * option error)
| Receive (c : Chan) : Call (option WebSocketResponseMessage)
| json_Unmarshal (data : bytes) : Call (gmap string json * option error)
| UnixMilli : Call Z
| RetrieveGroupByID (groupID : bytes) : Call (option Group * option error)
| groupMetadataForDataMessage (g : Group) : Call (option bytes)
| zlog (level : LogLevel) (err : option error) (msg : string) : Call unit.

(** ** Programs *)

Inductive Prog (R : Type) : Type :=
| Ret (r : R)
| Panic (msg : string)
| Vis {X : Type} (e : Call X) (k : X -> Prog R).
Arguments Ret {R} r.
Arguments Panic {R} msg.
Arguments Vis {R X} e k.

Fixpoint bind {A B} (p : Prog A) (f : A -> Prog B) : Prog B :=
  match p with
  | Ret a => f a
  | Panic m => Panic m
  | Vis e k => Vis e (fun x => bind (k x) f)
  end.

Definition call {X} (e : Call X) : Prog X := Vis e Ret.

Definition lift {A} (o : Outcome A) : Prog A :=
  match o with
  | Returned a => Ret a
  | Panicked m => Panic m
  end.

#[global] Instance Prog_ret : MRet Prog := fun A => @Ret A.
#[global] Instance Prog_bind : MBind Prog := fun A B f p => bind p f.

(** One observed call with its answer, and the runs of a program: the
    traces it can leave, with how it ended. *)
Inductive Obs : Type :=
| obs {X : Type} (e : Call X) (x : X).

Fixpoint runs {R} (p : Prog R) (tr : list Obs) (o : Outcome R) : Prop :=
  match p with
  | Ret r => tr = [] /\ o = Returned r
  | Panic m => tr = [] /\ o = Panicked m
  | Vis e k => exists x tr', tr = obs e x :: tr' /\ runs (k x) tr' o
  end.

(** Running a program against an environment that answers every call from
    its own state. *)
Definition Env (S : Type) : Type := forall X, Call X -> S -> X * S.

Fixpoint run {S R} (h : Env S) (p : Prog R) (s : S) : list Obs * Outcome R * S :=
  match p with
  | Ret r => ([], Returned r, s)
  | Panic m => ([], Panicked m, s)
  | Vis e k =>
      let '(x, s') := h _ e s in
      let '(tr, o, s'') := run h (k x) s' in
      (obs e x :: tr, o, s'')
  end.

(** ** Envelope builder *)

Definition log_err (err : option error) (msg : string) : Prog unit :=
  call (zlog LevelErr err msg).

(** [len] of a slice that may be [nil]. *)
Definition slice_len {A} (s : option (list A)) : Z := len (default [] s).

Definition checkForErrorWithSessions (err : option error)
    (addresses : option (list Address))
    (sessionRecords : option (list SessionRecord)) : option error :=
  match err with
  | Some e => Some e
  | None =>
      match addresses, sessionRecords with
      | Some a, Some s =>
          if negb (len a =? len s) then
            Some (errors_New ("Mismatched number of addresses (" +:+ pretty (len a)
                              +:+ ") and session records (" +:+ pretty (len s) +:+ ")"))
          else if (len a =? 0) || (len s =? 0) then
            Some (errors_New "No addresses or session records")
          else None
      | _, _ => Some (errors_New "Addresses or session records are nil")
      end
  end.

Definition buildAuthedMessageToSend (recipientAddress : Address)
    (paddedMessage : bytes) : Prog (Z * option bytes * option error) :=
  '(cipherTextMessage, err) ← call (Encrypt paddedMessage recipientAddress);
  (* the error of Encrypt is overwritten by the next assignment *)
  '(encryptedPayload, err) ← call (Serialize cipherTextMessage);
  match err with
  | Some e => mret (0, None, Some e)
  | None =>
      '(cipherMessageType, _) ← call (MessageType cipherTextMessage);
      if cipherMessageType =? CiphertextMessageTypePreKey then
        mret (Envelope_PREKEY_BUNDLE, encryptedPayload, None)
      else if cipherMessageType =? CiphertextMessageTypeWhisper then
        mret (Envelope_CIPHERTEXT, encryptedPayload, None)
      else
        mret (0, None,
              Some (errors_New ("Unknown message type: " +:+ pretty cipherMessageType)))
  end.

Definition buildSSMessageToSend (recipientAddress : Address)
    (paddedMessage : bytes) : Prog (Z * option bytes * option error) :=
  '(cert, err) ← call senderCertificate;
  match err with
  | Some e => mret (0, None, Some e)
  | None =>
      '(encryptedPayload, err) ←
        call (SealedSenderEncryptPlaintext paddedMessage recipientAddress cert);
      mret (Envelope_UNIDENTIFIED_SENDER, encryptedPayload, None)
  end.

(** The body of [for i, recipientAddress := range addresses] in
    [buildMessagesToSend], from index [i] on, with the envelopes built so
    far.  [err] is assigned by [addPadding] and by the two builders and
    assigned again by [GetRemoteRegistrationID] before it is read. *)
Fixpoint buildMessagesToSend_loop (content : Content) (unauthenticated : bool)
    (sessionRecords : list SessionRecord) (i : nat) (addresses : list Address)
    (messages : list MyMessage) : Prog (option (list MyMessage) * option error) :=
  match addresses with
  | [] => mret (Some messages, None)
  | recipientAddress :: rest =>
      err ← call (DeviceID recipientAddress);
      match err with
      | Some e => mret (None, Some e)
      | None =>
          let recipientDeviceID := addr_device recipientAddress in
          '(serializedMessage, err) ← call (proto_Marshal content);
          match err with
          | Some e => mret (None, Some e)
          | None =>
              '(paddedMessage, err) ← lift (addPadding 3 serializedMessage);
              match sessionRecords !! i with
              | None => Panic "index out of range"
              | Some sessionRecord =>
                  '(envelopeType, encryptedPayload, err) ←
                    (if unauthenticated
                     then buildSSMessageToSend recipientAddress (default [] paddedMessage)
                     else buildAuthedMessageToSend recipientAddress (default [] paddedMessage));
                  '(destinationRegistrationID, err) ←
                    call (GetRemoteRegistrationID sessionRecord);
                  match err with
                  | Some e => mret (None, Some e)
                  | None =>
                      let outgoingMessage :=
                        {| Type_ := envelopeType;
                           DestinationDeviceID := GoInt.of_uint recipientDeviceID;
                           DestinationRegistrationID := destinationRegistrationID;
                           Content_ := base64_of_slice encryptedPayload |} in
                      buildMessagesToSend_loop content unauthenticated sessionRecords
                        (S i) rest (messages ++ [outgoingMessage])
                  end
              end
          end
      end
  end.

Definition buildMessagesToSend (recipientUuid : string) (content : Content)
    (unauthenticated : bool) : Prog (option (list MyMessage) * option error) :=
  '(addresses, sessionRecords, err) ← call (AllSessionsForUUID recipientUuid);
  '(addresses, sessionRecords, err) ←
    (if bool_decide (err = None)
        && ((slice_len addresses =? 0) || (slice_len sessionRecords =? 0))
     then
       (* No sessions, make one with prekey *)
       call (FetchAndProcessPreKey recipientUuid (-1));;
       call (AllSessionsForUUID recipientUuid)
     else mret (addresses, sessionRecords, err));
  match checkForErrorWithSessions err addresses sessionRecords with
  | Some e => mret (None, Some e)
  | None =>
      buildMessagesToSend_loop content unauthenticated (default [] sessionRecords)
        0%nat (default [] addresses) []
  end.

(** ** Repairs after a 409, 410 or 428 *)

(** [body[k] != nil]: the key is present and its value is not JSON null. *)
Definition body_field (body : gmap string json) (k : string) : option json :=
  match body !! k with
  | Some JNull => None
  | o => o
  end.

Fixpoint handle409_missing (recipientUuid : string) (missingDevices : list json)
  : Prog unit :=
  match missingDevices with
  | [] => mret tt
  | JNumber missingDevice :: rest =>
      call (FetchAndProcessPreKey recipientUuid missingDevice);;
      handle409_missing recipientUuid rest
  | _ :: _ => Panic "interface conversion: interface {} is not float64"
  end.

(** The loop over [extraDevices]; [Some e] when the loop body returns [e]
    from [handle409]. *)
Fixpoint handle409_extra (recipientUuid : string) (extraDevices : list json)
  : Prog (option error) :=
  match extraDevices with
  | [] => mret None
  | JNumber extraDevice :: rest =>
      err ← call (NewAddress recipientUuid extraDevice);
      match err with
      | Some e => log_err (Some e) "NewAddress error";; mret (Some e)
      | None =>
          let recipient := Some (mkAddress recipientUuid extraDevice) in
          err ← call (RemoveSession recipient);
          match err with
          | Some e => log_err (Some e) "RemoveSession error";; mret (Some e)
          | None => handle409_extra recipientUuid rest
          end
      end
  | _ :: _ => Panic "interface conversion: interface {} is not float64"
  end.

Definition handle409 (recipientUuid : string) (response : WebSocketResponseMessage)
  : Prog (option error) :=
  '(body, err) ← call (json_Unmarshal (resp_Body response));
  match err with
  | Some e => log_err (Some e) "Unmarshal error";; mret (Some e)
  | None =>
      match body_field body "missingDevices" with
      | None => mret tt
      | Some (JArray missingDevices) => handle409_missing recipientUuid missingDevices
      | Some _ => Panic "interface conversion: interface {} is not []interface {}"
      end;;
      match body_field body "extraDevices" with
      | None => mret None
      | Some (JArray extraDevices) => handle409_extra recipientUuid extraDevices
      | Some _ => Panic "interface conversion: interface {} is not []interface {}"
      end
  end.

Fixpoint handle410_stale (recipientUuid : string) (staleDevices : list json)
  : Prog (option error) :=
  match staleDevices with
  | [] => mret None
  | JNumber staleDevice :: rest =>
      err ← call (NewAddress recipientUuid staleDevice);
      let recipient :=
        match err with
        | None => Some (mkAddress recipientUuid staleDevice)
        | Some _ => None
        end in
      err ← call (RemoveSession recipient);
      match err with
      | Some e => log_err (Some e) "RemoveSession error";; mret (Some e)
      | None =>
          call (FetchAndProcessPreKey recipientUuid staleDevice);;
          handle410_stale recipientUuid rest
      end
  | _ :: _ => Panic "interface conversion: interface {} is not float64"
  end.

Definition handle410 (recipientUuid : string) (response : WebSocketResponseMessage)
  : Prog (option error) :=
  '(body, err) ← call (json_Unmarshal (resp_Body response));
  match err with
  | Some e => log_err (Some e) "Unmarshal error";; mret (Some e)
  | None =>
      match body_field body "staleDevices" with
      | None => mret None
      | Some (JArray staleDevices) => handle410_stale recipientUuid staleDevices
      | Some _ => Panic "interface conversion: interface {} is not []interface {}"
      end
  end.

Fixpoint handle428_headers (headers : list string) (retryAfterSeconds : Z) : Prog Z :=
  match headers with
  | [] => mret retryAfterSeconds
  | header :: rest =>
      let parts := strings_Split_colon header in
      match parts !! 0%nat, parts !! 1%nat with
      | Some key, Some value =>
          if String.eqb key "Retry-After" then
            let '(v, err) := strconv_ParseUint value in
            match err with
            | Some e => log_err (Some e) "ParseUint error"
            | None => mret tt
            end;;
            handle428_headers rest v
          else handle428_headers rest retryAfterSeconds
      | _, _ => Panic "index out of range"
      end
  end.

Definition handle428 (recipientUuid : string) (response : WebSocketResponseMessage)
  : Prog (option error) :=
  '(body, err) ← call (json_Unmarshal (resp_Body response));
  match err with
  | Some e => log_err (Some e) "Unmarshal error";; mret (Some e)
  | None =>
      retryAfterSeconds ← handle428_headers (resp_Headers response) 0;
      (if 0 <? retryAfterSeconds then
         call (zlog LevelWarn None
                 ("Got rate limited, need to wait " +:+ pretty retryAfterSeconds +:+ " seconds"))
       else mret tt);;
      mret None
  end.

(** ** Dispatch and retry *)

Definition retryableStatuses : list Z := [409; 410; 428; 500; 503].

(** [for _, status := range retryableStatuses { if *response.Status == status ... } ]. *)
Definition needToRetry (status : Z) : bool :=
  existsb (fun s => status =? s) retryableStatuses.

(** [int64(x)] of a [uint64]. *)
Definition int64_of_uint64 (x : Z) : Z := GoInt.wrap x.
(** [uint(x)] of an [int] and [uint64(x)] of an [int64]. *)
Definition uint_of_int (x : Z) : Z := x mod 2 ^ 64.

Record SuccessfulSendResult : Type := mkSuccessfulSendResult {
  ssr_RecipientUuid : string;
  ssr_Unidentified : bool
}.

Record FailedSendResult : Type := mkFailedSendResult {
  fsr_RecipientUuid : string;
  fsr_Error : error
}.

Record SendMessageResult : Type := mkSendMessageResult {
  WasSuccessful : bool;
  sr_SuccessfulSendResult : option SuccessfulSendResult;
  sr_FailedSendResult : option FailedSendResult
}.

Record GroupMessageSendResult : Type := mkGroupMessageSendResult {
  SuccessfullySentTo : list SuccessfulSendResult;
  FailedToSendTo : list FailedSendResult
}.

Definition dataMessageFromText (text : string) (timestamp : Z) : DataMessage :=
  {| dm_Body := Some text; dm_Timestamp := Some timestamp; dm_GroupV2 := None |}.

Definition syncMessageFromGroupDataMessage (dataMessage : DataMessage)
    (results : list SuccessfulSendResult) : Content :=
  let unidentifiedStatuses :=
    map (fun result =>
           {| uds_DestinationUuid := ssr_RecipientUuid result;
              uds_Unidentified := ssr_Unidentified result |}) results in
  {| content_DataMessage := None;
     content_SyncMessage :=
       Some {| sent_Message := dataMessage;
               sent_DestinationUuid := None;
               sent_Timestamp := dm_Timestamp dataMessage;
               sent_UnidentifiedStatus := unidentifiedStatuses |} |}.

Definition syncMessageFromSoloDataMessage (dataMessage : DataMessage)
    (result : SuccessfulSendResult) : Content :=
  {| content_DataMessage := None;
     content_SyncMessage :=
       Some {| sent_Message := dataMessage;
               sent_DestinationUuid := Some (ssr_RecipientUuid result);
               sent_Timestamp := dm_Timestamp dataMessage;
               sent_UnidentifiedStatus :=
                 [ {| uds_DestinationUuid := ssr_RecipientUuid result;
                      uds_Unidentified := ssr_Unidentified result |} ] |} |}.

Definition currentMessageTimestamp : Prog Z :=
  ms ← call UnixMilli; mret (uint_of_int ms).

Fixpoint howManyOtherDevices_loop (d : Device) (addresses : list Address)
    (otherDevices : Z) : Prog Z :=
  match addresses with
  | [] => mret otherDevices
  | address :: rest =>
      err ← call (DeviceID address);
      match err with
      | Some e =>
          log_err (Some e) "Error getting deviceID from address";;
          howManyOtherDevices_loop d rest otherDevices
      | None =>
          if negb (addr_device address =? uint_of_int (DeviceId d)) then
            howManyOtherDevices_loop d rest (GoInt.add otherDevices 1)
          else howManyOtherDevices_loop d rest otherDevices
      end
  end.

Definition howManyOtherDevicesDoWeHave (d : Device) : Prog Z :=
  '(addresses, _, err) ← call (AllSessionsForUUID (AciUuid d));
  match err with
  | Some _ => mret 0
  | None => howManyOtherDevices_loop d (default [] addresses) 0
  end.

Section Engine.

(** [web.CreateWSRequest] is declared outside the files at hand; the
    headers it puts on a fresh request are a parameter. *)
Variable defaultHeaders : list string.

(** Modelled from the spec: [web.CreateWSRequest(method, path, body,
    nil, nil)] builds the correlated request with that verb, path and
    body. *)
Definition CreateWSRequest (method path : string) (body : bytes)
  : WebSocketRequestMessage :=
  {| Verb := method; Path := path; Body := body; Headers := defaultHeaders |}.

(** What [sendContent] does once the response has arrived; [retry] is
    the recursive call [sendContent(..., retryCount+1)]. *)
Definition sendContent_response (retry : Prog (bool * option error))
    (recipientUuid : string) (sentUnidentified : bool)
    (response : option WebSocketResponseMessage) : Prog (bool * option error) :=
  match response with
  | None => Panic "invalid memory address or nil pointer dereference"
  | Some response =>
      match resp_Id response, resp_Status response with
      | Some _, Some status =>
          if needToRetry status then
            err ←
              (if status =? 409 then handle409 recipientUuid response
               else if status =? 410 then handle410 recipientUuid response
               else if status =? 428 then handle428 recipientUuid response
               else mret None);
            match err with
            | Some e => mret (false, Some e)
            | None =>
                (* Try to send again (recursively) *)
                '(sentUnidentified, err) ← retry;
                match err with
                | Some e =>
                    log_err (Some e) "2nd try sendMessage error";;
                    mret (sentUnidentified, Some e)
                | None => mret (sentUnidentified, None)
                end
            end
          else if negb (status =? 200) then
            let err :=
              errors_New ("Unexpected status code while sending: " +:+ pretty status) in
            log_err (Some err) EmptyString;;
            mret (sentUnidentified, Some err)
          else mret (sentUnidentified, None)
      | _, _ => Panic "invalid memory address or nil pointer dereference"
      end
  end.

(** [sendContent] from the build of the envelopes on, once the sealed
    sender selection is made. *)
Definition sendContent_dispatch (retry : Prog (bool * option error))
    (recipientUuid : string) (messageTimestamp : Z) (content : Content)
    (useUnidentifiedSender : bool) (accessKey : option AccessKey)
  : Prog (bool * option error) :=
  '(messages, err) ← buildMessagesToSend recipientUuid content useUnidentifiedSender;
  match err with
  | Some e => log_err (Some e) "Error building messages to send";; mret (false, Some e)
  | None =>
      let outgoingMessages :=
        {| Timestamp := int64_of_uint64 messageTimestamp;
           Online := false;
           Urgent := true;
           Messages := messages |} in
      let '(jsonBytes, err) := json_Marshal outgoingMessages in
      match err with
      | Some e => mret (false, Some e)
      | None =>
          let path := "/v1/messages/" +:+ recipientUuid in
          let request := CreateWSRequest "PUT" path jsonBytes in
          '(responseChan, err) ←
            (if useUnidentifiedSender then
               match accessKey with
               | None => Panic "invalid memory address or nil pointer dereference"
               | Some accessKey =>
                   let base64AccessKey := base64_EncodeToString accessKey in
                   let request :=
                     {| Verb := Verb request; Path := Path request; Body := Body request;
                        Headers := Headers request
                                   ++ ["unidentified-access-key:" +:+ base64AccessKey] |} in
                   call (SendRequest UnauthedWS request)
               end
             else call (SendRequest AuthedWS request));
          let sentUnidentified := useUnidentifiedSender in
          match err with
          | Some e => mret (sentUnidentified, Some e)
          | None =>
              response ← call (Receive responseChan);
              sendContent_response retry recipientUuid sentUnidentified response
          end
      end
  end.

(** The sealed sender selection at the head of [sendContent]. *)
Definition sealedSenderSelector (recipientUuid : string)
  : Prog (bool * option AccessKey) :=
  let useUnidentifiedSender := true in
  '(profileKey, err) ← call (ProfileKeyForSignalID recipientUuid);
  useUnidentifiedSender ←
    (if bool_decide (err <> None) || bool_decide (profileKey = None) then
       log_err err "Error getting profile key";; mret false
     else mret useUnidentifiedSender);
  '(accessKey, err) ← call (DeriveAccessKey profileKey);
  useUnidentifiedSender ←
    (match err with
     | Some e => log_err (Some e) "Error deriving access key";; mret false
     | None => mret useUnidentifiedSender
     end);
  mret (useUnidentifiedSender, accessKey).

Definition sendContent_body (retry : Prog (bool * option error))
    (recipientUuid : string) (messageTimestamp : Z) (content : Content)
    (retryCount : Z) : Prog (bool * option error) :=
  if 3 <? retryCount then
    let err := errors_New "Too many retries" in
    log_err (Some err) ("sendContent too many retries: " +:+ pretty retryCount);;
    mret (false, Some err)
  else
    '(useUnidentifiedSender, accessKey) ← sealedSenderSelector recipientUuid;
    sendContent_dispatch retry recipientUuid messageTimestamp content
      useUnidentifiedSender accessKey.

(** [sendContent] calls itself with [retryCount+1] and stops once
    [retryCount > 3], so [4 - retryCount] calls are nested at most; the
    recursion is on that number.  [sendContent_unfold] below shows that
    the function satisfies the recursive equation of the source for
    every [retryCount]. *)
Fixpoint sendContent_rec (budget : nat) (recipientUuid : string)
    (messageTimestamp : Z) (content : Content) (retryCount : Z)
  : Prog (bool * option error) :=
  sendContent_body
    (match budget with
     | O => Panic "unreachable"
     | S b => sendContent_rec b recipientUuid messageTimestamp content (retryCount + 1)
     end)
    recipientUuid messageTimestamp content retryCount.

Definition sendContent (recipientUuid : string) (messageTimestamp : Z)
    (content : Content) (retryCount : Z) : Prog (bool * option error) :=
  sendContent_rec (Z.to_nat (4 - retryCount)) recipientUuid messageTimestamp
    content retryCount.

(** ** Entry points *)

Definition SendMessage (device : Device) (recipientUuid : string) (text : string)
  : Prog SendMessageResult :=
  messageTimestamp ← currentMessageTimestamp;
  let dataMessage := dataMessageFromText text messageTimestamp in
  let content :=
    {| content_DataMessage := Some dataMessage; content_SyncMessage := None |} in
  '(sentUnidentified, err) ← sendContent recipientUuid messageTimestamp content 0;
  match err with
  | Some e =>
      mret {| WasSuccessful := false;
              sr_SuccessfulSendResult := None;
              sr_FailedSendResult :=
                Some {| fsr_RecipientUuid := recipientUuid; fsr_Error := e |} |}
  | None =>
      let success :=
        {| ssr_RecipientUuid := recipientUuid; ssr_Unidentified := sentUnidentified |} in
      let result :=
        {| WasSuccessful := true;
           sr_SuccessfulSendResult := Some success;
           sr_FailedSendResult := None |} in
      call (FetchAndProcessPreKey (AciUuid device) (-1));;
      otherDevices ← howManyOtherDevicesDoWeHave device;
      (if 0 <? otherDevices then
         let syncContent := syncMessageFromSoloDataMessage dataMessage success in
         '(_, selfSendErr) ←
           sendContent (AciUuid device) messageTimestamp syncContent 0;
         match selfSendErr with
         | Some e => log_err (Some e) "Failed to send sync message to myself"
         | None => mret tt
         end
       else mret tt);;
      mret result
  end.

Fixpoint SendGroupMessage_loop (device : Device) (messageTimestamp : Z)
    (content : Content) (members : list GroupMember)
    (result : GroupMessageSendResult) : Prog GroupMessageSendResult :=
  match members with
  | [] => mret result
  | member :: rest =>
      if String.eqb (UserId member) (AciUuid device) then
        SendGroupMessage_loop device messageTimestamp content rest result
      else
        '(sentUnidentified, err) ←
          sendContent (UserId member) messageTimestamp content 0;
        match err with
        | Some e =>
            log_err (Some e) ("Failed to send to " +:+ UserId member);;
            SendGroupMessage_loop device messageTimestamp content rest
              {| SuccessfullySentTo := SuccessfullySentTo result;
                 FailedToSendTo :=
                   FailedToSendTo result
                   ++ [ {| fsr_RecipientUuid := UserId member; fsr_Error := e |} ] |}
        | None =>
            SendGroupMessage_loop device messageTimestamp content rest
              {| SuccessfullySentTo :=
                   SuccessfullySentTo result
                   ++ [ {| ssr_RecipientUuid := UserId member;
                           ssr_Unidentified := sentUnidentified |} ];
                 FailedToSendTo := FailedToSendTo result |}
        end
  end.

Definition SendGroupMessage (device : Device) (groupID : bytes) (text : string)
  : Prog (option GroupMessageSendResult * option error) :=
  '(group, err) ← call (RetrieveGroupByID groupID);
  match err with
  | Some e => mret (None, Some e)
  | None =>
      messageTimestamp ← currentMessageTimestamp;
      let dataMessage := dataMessageFromText text messageTimestamp in
      match group with
      | None => Panic "invalid memory address or nil pointer dereference"
      | Some group =>
          groupV2 ← call (groupMetadataForDataMessage group);
          let dataMessage :=
            {| dm_Body := dm_Body dataMessage;
               dm_Timestamp := dm_Timestamp dataMessage;
               dm_GroupV2 := groupV2 |} in
          let content :=
            {| content_DataMessage := Some dataMessage; content_SyncMessage := None |} in
          result ←
            SendGroupMessage_loop device messageTimestamp content (Members group)
              {| SuccessfullySentTo := []; FailedToSendTo := [] |};
          otherDevices ← howManyOtherDevicesDoWeHave device;
          (if 0 <? otherDevices then
             let syncContent :=
               syncMessageFromGroupDataMessage dataMessage (SuccessfullySentTo result) in
             '(_, selfSendErr) ←
               sendContent (AciUuid device) messageTimestamp syncContent 0;
             match selfSendErr with
             | Some e => log_err (Some e) "Failed to send sync message to myself (%v)"
             | None => mret tt
             end
           else mret tt);;
          mret (Some result, None)
      end
  end.

End Engine.

(** ** Auxiliary definitions for the statements *)

(** The loop of [padBlock] on its own. *)
Definition zero_from (b : bytes) (l : list Z) : bytes :=
  foldl (fun b i => <[Z.to_nat i := Byte.x00]> b) b l.


(** The length [addPadding] computes for the buffer, as the source
    computes it. *)
Definition messageLengthWithPadding (messageLength : Z) : Z :=
  let messageLengthWithTerminator := GoInt.add messageLength 1 in
  let messagePartCount := GoInt.quot messageLengthWithTerminator 160 in
  let messagePartCount :=
    if GoInt.rem messageLengthWithTerminator 160 =? 0 then messagePartCount
    else GoInt.add messagePartCount 1 in
  GoInt.mul messagePartCount 160.


(** A two-byte plaintext for the examples. *)
Definition hello : bytes := [Byte.x68; Byte.x69].

(** What [addPadding] owes its caller, by version. *)
Definition addPadding_post (version : Z) (contents : bytes) : Prop :=
  (version < 2 ->
     addPadding version contents
     = Returned (None, Some (errors_New ("Unknown version " +:+ pretty version))))
  /\ (version = 2 -> addPadding version contents = Returned (Some contents, None))
  /\ (3 <= version ->
      exists out k,
        addPadding version contents = Returned (Some out, None)
        /\ 0 < k /\ len out = 160 * k
        /\ len contents + 1 <= len out
        /\ take (length contents) out = contents
        /\ out !! length contents = Some Byte.x80
        /\ (forall i, (length contents < i < length out)%nat -> out !! i = Some Byte.x00)).

(** The padding step of version 3 and later cannot fail: the buffer is
    allocated, the copy is in range, the terminator position lies inside
    the buffer, whose length is the least positive multiple of 160 that
    holds the plaintext and the terminator, and [padBlock] reports no
    error. *)
Definition addPadding_succeeds (version : Z) (contents : bytes) : Prop :=
  exists buffer block out k,
    make_bytes (messageLengthWithPadding (len contents)) = Returned buffer
    /\ copy_prefix buffer (len contents) contents = Returned block
    /\ len contents < len block
    /\ 0 < k /\ len block = 160 * k
    /\ len contents + 1 <= 160 * k /\ 160 * (k - 1) < len contents + 1
    /\ padBlock block (len contents) = Returned (out, None)
    /\ addPadding version contents = Returned (Some out, None).

(** ** Reading traces *)

(** [wp p Q]: every run of [p] leaves a trace and an outcome that satisfy
    [Q]. *)
Definition wp {R} (p : Prog R) (Q : list Obs -> Outcome R -> Prop) : Prop :=
  forall tr o, runs p tr o -> Q tr o.

(** Every observation of every run satisfies [P]. *)
Definition silent {R} (P : Obs -> Prop) (p : Prog R) : Prop :=
  wp p (fun tr _ => Forall P tr).

Definition count_obs (P : Obs -> bool) (tr : list Obs) : nat :=
  length (List.filter P tr).

(** No run has more than [n] observations that satisfy [P]. *)
Definition atmost {R} (P : Obs -> bool) (n : nat) (p : Prog R) : Prop :=
  wp p (fun tr _ => (count_obs P tr <= n)%nat).

(** A request handed to one of the two websockets. *)
Definition is_dispatch (ob : Obs) : bool :=
  match ob with
  | obs e _ => match e with SendRequest _ _ => true | _ => false end
  end.

(** The first call of an attempt that passed the retry guard. *)
Definition is_attempt (ob : Obs) : bool :=
  match ob with
  | obs e _ => match e with ProfileKeyForSignalID _ => true | _ => false end
  end.

(** A response taken from the channel of a request. *)
Definition is_receive (ob : Obs) : bool :=
  match ob with
  | obs e _ => match e with Receive _ => true | _ => false end
  end.

(** None of the three. *)
Definition is_local (ob : Obs) : Prop :=
  is_dispatch ob = false /\ is_attempt ob = false /\ is_receive ob = false.

(** The failure of a call entered beyond the retry ceiling. *)
Definition tooManyRetries : error := errors_New "Too many retries".

(** What an exhausted call does: one line in the log, then the failure. *)
Definition retryExhausted (retryCount : Z) : Prog (bool * option error) :=
  log_err (Some tooManyRetries)
    ("sendContent too many retries: " +:+ pretty retryCount);;
  mret (false, Some tooManyRetries).

(** The retry depth invariant on one run of [sendContent]: the attempts
    that pass the guard and the requests handed to a websocket are at
    most [4 - retryCount] (4 for the call the entry points make), and a
    call entered above the ceiling only logs and fails. *)
Definition retry_depth_bounded (retryCount : Z) (tr : list Obs)
    (o : Outcome (bool * option error)) : Prop :=
  (count_obs is_attempt tr <= Z.to_nat (4 - retryCount))%nat
  /\ (count_obs is_dispatch tr <= Z.to_nat (4 - retryCount))%nat
  /\ (retryCount = 0 -> (count_obs is_attempt tr <= 4)%nat
                        /\ (count_obs is_dispatch tr <= 4)%nat)
  /\ (3 < retryCount ->
      tr = [obs (zlog LevelErr (Some tooManyRetries)
                   ("sendContent too many retries: " +:+ pretty retryCount)) tt]
      /\ o = Returned (false, Some tooManyRetries)).

(** ** A scripted environment for the examples

    The answers of the outside world are fixed by a script; the state is
    the list of responses the server has yet to give (200 once the list is
    used up). *)
Record Script : Type := mkScript {
  script_profileKey : option ProfileKey * option error;
  script_accessKey : option AccessKey * option error;
  script_sessions : string -> option (list Address) * option (list SessionRecord) * option error;
  script_messageType : Z;
  script_serialize : option bytes * option error;
  script_registrationID : option error;
  script_decode : bytes -> gmap string json * option error;
  script_removeSession : option Address -> option error
}.

Definition response_of (status : Z) (body : bytes) : WebSocketResponseMessage :=
  {| resp_Id := Some 1; resp_Status := Some status; resp_Headers := [];
     resp_Body := body |}.

Definition scripted (sc : Script) : Env (list WebSocketResponseMessage) :=
  fun X e s =>
    match e in Call X return X * list WebSocketResponseMessage with
    | ProfileKeyForSignalID _ => (script_profileKey sc, s)
    | DeriveAccessKey _ => (script_accessKey sc, s)
    | AllSessionsForUUID u => (script_sessions sc u, s)
    | FetchAndProcessPreKey _ _ => (None, s)
    | NewAddress _ _ => (None, s)
    | DeviceID _ => (None, s)
    | RemoveSession a => (script_removeSession sc a, s)
    | GetRemoteRegistrationID (SessionRecord_ptr p) => ((p, script_registrationID sc), s)
    | proto_Marshal _ => ((hello, None), s)
    | Encrypt _ _ => ((Some (CiphertextMessage_ptr 1), None), s)
    | Serialize _ => (script_serialize sc, s)
    | MessageType _ => ((script_messageType sc, None), s)
    | senderCertificate => ((Some (SenderCertificate_ptr 1), None), s)
    | SealedSenderEncryptPlaintext _ _ _ => ((Some [Byte.x0a; Byte.x0b], None), s)
    | SendRequest _ _ => ((Chan_ptr 1, None), s)
    | Receive _ =>
        match s with
        | r :: rest => (Some r, rest)
        | [] => (Some (response_of 200 []), [])
        end
    | json_Unmarshal data => (script_decode sc data, s)
    | UnixMilli => (1700000000000, s)
    | RetrieveGroupByID _ =>
        ((Some {| Members := [ {| UserId := "alice" |}; {| UserId := "bob" |} ] |}, None), s)
    | groupMetadataForDataMessage _ => (None, s)
    | zlog _ _ _ => (tt, s)
    end.

(** Bob has one device with a session; the sender, alice, is device 1
    and has a second device. *)
Definition one_device_sessions (u : string)
  : option (list Address) * option (list SessionRecord) * option error :=
  if String.eqb u "bob" then
    (Some [mkAddress "bob" 1], Some [SessionRecord_ptr 4711], None)
  else if String.eqb u "alice" then
    (Some [mkAddress "alice" 1; mkAddress "alice" 2],
     Some [SessionRecord_ptr 11; SessionRecord_ptr 12], None)
  else (Some [], Some [], None).

(** The body [{missingDevices:[2],extraDevices:[5]}] of a 409 and the
    body [{staleDevices:[3]}] of a 410, as the server writes them. *)
Definition body409_json : list (string * json) :=
  [("missingDevices", JArray [JNumber 2]); ("extraDevices", JArray [JNumber 5])].
Definition body410_json : list (string * json) :=
  [("staleDevices", JArray [JNumber 3])].
Definition body409 : bytes := bytes_of_string (json_render (JObject body409_json)).
Definition body410 : bytes := bytes_of_string (json_render (JObject body410_json)).

Definition decode_bodies (data : bytes) : gmap string json * option error :=
  if decide (data = body409) then (list_to_map body409_json, None)
  else if decide (data = body410) then (list_to_map body410_json, None)
  else if decide (data = []) then (∅, Some (errors_New "unexpected end of JSON input"))
  else (∅, None).

(** The profile key is known, the cipher reports an ongoing ratchet and
    nothing fails. *)
Definition happy : Script :=
  {| script_profileKey := (Some (replicate 32 Byte.x01), None);
     script_accessKey := (Some (replicate 16 Byte.x02), None);
     script_sessions := one_device_sessions;
     script_messageType := CiphertextMessageTypeWhisper;
     script_serialize := (Some [Byte.x01; Byte.x02; Byte.x03], None);
     script_registrationID := None;
     script_decode := decode_bodies;
     script_removeSession := fun _ => None |}.

Definition hi_content : Content :=
  {| content_DataMessage := Some (dataMessageFromText "hi" 1700000000000);
     content_SyncMessage := None |}.

Definition jsonHeaders : list string := ["content-type:application/json"].

(** Four retryable answers in a row. *)
Definition four_retryable : list WebSocketResponseMessage :=
  [response_of 409 body409; response_of 410 body410;
   response_of 500 (bytes_of_string "{}"); response_of 503 (bytes_of_string "{}")].

(** The first request a trace hands to a websocket. *)
Definition dispatch_of (ob : Obs) : option (Socket * WebSocketRequestMessage) :=
  match ob with
  | obs e _ => match e with SendRequest ws req => Some (ws, req) | _ => None end
  end.

Definition first_dispatch (tr : list Obs) : option (Socket * WebSocketRequestMessage) :=
  head (omap dispatch_of tr).

(** The answers of the first profile key lookup and of the first access
    key derivation of a trace. *)
Definition lookup_of (ob : Obs) : option (option ProfileKey * option error) :=
  match ob with
  | obs e x =>
      match e in Call X return X -> option (option ProfileKey * option error) with
      | ProfileKeyForSignalID _ => fun x => Some x
      | _ => fun _ => None
      end x
  end.

Definition derive_of (ob : Obs) : option (option AccessKey * option error) :=
  match ob with
  | obs e x =>
      match e in Call X return X -> option (option AccessKey * option error) with
      | DeriveAccessKey _ => fun x => Some x
      | _ => fun _ => None
      end x
  end.

Definition first_lookup (tr : list Obs) := head (omap lookup_of tr).
Definition first_derive (tr : list Obs) := head (omap derive_of tr).

(** The profile key lookup of the first attempt reported an error or no
    key, or the derivation of the access key reported an error. *)
Definition selector_failed (tr : list Obs) : Prop :=
  (exists pk e, first_lookup tr = Some (pk, Some e))
  \/ (exists e, first_lookup tr = Some (None, e))
  \/ (exists ak e, first_derive tr = Some (ak, Some e)).

(** A line in the log. *)
Definition is_log (ob : Obs) : Prop :=
  match ob with
  | obs e _ => match e with zlog _ _ _ => True | _ => False end
  end.

(** An observation of the sealed sender selection: the lookup, the
    derivation, or a line in the log. *)
Definition is_selector_obs (ob : Obs) : Prop :=
  match ob with
  | obs e _ =>
      match e with
      | ProfileKeyForSignalID _ | DeriveAccessKey _ | zlog _ _ _ => True
      | _ => False
      end
  end.

(** The selections of a trace: every profile key lookup with the access
    key derivation that follows it, one pair for each attempt. *)
Fixpoint selections (tr : list Obs)
  : list ((option ProfileKey * option error) * (option AccessKey * option error)) :=
  match tr with
  | [] => []
  | ob :: rest =>
      match lookup_of ob, first_derive rest with
      | Some looked, Some derived => (looked, derived) :: selections rest
      | _, _ => selections rest
      end
  end.

(** Neither a step of the selection nor a request. *)
Definition is_plain (ob : Obs) : Prop :=
  lookup_of ob = None /\ derive_of ob = None /\ dispatch_of ob = None.

(** The websocket an attempt uses. *)
Definition socket_of (sealed : bool) : Socket :=
  if sealed then UnauthedWS else AuthedWS.

(** The selection keeps the sealed mode: the lookup gave a key and no
    error, and the derivation gave no error. *)
Definition selection_sealed
    (s : (option ProfileKey * option error) * (option AccessKey * option error)) : bool :=
  bool_decide (s.1.2 = None) && bool_decide (s.1.1 <> None) && bool_decide (s.2.2 = None).

(** The requests of a trace, in their order. *)
Definition requests (tr : list Obs) : list (Socket * WebSocketRequestMessage) :=
  omap dispatch_of tr.

(** A request made as the selection of its attempt says: over the
    authenticated connection and without the access key header when the
    selection fell back, over the unauthenticated connection when it did
    not. *)
Definition request_follows (hdrs : list string)
    (s : (option ProfileKey * option error) * (option AccessKey * option error))
    (r : Socket * WebSocketRequestMessage) : Prop :=
  if selection_sealed s then r.1 = UnauthedWS
  else r.1 = AuthedWS /\ Headers r.2 = hdrs.

(** The request of an attempt in authenticated mode. *)
Definition authed_request (hdrs : list string) (uuid : string) (ts : Z)
    (messages : option (list MyMessage)) : WebSocketRequestMessage :=
  {| Verb := "PUT";
     Path := "/v1/messages/" +:+ uuid;
     Body := (json_Marshal {| Timestamp := int64_of_uint64 ts; Online := false;
                              Urgent := true; Messages := messages |}).1;
     Headers := hdrs |}.

(** An attempt made in authenticated mode, from its selection on: the
    selection only looks up, derives and logs; the envelopes are built
    for an authenticated send; if the build fails, its error is logged and
    returned; otherwise the request is handed to the authenticated
    connection, without an access key header; if the websocket refuses
    it, that error is returned; otherwise the response is read and handled
    with the flag [false].  No error of the selection is among the
    outcomes. *)
Definition authenticated_attempt (hdrs : list string) (uuid : string) (ts : Z)
    (content : Content) (retryCount : Z) (tr : list Obs)
    (o : Outcome (bool * option error)) : Prop :=
  exists tr_sel tr_build built rest,
    tr = tr_sel ++ tr_build ++ rest
    /\ Forall is_selector_obs tr_sel
    /\ runs (buildMessagesToSend uuid content false) tr_build built
    /\ match built with
       | Panicked m => rest = [] /\ o = Panicked m
       | Returned (_, Some e) =>
           rest = [obs (zlog LevelErr (Some e) "Error building messages to send") tt]
           /\ o = Returned (false, Some e)
       | Returned (messages, None) =>
           exists ch err rest',
             rest = obs (SendRequest AuthedWS (authed_request hdrs uuid ts messages))
                      (ch, err) :: rest'
             /\ match err with
                | Some e => rest' = [] /\ o = Returned (false, Some e)
                | None =>
                    exists response rest'',
                      rest' = obs (Receive ch) response :: rest''
                      /\ runs (sendContent_response
                                 (sendContent hdrs uuid ts content (retryCount + 1))
                                 uuid false response) rest'' o
                end
       end.

(** Requests made as the selections say, one for each selection but
    perhaps the last, and an outcome that reports [sealed = true] only if
    the last selection kept the sealed mode. *)
Definition requests_follow (hdrs : list string)
    (sels : list ((option ProfileKey * option error) * (option AccessKey * option error)))
    (reqs : list (Socket * WebSocketRequestMessage))
    (o : Outcome (bool * option error)) : Prop :=
  (exists made unmade,
      sels = made ++ unmade
      /\ (length unmade <= 1)%nat
      /\ Forall2 (request_follows hdrs) made reqs)
  /\ (forall b e, o = Returned (b, e) -> b = true ->
        exists s, last sels = Some s /\ selection_sealed s = true).

(** Every request of a run is made as the selection of its attempt says
    (every attempt but the last makes a request, the last may not), and a
    run reports [sealed = true] only if the selection of its last attempt
    kept the sealed mode. *)
Definition selections_respected (hdrs : list string) (tr : list Obs)
    (o : Outcome (bool * option error)) : Prop :=
  requests_follow hdrs (selections tr) (requests tr) o.

(** What a send owes its caller when a selection falls back to the
    authenticated mode.  If the selection of the first attempt failed,
    that attempt is an authenticated one; in every attempt the request
    follows the selection, and the flag reported is not [true] unless the
    last selection kept the sealed mode; so that, when the selection
    fails in every attempt, every request goes over the authenticated
    connection without an access key header and the send reports
    [sealed = false]. *)
Definition downgraded_to_authenticated (hdrs : list string) (uuid : string)
    (ts : Z) (content : Content) (retryCount : Z) (tr : list Obs)
    (o : Outcome (bool * option error)) : Prop :=
  (selector_failed tr -> authenticated_attempt hdrs uuid ts content retryCount tr o)
  /\ selections_respected hdrs tr o
  /\ (Forall (fun s => selection_sealed s = false) (selections tr) ->
      Forall (fun r => r.1 = AuthedWS /\ Headers r.2 = hdrs) (requests tr)
      /\ forall b e, o = Returned (b, e) -> b = false).

(** The profile key of the recipient is unknown. *)
Definition no_profile_key : Script :=
  {| script_profileKey := (None, Some (errors_New "profile key not found"));
     script_accessKey := (None, Some (errors_New "null parameter"));
     script_sessions := one_device_sessions;
     script_messageType := CiphertextMessageTypeWhisper;
     script_serialize := (Some [Byte.x01; Byte.x02; Byte.x03], None);
     script_registrationID := None;
     script_decode := decode_bodies;
     script_removeSession := fun _ => None |}.

(** The profile key of the recipient cannot be looked up while two
    responses of the server are pending, and can afterwards. *)
Definition flaky (sc : Script) : Env (list WebSocketResponseMessage) :=
  fun X e s =>
    match e in Call X return X * list WebSocketResponseMessage with
    | ProfileKeyForSignalID _ =>
        (if 2 <=? len s then (None, Some (errors_New "profile key not found"))
         else script_profileKey sc, s)
    | e' => scripted sc _ e' s
    end.

(** The lookup fails for the first attempt, the server answers 500, the
    lookup succeeds for the second attempt and the server answers 200. *)
Definition run_flaky :=
  run (flaky happy) (sendContent jsonHeaders "bob" 1700000000000 hi_content 0)
    [response_of 500 []; response_of 200 []].

(** The lookup fails in both attempts. *)
Definition run_unknown_twice :=
  run (scripted no_profile_key) (sendContent jsonHeaders "bob" 1700000000000 hi_content 0)
    [response_of 500 []; response_of 200 []].

(** An authenticated send during which the cipher reports a ciphertext
    kind that is neither of the two the builder knows (7, a sender key
    message). *)
Definition unknown_kind : Script :=
  {| script_profileKey := (None, Some (errors_New "profile key not found"));
     script_accessKey := (None, Some (errors_New "null parameter"));
     script_sessions := one_device_sessions;
     script_messageType := 7;
     script_serialize := (Some [Byte.x01; Byte.x02; Byte.x03], None);
     script_registrationID := None;
     script_decode := decode_bodies;
     script_removeSession := fun _ => None |}.

(** An authenticated send during which the serialization of the
    ciphertext fails. *)
Definition serialize_fails : Script :=
  {| script_profileKey := (None, Some (errors_New "profile key not found"));
     script_accessKey := (None, Some (errors_New "null parameter"));
     script_sessions := one_device_sessions;
     script_messageType := CiphertextMessageTypeWhisper;
     script_serialize := (None, Some (errors_New "serialization failed"));
     script_registrationID := None;
     script_decode := decode_bodies;
     script_removeSession := fun _ => None |}.

(** The envelope the builder hands out in both cases: type 0 and no
    content. *)
Definition empty_envelope : MyMessage :=
  {| Type_ := 0; DestinationDeviceID := 1; DestinationRegistrationID := 4711;
     Content_ := EmptyString |}.

(** How a program ends against a script. *)
Definition outcome_under {R} (sc : Script) (p : Prog R)
    (pending : list WebSocketResponseMessage) : Outcome R :=
  (run (scripted sc) p pending).1.2.

Definition trace_under {R} (sc : Script) (p : Prog R)
    (pending : list WebSocketResponseMessage) : list Obs :=
  (run (scripted sc) p pending).1.1.

(** ** Repairs of the session store *)




Definition receive_of (ob : Obs) : option (option WebSocketResponseMessage) :=
  match ob with
  | obs e x =>
      match e in Call X return X -> option (option WebSocketResponseMessage) with
      | Receive _ => fun x => Some x
      | _ => fun _ => None
      end x
  end.

(** The first response of a trace and what follows it. *)
Fixpoint after_first_receive (tr : list Obs)
  : option (option WebSocketResponseMessage * list Obs) :=
  match tr with
  | [] => None
  | ob :: rest =>
      match receive_of ob with
      | Some r => Some (r, rest)
      | None => after_first_receive rest
      end
  end.

Definition decode_of (ob : Obs) : option (bytes * (gmap string json * option error)) :=
  match ob with
  | obs e x =>
      match e in Call X return X -> option (bytes * (gmap string json * option error)) with
      | json_Unmarshal data => fun x => Some (data, x)
      | _ => fun _ => None
      end x
  end.

(** The body as decoded at the head of a trace. *)
Definition decoded (tr : list Obs) : option (bytes * (gmap string json * option error)) :=
  head tr ≫= decode_of.


(** A repair step of the trace reported the error [e]. *)
Definition repair_failed (e : error) (tr : list Obs) : Prop :=
  Exists (fun ob =>
            match ob with
            | obs c x =>
                match c in Call X return X -> Prop with
                | NewAddress _ _ => fun x => x = Some e
                | RemoveSession _ => fun x => x = Some e
                | _ => fun _ => False
                end x
            end) tr.





(** The repair [sendContent] picks for a retryable status. *)
Definition repair_for (status : Z) (uuid : string)
    (response : WebSocketResponseMessage) : Prog (option error) :=
  if status =? 409 then handle409 uuid response
  else if status =? 410 then handle410 uuid response
  else if status =? 428 then handle428 uuid response
  else mret None.



(** ** Envelopes of a build *)

Definition sessions_of (ob : Obs)
  : option (option (list Address) * option (list SessionRecord) * option error) :=
  match ob with
  | obs e x =>
      match e in Call X
            return X -> option (option (list Address) * option (list SessionRecord)
                                * option error) with
      | AllSessionsForUUID _ => fun x => Some x
      | _ => fun _ => None
      end x
  end.

(** The address list and the session record list a build works with: the
    answer of its last look into the session store. *)
Definition resolved (tr : list Obs)
  : option (option (list Address) * option (list SessionRecord) * option error) :=
  last (omap sessions_of tr).

(** A step of the loop over the devices reported the error [e]. *)
Definition step_error (ob : Obs) : option error :=
  match ob with
  | obs c x =>
      match c in Call X return X -> option error with
      | DeviceID _ => fun x => x
      | proto_Marshal _ => fun x => x.2
      | GetRemoteRegistrationID _ => fun x => x.2
      | _ => fun _ => None
      end x
  end.

(** A call of the loop over the devices. *)
Definition is_device_step (ob : Obs) : bool :=
  match ob with
  | obs c _ =>
      match c with
      | DeviceID _ | proto_Marshal _ | GetRemoteRegistrationID _
      | Encrypt _ _ | Serialize _ | MessageType _ | senderCertificate
      | SealedSenderEncryptPlaintext _ _ _ => true
      | _ => false
      end
  end.

(** Every serialized message of the trace has a length a Go slice can
    have. *)
Definition plaintexts_fit (tr : list Obs) : Prop :=
  Forall (fun ob =>
            match ob with
            | obs c x =>
                match c in Call X return X -> Prop with
                | proto_Marshal _ => fun x => len x.1 + 160 < 2 ^ 63
                | _ => fun _ => True
                end x
            end) tr.

Definition uint_range (z : Z) : Prop := 0 <= z < 2 ^ 64.

(** One envelope per address, in the order of the addresses, each for the
    device of its address; distinct devices give distinct destinations. *)
Definition one_envelope_per_device (addresses : list Address)
    (messages : list MyMessage) : Prop :=
  length messages = length addresses
  /\ DestinationDeviceID <$> messages
     = (fun a => GoInt.of_uint (addr_device a)) <$> addresses
  /\ (NoDup (addr_device <$> addresses) ->
      Forall (fun a => uint_range (addr_device a)) addresses ->
      NoDup (DestinationDeviceID <$> messages)).

(** What a build owes for the lists it resolved.  With [N > 0] addresses
    and as many session records: [N] envelopes, one per pair, unless a
    step of the loop reports an error, in which case the build returns an
    error and no envelope.  With a list missing or empty, or lists of
    different lengths: the session resolution error, no envelope, and no
    step of the loop. *)
Definition envelopes_built (addresses : option (list Address))
    (sessionRecords : option (list SessionRecord)) (tr : list Obs)
    (o : Outcome (option (list MyMessage) * option error)) : Prop :=
  (forall a s,
      addresses = Some a -> sessionRecords = Some s ->
      a <> [] -> length a = length s ->
      (Forall (fun ob => step_error ob = None) tr ->
       exists messages,
         o = Returned (Some messages, None) /\ one_envelope_per_device a messages)
      /\ (forall e, Exists (fun ob => step_error ob = Some e) tr ->
                    exists e', o = Returned (None, Some e'))
      /\ (forall messages e, o = Returned (Some messages, e) ->
            e = None /\ one_envelope_per_device a messages))
  /\ (addresses = None \/ sessionRecords = None
      \/ slice_len addresses = 0 \/ slice_len sessionRecords = 0
      \/ slice_len addresses <> slice_len sessionRecords ->
      exists e,
        checkForErrorWithSessions None addresses sessionRecords = Some e
        /\ o = Returned (None, Some e)
        /\ Forall (fun ob => is_device_step ob = false) tr).

(** Bob with two devices. *)
Definition two_device_sessions (u : string)
  : option (list Address) * option (list SessionRecord) * option error :=
  if String.eqb u "bob" then
    (Some [mkAddress "bob" 1; mkAddress "bob" 2],
     Some [SessionRecord_ptr 4711; SessionRecord_ptr 4712], None)
  else (Some [], Some [], None).

Definition two_devices : Script :=
  {| script_profileKey := (None, None);
     script_accessKey := (None, Some (errors_New "null parameter"));
     script_sessions := two_device_sessions;
     script_messageType := CiphertextMessageTypePreKey;
     script_serialize := (Some [Byte.x01; Byte.x02; Byte.x03], None);
     script_registrationID := None;
     script_decode := decode_bodies;
     script_removeSession := fun _ => None |}.

Definition build_two :=
  run (scripted two_devices) (buildMessagesToSend "bob" hi_content false) [].

(** ** The copy sent to the sender's other devices *)

Definition solo_content (text : string) (ts : Z) : Content :=
  {| content_DataMessage := Some (dataMessageFromText text ts);
     content_SyncMessage := None |}.

Definition solo_success (recipientUuid : string) (sentUnidentified : bool)
  : SuccessfulSendResult :=
  {| ssr_RecipientUuid := recipientUuid; ssr_Unidentified := sentUnidentified |}.

(** The result [SendMessage] builds once the send to the recipient has
    returned no error. *)
Definition solo_result (recipientUuid : string) (sentUnidentified : bool)
  : SendMessageResult :=
  {| WasSuccessful := true;
     sr_SuccessfulSendResult := Some (solo_success recipientUuid sentUnidentified);
     sr_FailedSendResult := None |}.

Definition group_dataMessage (text : string) (ts : Z) (groupV2 : option bytes)
  : DataMessage :=
  {| dm_Body := Some text; dm_Timestamp := Some ts; dm_GroupV2 := groupV2 |}.

Definition group_content (text : string) (ts : Z) (groupV2 : option bytes)
  : Content :=
  {| content_DataMessage := Some (group_dataMessage text ts groupV2);
     content_SyncMessage := None |}.

(** What the rest of a run is once the sends to the recipients are over
    and [result] is what they gave: some steps that send nothing, then
    either nothing more, or the send of [syncContent] to the sender's own
    account; an error of that send is written to the log under [msg] and
    [result] is returned as it was.  Only a panic of that send keeps
    [result] from the caller. *)
Definition sync_swallowed {R} (hdrs : list string) (device : Device) (ts : Z)
    (syncContent : Content) (msg : string) (result : R)
    (tr : list Obs) (o : Outcome R) : Prop :=
  exists pre, Forall is_local pre
    /\ ((tr = pre /\ o = Returned result)
        \/ exists tr3 o3,
             runs (sendContent hdrs (AciUuid device) ts syncContent 0) tr3 o3
             /\ match o3 with
                | Returned (_, Some e) =>
                    tr = pre ++ tr3 ++ [obs (zlog LevelErr (Some e) msg) tt]
                    /\ o = Returned result
                | Returned (_, None) => tr = pre ++ tr3 /\ o = Returned result
                | Panicked m => tr = pre ++ tr3 /\ o = Panicked m
                end).

(** A run of [SendMessage]: the clock, the send to the recipient, and,
    if that send returned no error, the rest as [sync_swallowed] has it
    for the successful result. *)
Definition solo_sync_swallowed (hdrs : list string) (device : Device)
    (recipientUuid text : string) (tr : list Obs) (o : Outcome SendMessageResult)
  : Prop :=
  exists ms tr1 o1 tr2,
    tr = obs UnixMilli ms :: tr1 ++ tr2
    /\ runs (sendContent hdrs recipientUuid (uint_of_int ms)
               (solo_content text (uint_of_int ms)) 0) tr1 o1
    /\ forall sentUnidentified, o1 = Returned (sentUnidentified, None) ->
         sync_swallowed hdrs device (uint_of_int ms)
           (syncMessageFromSoloDataMessage
              (dataMessageFromText text (uint_of_int ms))
              (solo_success recipientUuid sentUnidentified))
           "Failed to send sync message to myself"
           (solo_result recipientUuid sentUnidentified) tr2 o.

(** A run of [SendGroupMessage] in which the group was found: the
    retrieval, the clock, the group's metadata, the sends to the members,
    and, once they gave [result], the rest as [sync_swallowed] has it for
    [result] and a nil error. *)
Definition group_sync_swallowed (hdrs : list string) (device : Device)
    (groupID : bytes) (text : string) (group : Group) (tr : list Obs)
    (o : Outcome (option GroupMessageSendResult * option error)) : Prop :=
  exists ms groupV2 trl ol tr2,
    tr = obs (RetrieveGroupByID groupID) (Some group, None)
           :: obs UnixMilli ms :: obs (groupMetadataForDataMessage group) groupV2
           :: trl ++ tr2
    /\ runs (SendGroupMessage_loop hdrs device (uint_of_int ms)
               (group_content text (uint_of_int ms) groupV2) (Members group)
               {| SuccessfullySentTo := []; FailedToSendTo := [] |}) trl ol
    /\ forall result, ol = Returned result ->
         sync_swallowed hdrs device (uint_of_int ms)
           (syncMessageFromGroupDataMessage
              (group_dataMessage text (uint_of_int ms) groupV2)
              (SuccessfullySentTo result))
           "Failed to send sync message to myself (%v)"
           (Some result, None) tr2 o.

(** Alice, device 1 of two, sends to bob; the server accepts the message
    for bob and answers 400 to the copy for alice's other device. *)
Definition alice : Device := {| AciUuid := "alice"; DeviceId := 1 |}.

Definition sync_refused : list WebSocketResponseMessage :=
  [response_of 200 []; response_of 400 []].

Definition send_solo :=
  run (scripted happy) (SendMessage jsonHeaders alice "bob" "hi") sync_refused.

Definition send_group :=
  run (scripted happy) (SendGroupMessage jsonHeaders alice [] "hi") sync_refused.

(** ** One attempt of a send, read off its trace *)

(** [sentUnidentified] as the websocket of the request tells it. *)
Definition sealed_of (ws : Socket) : bool :=
  match ws with
  | UnauthedWS => true
  | AuthedWS => false
  end.

(** Neither a request nor a response. *)
Definition is_quiet (ob : Obs) : Prop :=
  is_dispatch ob = false /\ is_receive ob = false.

(** The websocket of a request and the error [SendRequest] gave for it. *)
Definition answer_of (ob : Obs) : option (Socket * option error) :=
  match ob with
  | obs e x =>
      match e in Call X return X -> option (Socket * option error) with
      | SendRequest ws _ => fun x => Some (ws, x.2)
      | _ => fun _ => None
      end x
  end.

Definition first_answer (tr : list Obs) : option (Socket * option error) :=
  head (omap answer_of tr).

(** The answer of the first session lookup of a trace. *)
Definition first_sessions (tr : list Obs) := head (omap sessions_of tr).

Definition unexpectedStatus (status : Z) : error :=
  errors_New ("Unexpected status code while sending: " +:+ pretty status).

Definition nilDereference : string :=
  "invalid memory address or nil pointer dereference".

(** The send to bob when the server answers with [status] and an empty
    body. *)
Definition run_status (status : Z) :=
  run (scripted happy) (sendContent jsonHeaders "bob" 1700000000000 hi_content 0)
    [response_of status []].

(** The send to bob when the server answers 503 and then 200. *)
Definition run_503 :=
  run (scripted happy) (sendContent jsonHeaders "bob" 1700000000000 hi_content 0)
    [response_of 503 []; response_of 200 []].

(** The websockets refuse every request. *)
Definition refusing (sc : Script) : Env (list WebSocketResponseMessage) :=
  fun X e s =>
    match e in Call X return X * list WebSocketResponseMessage with
    | SendRequest _ _ => ((Chan_ptr 0, Some (errors_New "websocket closed")), s)
    | e' => scripted sc _ e' s
    end.

Definition run_refused :=
  run (refusing happy) (sendContent jsonHeaders "bob" 1700000000000 hi_content 0) [].

(** The server's answer carries no status. *)
Definition no_status : WebSocketResponseMessage :=
  {| resp_Id := Some 1; resp_Status := None; resp_Headers := []; resp_Body := [] |}.

Definition run_no_status :=
  run (scripted happy) (sendContent jsonHeaders "bob" 1700000000000 hi_content 0)
    [no_status].

(** The session store fails. *)
Definition store_down : Script :=
  {| script_profileKey := script_profileKey happy;
     script_accessKey := script_accessKey happy;
     script_sessions := fun _ => (None, None, Some (errors_New "database is locked"));
     script_messageType := script_messageType happy;
     script_serialize := script_serialize happy;
     script_registrationID := script_registrationID happy;
     script_decode := script_decode happy;
     script_removeSession := script_removeSession happy |}.

Definition run_store_down :=
  run (scripted store_down) (sendContent jsonHeaders "bob" 1700000000000 hi_content 0) [].

(** ** Rate limiting and the sender's other devices *)

(** The header has the form [key:value]. *)
Definition has_colon (header : string) : Prop :=
  colon ∈ String.list_ascii_of_string header.

#[global] Instance has_colon_dec header : Decision (has_colon header).
Proof. unfold has_colon. apply _. Defined.

(** A 428 as the server sends it, and one with a header that has no
    colon. *)
Definition rate_limited (headers : list string) : WebSocketResponseMessage :=
  {| resp_Id := Some 25; resp_Status := Some 428; resp_Headers := headers;
     resp_Body := bytes_of_string "{}" |}.

Definition run_428 (headers : list string) :=
  run (scripted happy) (handle428 "bob" (rate_limited headers)) [].

(** The address and the answer of a [DeviceID] call. *)
Definition device_answer_of (ob : Obs) : option (Address * option error) :=
  match ob with
  | obs e x =>
      match e in Call X return X -> option (Address * option error) with
      | DeviceID a => fun x => Some (a, x)
      | _ => fun _ => None
      end x
  end.

Definition device_answers (tr : list Obs) : list (Address * option error) :=
  omap device_answer_of tr.

(** The addresses whose device id could be read and is not the device's
    own. *)
Definition other_devices (d : Device) (answers : list (Address * option error))
  : list Address :=
  omap (fun '(a, err) =>
          match err with
          | Some _ => None
          | None =>
              if negb (addr_device a =? uint_of_int (DeviceId d)) then Some a else None
          end) answers.

Definition run_how_many :=
  run (scripted happy) (howManyOtherDevicesDoWeHave {| AciUuid := "alice"; DeviceId := 1 |}) [].

(** ** Results of the entry points *)

(** The result [SendMessage] returns when the send to the recipient
    failed with [e]. *)
Definition solo_failure (recipientUuid : string) (e : error) : SendMessageResult :=
  {| WasSuccessful := false;
     sr_SuccessfulSendResult := None;
     sr_FailedSendResult :=
       Some {| fsr_RecipientUuid := recipientUuid; fsr_Error := e |} |}.

(** The members of a group a message is sent to: all but the sender. *)
Definition other_members (device : Device) (members : list GroupMember) : list string :=
  filter (fun u => u <> AciUuid device) (UserId <$> members).

Definition sent_to (result : GroupMessageSendResult) : list string :=
  ssr_RecipientUuid <$> SuccessfullySentTo result.

Definition failed_to (result : GroupMessageSendResult) : list string :=
  fsr_RecipientUuid <$> FailedToSendTo result.

(** Every member but the sender is in exactly one of the two lists of
    the result, and each list keeps the order of the members. *)
Definition group_partition (device : Device) (members : list GroupMember)
    (result : GroupMessageSendResult) : Prop :=
  sent_to result ++ failed_to result ≡ₚ other_members device members
  /\ sent_to result `sublist_of` other_members device members
  /\ failed_to result `sublist_of` other_members device members.

(** The send to bob is refused by the server with a 404. *)
Definition send_solo_refused :=
  run (scripted happy) (SendMessage jsonHeaders alice "bob" "hi") [response_of 404 []].

(** A group of alice, bob and carol; the server takes the message for
    bob and refuses the one for carol. *)
Definition three_members : Group :=
  {| Members := [ {| UserId := "alice" |}; {| UserId := "bob" |}; {| UserId := "carol" |} ] |}.

Definition group_of_three (sc : Script) : Env (list WebSocketResponseMessage) :=
  fun X e s =>
    match e in Call X return X * list WebSocketResponseMessage with
    | RetrieveGroupByID _ => ((Some three_members, None), s)
    | AllSessionsForUUID u =>
        (if String.eqb u "carol"
         then (Some [mkAddress "carol" 1], Some [SessionRecord_ptr 31], None)
         else script_sessions sc u, s)
    | e' => scripted sc _ e' s
    end.

Definition send_three :=
  run (group_of_three happy) (SendGroupMessage jsonHeaders alice [] "hi")
    [response_of 200 []; response_of 404 []].

(** What [RetrieveGroupByID] answered at the head of a trace. *)
Definition group_answer_of (ob : Obs) : option (option Group * option error) :=
  match ob with
  | obs e x =>
      match e in Call X return X -> option (option Group * option error) with
      | RetrieveGroupByID _ => fun x => Some x
      | _ => fun _ => None
      end x
  end.

Definition retrieved (tr : list Obs) : option (option Group * option error) :=
  head tr ≫= group_answer_of.

(** The group cannot be retrieved. *)
Definition group_missing (sc : Script) : Env (list WebSocketResponseMessage) :=
  fun X e s =>
    match e in Call X return X * list WebSocketResponseMessage with
    | RetrieveGroupByID _ => ((None, Some (errors_New "group not found")), s)
    | e' => scripted sc _ e' s
    end.

Definition send_missing :=
  run (group_missing happy) (SendGroupMessage jsonHeaders alice [] "hi") [].

(** ** The request on the wire *)

(** The JSON of a batch as the service reads it: the timestamp, [online]
    false, [urgent] true, and one entry for each envelope with its type,
    its destination device id, its destination registration id and its
    content. *)
Definition entry_json (m : MyMessage) : json :=
  JObject [("type", JNumber (Type_ m));
           ("destinationDeviceId", JNumber (DestinationDeviceID m));
           ("destinationRegistrationId", JNumber (DestinationRegistrationID m));
           ("content", JString (Content_ m))].

Definition batch_json (timestamp : Z) (messages : list MyMessage) : json :=
  JObject [("timestamp", JNumber timestamp);
           ("online", JBool false);
           ("urgent", JBool true);
           ("messages", JArray (map entry_json messages))].

(** The content of an envelope is the base64 text of a payload. *)
Definition base64_content (m : MyMessage) : Prop :=
  exists payload, Content_ m = base64_of_slice payload.

Definition access_key_header (accessKey : AccessKey) : string :=
  "unidentified-access-key:" +:+ base64_EncodeToString accessKey.

(** A request as the wire format wants it for a send to [uuid] with
    timestamp [ts], made in the mode the selection [s] of its attempt
    chose: a [PUT] to [/v1/messages/uuid] whose body is the JSON of a
    batch with base64 contents; over the unauthenticated connection with
    the header that holds the base64 of the derived access key after the
    default headers if the selection kept the sealed mode, over the
    authenticated connection with the default headers only if it did
    not. *)
Definition wire_follows (hdrs : list string) (uuid : string) (ts : Z)
    (s : (option ProfileKey * option error) * (option AccessKey * option error))
    (r : Socket * WebSocketRequestMessage) : Prop :=
  Verb r.2 = "PUT"
  /\ Path r.2 = "/v1/messages/" +:+ uuid
  /\ (exists messages,
        Body r.2 = bytes_of_string (json_render (batch_json (int64_of_uint64 ts) messages))
        /\ Forall base64_content messages)
  /\ if selection_sealed s
     then r.1 = UnauthedWS
          /\ exists accessKey,
               s.2.1 = Some accessKey /\ Headers r.2 = hdrs ++ [access_key_header accessKey]
     else r.1 = AuthedWS /\ Headers r.2 = hdrs.

(** The same without the selection: the header is there exactly on the
    unauthenticated connection. *)
Definition wire_ok (hdrs : list string) (uuid : string) (ts : Z)
    (r : Socket * WebSocketRequestMessage) : Prop :=
  Verb r.2 = "PUT"
  /\ Path r.2 = "/v1/messages/" +:+ uuid
  /\ (exists messages,
        Body r.2 = bytes_of_string (json_render (batch_json (int64_of_uint64 ts) messages))
        /\ Forall base64_content messages)
  /\ match r.1 with
     | UnauthedWS => exists accessKey, Headers r.2 = hdrs ++ [access_key_header accessKey]
     | AuthedWS => Headers r.2 = hdrs
     end.

(** Every request of a trace has the wire format, in the mode that the
    selection of its attempt chose. *)
Definition wire_format (hdrs : list string) (uuid : string) (ts : Z)
    (tr : list Obs) : Prop :=
  (exists made unmade,
      selections tr = made ++ unmade
      /\ (length unmade <= 1)%nat
      /\ Forall2 (wire_follows hdrs uuid ts) made (requests tr))
  /\ Forall (wire_ok hdrs uuid ts) (requests tr).

(** * Properties *)

(** ** Go integers *)

Lemma wrap_small z : GoInt.in_range z -> GoInt.wrap z = z.
Proof.
  unfold GoInt.in_range, GoInt.wrap. intros H.
  rewrite Z.mod_small by lia. lia.
Qed.

Lemma len_nonneg {A} (l : list A) : 0 <= len l.
Proof. unfold len. lia. Qed.

(** ** Padding codec *)

Lemma zero_from_length l : forall b, length (zero_from b l) = length b.
Proof.
  induction l as [|i l IH]; intros b; simpl; [done|].
  unfold zero_from in IH. rewrite IH. apply length_insert.
Qed.

Lemma zero_from_lookup_out l : forall (b : bytes) (j : nat),
  Z.of_nat j ∉ l -> (forall i, i ∈ l -> 0 <= i) -> zero_from b l !! j = b !! j.
Proof.
  induction l as [|i l IH]; intros b j Hj Hpos; simpl; [done|].
  unfold zero_from in IH. rewrite IH.
  - apply list_lookup_insert_ne. intros Heq. apply Hj.
    assert (0 <= i) by (apply Hpos; left).
    replace (Z.of_nat j) with i by lia. left.
  - intros Hin. apply Hj. by right.
  - intros i' Hi'. apply Hpos. by right.
Qed.

Lemma zero_from_lookup_in l : forall (b : bytes) (j : nat),
  Z.of_nat j ∈ l -> (forall i, i ∈ l -> 0 <= i) -> (j < length b)%nat ->
  zero_from b l !! j = Some Byte.x00.
Proof.
  induction l as [|i l IH]; intros b j Hj Hpos Hlt; simpl.
  - by apply elem_of_nil in Hj.
  - assert (Hpos' : forall i, i ∈ l -> 0 <= i) by (intros; apply Hpos; by right).
    destruct (decide (Z.of_nat j ∈ l)) as [Hin|Hout].
    + unfold zero_from in IH. apply IH; [done|done|]. by rewrite length_insert.
    + apply elem_of_cons in Hj as [<-|?]; [|done].
      fold (zero_from (<[Z.to_nat (Z.of_nat j) := Byte.x00]> b) l).
      rewrite zero_from_lookup_out by done.
      rewrite Nat2Z.id. by apply list_lookup_insert_eq.
Qed.

Lemma padBlock_ok (block : bytes) (pos : Z) :
  0 <= pos < len block ->
  exists out, padBlock block pos = Returned (out, None)
    /\ length out = length block
    /\ take (Z.to_nat pos) out = take (Z.to_nat pos) block
    /\ out !! Z.to_nat pos = Some Byte.x80
    /\ (forall j, (Z.to_nat pos < j < length block)%nat -> out !! j = Some Byte.x00).
Proof.
  intros Hpos. unfold padBlock.
  destruct (Z.leb_spec (len block) pos) as [|_]; [lia|].
  destruct (Z.ltb_spec pos 0) as [|_]; [lia|].
  eexists. split; [reflexivity|].
  replace (len (<[Z.to_nat pos:=Byte.x80]> block)) with (len block)
    by (unfold len; by rewrite length_insert).
  fold (zero_from (<[Z.to_nat pos:=Byte.x80]> block)
          (seqZ (pos + 1) (len block - (pos + 1)))).
  assert (Hidx : forall i, i ∈ seqZ (pos + 1) (len block - (pos + 1)) -> 0 <= i).
  { intros i Hi. apply elem_of_seqZ in Hi. lia. }
  assert (Hlen : (Z.to_nat pos < length block)%nat) by (unfold len in Hpos; lia).
  split; [|split; [|split]].
  - by rewrite zero_from_length, length_insert.
  - apply list_eq. intros j. rewrite !lookup_take.
    case_decide; [|done].
    rewrite zero_from_lookup_out; [|rewrite elem_of_seqZ; lia|done].
    apply list_lookup_insert_ne. lia.
  - rewrite zero_from_lookup_out; [|rewrite elem_of_seqZ; lia|done].
    by apply list_lookup_insert_eq.
  - intros j Hj. apply zero_from_lookup_in; [|done|].
    + rewrite elem_of_seqZ. unfold len. lia.
    + rewrite length_insert. lia.
Qed.

Lemma messageLengthWithPadding_spec (L : Z) :
  0 <= L -> L + 160 < 2 ^ 63 ->
  exists k, 0 < k /\ messageLengthWithPadding L = 160 * k
            /\ L + 1 <= 160 * k /\ 160 * (k - 1) < L + 1.
Proof.
  intros H0 Hmax. unfold messageLengthWithPadding, GoInt.add, GoInt.quot, GoInt.rem, GoInt.mul.
  rewrite (wrap_small (L + 1)) by (unfold GoInt.in_range; lia).
  rewrite Z.quot_div_nonneg, Z.rem_mod_nonneg by lia.
  assert (Hq : 0 <= (L + 1) / 160 <= L + 1).
  { split; [apply Z.div_pos; lia|]. apply Z.div_le_upper_bound; lia. }
  rewrite (wrap_small ((L + 1) / 160)) by (unfold GoInt.in_range; lia).
  pose proof (Z.div_mod (L + 1) 160 ltac:(lia)) as Hdm.
  pose proof (Z.mod_pos_bound (L + 1) 160 ltac:(lia)) as Hm.
  destruct (Z.eqb_spec ((L + 1) mod 160) 0) as [Hz|Hnz].
  - exists ((L + 1) / 160). rewrite wrap_small by (unfold GoInt.in_range; lia). lia.
  - exists ((L + 1) / 160 + 1).
    rewrite (wrap_small ((L + 1) / 160 + 1)) by (unfold GoInt.in_range; lia).
    rewrite wrap_small by (unfold GoInt.in_range; lia). lia.
Qed.

Lemma addPadding_v3 (version : Z) (contents : bytes) :
  3 <= version -> len contents + 160 < 2 ^ 63 ->
  exists buffer block,
    make_bytes (messageLengthWithPadding (len contents)) = Returned buffer
    /\ copy_prefix buffer (len contents) contents = Returned block
    /\ len contents < len block
    /\ exists out,
         padBlock block (len contents) = Returned (out, None)
         /\ addPadding version contents = Returned (Some out, None)
         /\ len out = messageLengthWithPadding (len contents)
         /\ take (length contents) out = contents
         /\ out !! length contents = Some Byte.x80
         /\ (forall i, (length contents < i < length out)%nat -> out !! i = Some Byte.x00).
Proof.
  intros Hv Hmax.
  pose proof (len_nonneg contents) as H0.
  destruct (messageLengthWithPadding_spec (len contents) H0 Hmax)
    as (k & Hk & Hn & Hge & Hlt).
  set (n := messageLengthWithPadding (len contents)) in *.
  set (buffer := replicate (Z.to_nat n) Byte.x00 : bytes).
  set (block := (take (Nat.min (Z.to_nat (len contents)) (length contents)) contents
                ++ drop (Nat.min (Z.to_nat (len contents)) (length contents)) buffer) : bytes).
  assert (Hbuf : len buffer = n).
  { unfold len, buffer. rewrite length_replicate. lia. }
  assert (Hmin : Nat.min (Z.to_nat (len contents)) (length contents) = length contents).
  { unfold len. lia. }
  assert (Hblock : block = contents ++ drop (length contents) buffer).
  { unfold block. rewrite Hmin. by rewrite firstn_all. }
  assert (Hblen : len block = n).
  { rewrite Hblock. unfold len in *. rewrite length_app, length_drop. lia. }
  exists buffer, block.
  split.
  { unfold make_bytes. destruct (Z.ltb_spec n 0); [lia|done]. }
  split.
  { unfold copy_prefix. rewrite Hbuf.
    destruct (Z.ltb_spec (len contents) 0); [lia|].
    destruct (Z.ltb_spec n (len contents)); [lia|]. done. }
  split; [lia|].
  destruct (padBlock_ok block (len contents)) as (out & Hpad & Hlen & Htake & H80 & Hzero);
    [lia|].
  assert (Hnat : Z.to_nat (len contents) = length contents) by (unfold len; lia).
  rewrite Hnat in *.
  exists out. split; [done|]. split.
  { unfold addPadding.
    destruct (Z.ltb_spec version 2); [lia|].
    destruct (Z.eqb_spec version 2); [lia|].
    fold (messageLengthWithPadding (len contents)). fold n.
    unfold make_bytes. destruct (Z.ltb_spec n 0); [lia|]. simpl.
    fold buffer. unfold copy_prefix. rewrite Hbuf.
    destruct (Z.ltb_spec (len contents) 0); [lia|].
    destruct (Z.ltb_spec n (len contents)); [lia|]. simpl.
    fold block. by rewrite Hpad. }
  split. { unfold len in *. lia. }
  split. { rewrite Htake, Hblock. by rewrite take_app_length. }
  split; [done|].
  intros i Hi. apply Hzero. lia.
Qed.

(** C2: padding with a version below 2 fails, version 2 returns the input
    unchanged, and version 3 or later returns a buffer whose length is a
    positive multiple of 160 and at least [len(input)+1], that starts with
    the input, has [0x80] right after it and zeros from there on.  The
    hypothesis bounds the plaintext by what a Go slice can hold, so that
    the [int] arithmetic of the source does not wrap. *)
Theorem addPadding_by_version (version : Z) (contents : bytes) :
  len contents + 160 < 2 ^ 63 -> addPadding_post version contents.
Proof.
  intros Hmax. unfold addPadding_post. repeat split.
  - intros Hv. unfold addPadding. by destruct (Z.ltb_spec version 2); [|lia].
  - intros ->. reflexivity.
  - intros Hv.
    destruct (addPadding_v3 version contents Hv Hmax)
      as (buffer & block & _ & _ & _ & out & _ & Hpad & Hlen & Htake & H80 & Hzero).
    destruct (messageLengthWithPadding_spec (len contents) (len_nonneg _) Hmax)
      as (k & Hk & Hn & Hge & _).
    exists out, k. repeat split; try done; lia.
Qed.

Lemma addPadding_by_version_witness :
  len hello + 160 < 2 ^ 63 /\ addPadding_post 3 hello.
Proof.
  split; [reflexivity | apply (addPadding_by_version 3 hello); reflexivity].
Defined.

(** C10: for version 3 and later the padding always succeeds: the
    position of the terminator, [len(plaintext)], is below the length of
    the buffer, the least positive multiple of 160 that is at least
    [len(plaintext)+1]; [padBlock] never takes its error branch and
    [addPadding] returns the buffer with a nil error. *)
Theorem addPadding_v3_never_fails (version : Z) (contents : bytes) :
  3 <= version -> len contents + 160 < 2 ^ 63 -> addPadding_succeeds version contents.
Proof.
  intros Hv Hmax.
  destruct (addPadding_v3 version contents Hv Hmax)
    as (buffer & block & Hmake & Hcopy & Hpos & out & Hblock & Hpad & Hlen & _).
  destruct (messageLengthWithPadding_spec (len contents) (len_nonneg _) Hmax)
    as (k & Hk & Hn & Hge & Hlt).
  exists buffer, block, out, k.
  assert (len block = 160 * k).
  { rewrite <- Hn.
    unfold make_bytes in Hmake.
    destruct (Z.ltb_spec (messageLengthWithPadding (len contents)) 0); [done|].
    injection Hmake as <-.
    unfold copy_prefix in Hcopy.
    destruct (_ || _); [done|]. injection Hcopy as <-.
    unfold len in *. rewrite length_app, length_take, length_drop, length_replicate. lia. }
  repeat split; try done; lia.
Qed.

Lemma addPadding_v3_never_fails_witness :
  3 <= 3 /\ len hello + 160 < 2 ^ 63 /\ addPadding_succeeds 3 hello.
Proof.
  split; [lia|]. split; [reflexivity|].
  apply (addPadding_v3_never_fails 3 hello); [lia | reflexivity].
Defined.

(** ** Runs of programs *)

Lemma runs_bind {A B} (p : Prog A) (f : A -> Prog B) tr o :
  runs (p ≫= f) tr o <->
  (exists tr1 a tr2, runs p tr1 (Returned a) /\ runs (f a) tr2 o /\ tr = tr1 ++ tr2)
  \/ (exists m, runs p tr (Panicked m) /\ o = Panicked m).
Proof.
  unfold mbind, Prog_bind. revert tr.
  induction p as [a|m|X e k IH]; intros tr; simpl.
  - split.
    + intros H. left. exists [], a, tr. by repeat split.
    + intros [(tr1 & a' & tr2 & [-> Ha] & H & ->)|(m & [_ Hm] & _)]; [|done].
      by injection Ha as <-.
  - split.
    + intros [-> ->]. right. by exists m.
    + intros [(tr1 & a' & tr2 & [_ Ha] & _)|(m' & [-> Hm] & ->)]; [done|].
      by injection Hm as <-.
  - split.
    + intros (x & tr' & -> & H). apply IH in H
        as [(tr1 & a & tr2 & H1 & H2 & ->)|(m & H1 & ->)].
      * left. exists (obs e x :: tr1), a, tr2. repeat split; [|done].
        by exists x, tr1.
      * right. exists m. split; [|done]. by exists x, tr'.
    + intros [(tr1 & a & tr2 & (x & tr' & -> & H1) & H2 & ->)
             |(m & (x & tr' & -> & H1) & ->)].
      * exists x, (tr' ++ tr2). split; [done|]. apply IH. left. by exists tr', a, tr2.
      * exists x, tr'. split; [done|]. apply IH. right. by exists m.
Qed.

(** The run against an environment is one of the runs. *)
Lemma run_runs {S R} (h : Env S) (p : Prog R) (s : S) :
  runs p (run h p s).1.1 (run h p s).1.2.
Proof.
  revert s. induction p as [a|m|X e k IH]; intros s; simpl; [done|done|].
  destruct (h X e s) as [x s'] eqn:Hh.
  specialize (IH x s'). destruct (run h (k x) s') as [[tr o] s''] eqn:Hr.
  simpl in *. by exists x, tr.
Qed.

Lemma wp_ret {R} (r : R) Q : Q [] (Returned r) -> wp (Ret r) Q.
Proof. intros H tr o [-> ->]. exact H. Qed.

Lemma wp_mret {R} (r : R) Q : Q [] (Returned r) -> wp (mret r) Q.
Proof. apply wp_ret. Qed.

Lemma wp_panic {R} m (Q : list Obs -> Outcome R -> Prop) :
  Q [] (Panicked m) -> wp (Panic m) Q.
Proof. intros H tr o [-> ->]. exact H. Qed.

Lemma wp_vis {R X} (e : Call X) (k : X -> Prog R) Q :
  (forall x, wp (k x) (fun tr o => Q (obs e x :: tr) o)) -> wp (Vis e k) Q.
Proof. intros H tr o (x & tr' & -> & Hr). by apply (H x). Qed.

Lemma wp_bind {A B} (p : Prog A) (f : A -> Prog B) Q :
  wp p (fun tr1 o1 =>
          match o1 with
          | Returned a => wp (f a) (fun tr2 o => Q (tr1 ++ tr2) o)
          | Panicked m => Q tr1 (Panicked m)
          end) ->
  wp (p ≫= f) Q.
Proof.
  intros H tr o Hr. apply runs_bind in Hr
    as [(tr1 & a & tr2 & H1 & H2 & ->)|(m & H1 & ->)].
  - by apply (H _ _ H1).
  - by apply (H _ _ H1).
Qed.

Lemma wp_call {X} (e : Call X) Q :
  (forall x, Q [obs e x] (Returned x)) -> wp (call e) Q.
Proof. intros H. apply wp_vis. intros x. by apply wp_ret. Qed.

Lemma wp_mono {R} (p : Prog R) (Q Q' : list Obs -> Outcome R -> Prop) :
  wp p Q -> (forall tr o, Q tr o -> Q' tr o) -> wp p Q'.
Proof. intros H HQ tr o Hr. by apply HQ, H. Qed.

Lemma wp_conj {R} (p : Prog R) (Q Q' : list Obs -> Outcome R -> Prop) :
  wp p Q -> wp p Q' -> wp p (fun tr o => Q tr o /\ Q' tr o).
Proof. intros H H' tr o Hr. split; [by apply H | by apply H']. Qed.

(** *** Observations that hold throughout *)

Lemma silent_ret {R} P (r : R) : silent P (Ret r).
Proof. by apply wp_ret. Qed.

Lemma silent_mret {R} P (r : R) : silent P (mret r).
Proof. by apply wp_ret. Qed.

Lemma silent_panic {R} P m : silent P (@Panic R m).
Proof. by apply wp_panic. Qed.

Lemma silent_call {X} (P : Obs -> Prop) (e : Call X) :
  (forall x, P (obs e x)) -> silent P (call e).
Proof. intros H. apply wp_call. intros x. by constructor. Qed.

Lemma silent_vis {R X} (P : Obs -> Prop) (e : Call X) (k : X -> Prog R) :
  (forall x, P (obs e x)) -> (forall x, silent P (k x)) -> silent P (Vis e k).
Proof.
  intros He Hk. apply wp_vis. intros x. eapply wp_mono; [apply Hk|].
  intros tr o HF. constructor; [apply He | exact HF].
Qed.

Lemma silent_bind {A B} P (p : Prog A) (f : A -> Prog B) :
  silent P p -> (forall a, silent P (f a)) -> silent P (p ≫= f).
Proof.
  intros Hp Hf. apply wp_bind. eapply wp_mono; [exact Hp|].
  intros tr1 [a|m] H1; simpl; [|done].
  eapply wp_mono; [apply Hf|]. intros tr2 o H2. by apply Forall_app.
Qed.

Lemma silent_lift {A} P (o : Outcome A) : silent P (lift o).
Proof. destruct o; [apply silent_ret | apply silent_panic]. Qed.

Lemma silent_log P err msg :
  P (obs (zlog LevelErr err msg) tt) -> silent P (log_err err msg).
Proof. intros H. apply silent_call. by intros []. Qed.

Lemma silent_mono {R} (P P' : Obs -> Prop) (p : Prog R) :
  silent P p -> (forall ob, P ob -> P' ob) -> silent P' p.
Proof.
  intros H HP. eapply wp_mono; [exact H|]. intros tr o HF. simpl in *.
  eapply Forall_impl; eauto.
Qed.

(** *** Counting observations *)

Lemma count_obs_app P tr1 tr2 :
  count_obs P (tr1 ++ tr2) = (count_obs P tr1 + count_obs P tr2)%nat.
Proof. unfold count_obs. by rewrite List.filter_app, length_app. Qed.

Lemma count_obs_none P tr :
  Forall (fun ob => P ob = false) tr -> count_obs P tr = 0%nat.
Proof.
  unfold count_obs. induction 1 as [|ob tr Hob _ IH]; simpl; [done|].
  by rewrite Hob.
Qed.

Lemma atmost_silent {R} P (p : Prog R) n :
  silent (fun ob => P ob = false) p -> atmost P n p.
Proof.
  intros H. eapply wp_mono; [exact H|]. intros tr o HF. simpl in *.
  rewrite count_obs_none by done. lia.
Qed.

Lemma atmost_bind {A B} P n m (p : Prog A) (f : A -> Prog B) :
  atmost P n p -> (forall a, atmost P m (f a)) -> atmost P (n + m) (p ≫= f).
Proof.
  intros Hp Hf. apply wp_bind. eapply wp_mono; [exact Hp|].
  intros tr1 [a|msg] H1; simpl; [|lia].
  eapply wp_mono; [apply Hf|]. intros tr2 o H2. simpl in H2.
  rewrite count_obs_app. lia.
Qed.

Lemma atmost_mono {R} P n m (p : Prog R) :
  atmost P n p -> (n <= m)%nat -> atmost P m p.
Proof. intros H Hle. eapply wp_mono; [exact H|]. simpl. intros. lia. Qed.

(** ** The parts of the engine that neither dispatch nor start an attempt *)

Ltac silent_local :=
  repeat first
    [ apply silent_mret | apply silent_ret | apply silent_panic | apply silent_lift
    | apply silent_call; intros; repeat split; reflexivity
    | apply silent_vis; [intros; repeat split; reflexivity | intros]
    | apply silent_bind; [|intros]
    | assumption
    | case_match ].

Lemma buildAuthedMessageToSend_local a padded :
  silent is_local (buildAuthedMessageToSend a padded).
Proof. unfold buildAuthedMessageToSend. silent_local. Qed.

Lemma buildSSMessageToSend_local a padded :
  silent is_local (buildSSMessageToSend a padded).
Proof. unfold buildSSMessageToSend. silent_local. Qed.

Lemma buildMessagesToSend_loop_local content unauth srs addresses :
  forall i messages,
    silent is_local (buildMessagesToSend_loop content unauth srs i addresses messages).
Proof.
  induction addresses as [|a rest IH]; intros i messages; simpl.
  - silent_local.
  - pose proof (buildAuthedMessageToSend_local) as HA.
    pose proof (buildSSMessageToSend_local) as HS.
    unfold log_err. silent_local; first [apply HA | apply HS | apply IH].
Qed.

Lemma buildMessagesToSend_local uuid content unauth :
  silent is_local (buildMessagesToSend uuid content unauth).
Proof.
  unfold buildMessagesToSend.
  pose proof (buildMessagesToSend_loop_local) as HL.
  silent_local; apply HL.
Qed.

Lemma handle409_missing_local uuid l : silent is_local (handle409_missing uuid l).
Proof. induction l as [|j l IH]; simpl; silent_local. Qed.

Lemma handle409_extra_local uuid l : silent is_local (handle409_extra uuid l).
Proof. induction l as [|j l IH]; simpl; unfold log_err; silent_local. Qed.

Lemma handle409_local uuid response : silent is_local (handle409 uuid response).
Proof.
  unfold handle409, log_err.
  pose proof (handle409_missing_local uuid) as HM.
  pose proof (handle409_extra_local uuid) as HE.
  silent_local; first [apply HM | apply HE].
Qed.

Lemma handle410_stale_local uuid l : silent is_local (handle410_stale uuid l).
Proof. induction l as [|j l IH]; simpl; unfold log_err; silent_local. Qed.

Lemma handle410_local uuid response : silent is_local (handle410 uuid response).
Proof.
  unfold handle410, log_err.
  pose proof (handle410_stale_local uuid) as HS.
  silent_local; apply HS.
Qed.

Lemma handle428_headers_local headers :
  forall r, silent is_local (handle428_headers headers r).
Proof.
  induction headers as [|h rest IH]; intros r; simpl; unfold log_err; silent_local;
    apply IH.
Qed.

Lemma handle428_local uuid response : silent is_local (handle428 uuid response).
Proof.
  unfold handle428, log_err.
  pose proof handle428_headers_local as HH.
  silent_local; apply HH.
Qed.

Lemma howManyOtherDevices_loop_local d addresses :
  forall n, silent is_local (howManyOtherDevices_loop d addresses n).
Proof.
  induction addresses as [|a rest IH]; intros n; simpl; unfold log_err; silent_local;
    apply IH.
Qed.

Lemma howManyOtherDevicesDoWeHave_local d :
  silent is_local (howManyOtherDevicesDoWeHave d).
Proof.
  unfold howManyOtherDevicesDoWeHave.
  pose proof (howManyOtherDevices_loop_local d) as HL.
  silent_local; apply HL.
Qed.

(** ** The retry machine *)

(** [sendContent] satisfies the recursive equation of the source, for
    every [retryCount]. *)
Lemma sendContent_unfold hdrs uuid ts content rc :
  sendContent hdrs uuid ts content rc
  = sendContent_body hdrs (sendContent hdrs uuid ts content (rc + 1))
      uuid ts content rc.
Proof.
  unfold sendContent. destruct (Z.ltb_spec 3 rc) as [Hgt|Hle].
  - replace (Z.to_nat (4 - rc)) with 0%nat by lia. simpl.
    unfold sendContent_body. by destruct (Z.ltb_spec 3 rc); [|lia].
  - replace (Z.to_nat (4 - rc)) with (S (Z.to_nat (4 - (rc + 1)))) by lia.
    reflexivity.
Qed.

Lemma sendContent_exhausted hdrs uuid ts content rc :
  3 < rc -> sendContent hdrs uuid ts content rc = retryExhausted rc.
Proof.
  intros H. rewrite sendContent_unfold. unfold sendContent_body.
  by destruct (Z.ltb_spec 3 rc); [|lia].
Qed.

Lemma atmost_vis {R X} P n (e : Call X) (k : X -> Prog R) :
  (forall x, atmost P n (k x)) -> atmost P (S n) (Vis e k).
Proof.
  intros H. apply wp_vis. intros x. eapply wp_mono; [apply H|].
  intros tr o Hc. unfold count_obs in *. simpl in *. destruct (P _); simpl; lia.
Qed.

Lemma atmost_vis_miss {R X} P n (e : Call X) (k : X -> Prog R) :
  (forall x, P (obs e x) = false) -> (forall x, atmost P n (k x)) ->
  atmost P n (Vis e k).
Proof.
  intros He H. apply wp_vis. intros x. eapply wp_mono; [apply H|].
  intros tr o Hc. unfold count_obs in *. simpl in *. by rewrite He.
Qed.

Section Counting.
Variable P : Obs -> bool.
Hypothesis P_local : forall ob, is_local ob -> P ob = false.
Variable hdrs : list string.

Lemma atmost_local {R} (p : Prog R) n : silent is_local p -> atmost P n p.
Proof. intros H. apply atmost_silent. eapply silent_mono; eauto. Qed.

Lemma sendContent_response_atmost retry uuid sent response n :
  atmost P n retry ->
  atmost P n (sendContent_response retry uuid sent response).
Proof.
  intros Hretry. unfold sendContent_response.
  destruct response as [response|]; [|by apply atmost_local, silent_panic].
  destruct (resp_Id response); [|by apply atmost_local, silent_panic].
  destruct (resp_Status response) as [status|]; [|by apply atmost_local, silent_panic].
  destruct (needToRetry status).
  - apply (atmost_bind P 0 n).
    + apply atmost_local.
      repeat case_match;
        [apply handle409_local | apply handle410_local | apply handle428_local
        | apply silent_mret].
    + intros [e|]; [by apply atmost_local, silent_mret|].
      eapply atmost_mono; [apply (atmost_bind P n 0); [exact Hretry|]|lia].
      intros [sent' [e|]]; apply atmost_local; unfold log_err; silent_local.
  - apply atmost_local. unfold log_err. silent_local.
Qed.
End Counting.

Lemma is_dispatch_local ob : is_local ob -> is_dispatch ob = false.
Proof. by intros (? & ? & ?). Qed.

Lemma is_attempt_local ob : is_local ob -> is_attempt ob = false.
Proof. by intros (? & ? & ?). Qed.

Lemma sealedSenderSelector_no_dispatch uuid :
  silent (fun ob => is_dispatch ob = false) (sealedSenderSelector uuid).
Proof.
  unfold sealedSenderSelector, log_err.
  repeat first
    [ apply silent_mret | apply silent_call; intros; reflexivity
    | apply silent_vis; [intros; reflexivity | intros]
    | apply silent_bind; [|intros] | case_match ].
Qed.

Lemma sealedSenderSelector_one_attempt uuid :
  atmost is_attempt 1 (sealedSenderSelector uuid).
Proof.
  unfold sealedSenderSelector. apply (atmost_bind is_attempt 1 0).
  - apply atmost_vis. intros x. by apply atmost_local, silent_ret; auto using is_attempt_local.
  - intros a. apply atmost_local; [apply is_attempt_local|].
    unfold log_err. silent_local.
Qed.

Lemma sendContent_dispatch_dispatches hdrs retry uuid ts content sealed ak n :
  atmost is_dispatch n retry ->
  atmost is_dispatch (S n) (sendContent_dispatch hdrs retry uuid ts content sealed ak).
Proof.
  intros Hretry. unfold sendContent_dispatch.
  apply (atmost_bind is_dispatch 0 (S n)).
  { apply atmost_local; [apply is_dispatch_local | apply buildMessagesToSend_local]. }
  intros [messages [e|]].
  { apply atmost_local; [apply is_dispatch_local|]. unfold log_err. silent_local. }
  simpl. apply (atmost_bind is_dispatch 1 n).
  - destruct sealed; [destruct ak|].
    + apply atmost_vis. intros x. by apply atmost_local, silent_ret; auto using is_dispatch_local.
    + apply atmost_local; [apply is_dispatch_local | apply silent_panic].
    + apply atmost_vis. intros x. by apply atmost_local, silent_ret; auto using is_dispatch_local.
  - intros [ch [e|]].
    { by apply atmost_local, silent_mret; auto using is_dispatch_local. }
    apply atmost_vis_miss; [done|]. intros response.
    apply sendContent_response_atmost; [apply is_dispatch_local | exact Hretry].
Qed.

Lemma sendContent_dispatch_attempts hdrs retry uuid ts content sealed ak n :
  atmost is_attempt n retry ->
  atmost is_attempt n (sendContent_dispatch hdrs retry uuid ts content sealed ak).
Proof.
  intros Hretry. unfold sendContent_dispatch.
  apply (atmost_bind is_attempt 0 n).
  { apply atmost_local; [apply is_attempt_local | apply buildMessagesToSend_local]. }
  intros [messages [e|]].
  { apply atmost_local; [apply is_attempt_local|]. unfold log_err. silent_local. }
  simpl. apply (atmost_bind is_attempt 0 n).
  - destruct sealed; [destruct ak|].
    + apply atmost_vis_miss; [done|]. intros x.
      by apply atmost_local, silent_ret; auto using is_attempt_local.
    + apply atmost_local; [apply is_attempt_local | apply silent_panic].
    + apply atmost_vis_miss; [done|]. intros x.
      by apply atmost_local, silent_ret; auto using is_attempt_local.
  - intros [ch [e|]].
    { by apply atmost_local, silent_mret; auto using is_attempt_local. }
    apply atmost_vis_miss; [done|]. intros response.
    apply sendContent_response_atmost; [apply is_attempt_local | exact Hretry].
Qed.

Lemma retryExhausted_local rc : silent is_local (retryExhausted rc).
Proof. unfold retryExhausted, log_err. silent_local. Qed.

Lemma sendContent_dispatches hdrs uuid ts content :
  forall n rc, Z.to_nat (4 - rc) = n ->
    atmost is_dispatch n (sendContent hdrs uuid ts content rc).
Proof.
  induction n as [|n IH]; intros rc Hn.
  - rewrite sendContent_exhausted by lia.
    apply atmost_local; [apply is_dispatch_local | apply retryExhausted_local].
  - rewrite sendContent_unfold. unfold sendContent_body.
    destruct (Z.ltb_spec 3 rc); [lia|].
    apply (atmost_bind is_dispatch 0 (S n)).
    + apply atmost_silent, sealedSenderSelector_no_dispatch.
    + intros [sealed ak]. apply sendContent_dispatch_dispatches. apply IH. lia.
Qed.

Lemma sendContent_attempts hdrs uuid ts content :
  forall n rc, Z.to_nat (4 - rc) = n ->
    atmost is_attempt n (sendContent hdrs uuid ts content rc).
Proof.
  induction n as [|n IH]; intros rc Hn.
  - rewrite sendContent_exhausted by lia.
    apply atmost_local; [apply is_attempt_local | apply retryExhausted_local].
  - rewrite sendContent_unfold. unfold sendContent_body.
    destruct (Z.ltb_spec 3 rc); [lia|].
    apply (atmost_bind is_attempt 1 n).
    + apply sealedSenderSelector_one_attempt.
    + intros [sealed ak]. apply sendContent_dispatch_attempts. apply IH. lia.
Qed.

(** C1: the retry depth never exceeds the ceiling of 3.  Whatever the
    server answers, one logical send makes at most 4 attempts (the first
    and 3 recursive retries) and hands at most 4 requests to a websocket,
    and a call entered with a depth above 3 ends at once with the
    too-many-retries failure, before any lookup, dispatch or status. *)
Theorem sendContent_retry_ceiling hdrs uuid ts content retryCount tr o :
  runs (sendContent hdrs uuid ts content retryCount) tr o ->
  retry_depth_bounded retryCount tr o.
Proof.
  intros Hrun. unfold retry_depth_bounded.
  pose proof (sendContent_attempts hdrs uuid ts content _ retryCount eq_refl _ _ Hrun) as Ha.
  pose proof (sendContent_dispatches hdrs uuid ts content _ retryCount eq_refl _ _ Hrun) as Hd.
  simpl in Ha, Hd. repeat split; try done.
  - subst retryCount. exact Ha.
  - subst retryCount. exact Hd.
  - rewrite sendContent_exhausted in Hrun by done.
    destruct Hrun as ([] & tr' & -> & -> & _). reflexivity.
  - rewrite sendContent_exhausted in Hrun by done.
    by destruct Hrun as ([] & tr' & -> & -> & ->).
Qed.

Lemma sendContent_retry_ceiling_witness :
  exists tr,
    runs (sendContent jsonHeaders "bob" 1700000000000 hi_content 0) tr
         (Returned (false, Some tooManyRetries))
    /\ count_obs is_dispatch tr = 4%nat
    /\ count_obs is_attempt tr = 4%nat
    /\ retry_depth_bounded 0 tr (Returned (false, Some tooManyRetries)).
Proof.
  pose (r := run (scripted happy)
               (sendContent jsonHeaders "bob" 1700000000000 hi_content 0)
               four_retryable).
  assert (Hrun := run_runs (scripted happy)
               (sendContent jsonHeaders "bob" 1700000000000 hi_content 0)
               four_retryable).
  assert (Ho : r.1.2 = Returned (false, Some tooManyRetries)) by (vm_compute; reflexivity).
  fold r in Hrun. rewrite Ho in Hrun.
  exists r.1.1. split; [exact Hrun|].
  split; [vm_compute; reflexivity|]. split; [vm_compute; reflexivity|].
  exact (sendContent_retry_ceiling _ _ _ _ _ _ _ Hrun).
Defined.

(** ** Sealed sender selection *)

(** The access key is read on the sealed path only. *)
Lemma sendContent_dispatch_authed_key hdrs retry uuid ts content ak :
  sendContent_dispatch hdrs retry uuid ts content false ak
  = sendContent_dispatch hdrs retry uuid ts content false None.
Proof. reflexivity. Qed.

Lemma first_dispatch_local tr1 tr2 :
  Forall (fun ob => is_dispatch ob = false) tr1 ->
  first_dispatch (tr1 ++ tr2) = first_dispatch tr2.
Proof.
  unfold first_dispatch. induction 1 as [|ob tr1 Hob _ IH]; simpl; [done|].
  destruct ob as [X e x]. destruct e; simpl in *; try done.
Qed.

Lemma Forall_local_no_dispatch tr :
  Forall is_local tr -> Forall (fun ob => is_dispatch ob = false) tr.
Proof. intros H. eapply Forall_impl; [exact H|]. by intros ob (? & ? & ?). Qed.

Lemma Forall_local_no_attempt tr :
  Forall is_local tr -> Forall (fun ob => is_attempt ob = false) tr.
Proof. intros H. eapply Forall_impl; [exact H|]. by intros ob (? & ? & ?). Qed.

(** The runs of the selection: the lookup, perhaps a log line, the
    derivation, perhaps a log line; it always returns, and says "sealed"
    only if both steps succeeded and a key was found. *)
Lemma sealedSenderSelector_runs uuid tr o :
  runs (sealedSenderSelector uuid) tr o ->
  exists pk e1 ak e2 l1 l2 sealed,
    tr = obs (ProfileKeyForSignalID uuid) (pk, e1) :: l1
         ++ obs (DeriveAccessKey pk) (ak, e2) :: l2
    /\ Forall is_log l1
    /\ Forall is_log l2
    /\ o = Returned (sealed, ak)
    /\ (sealed = true <-> e1 = None /\ pk <> None /\ e2 = None).
Proof.
  unfold sealedSenderSelector, log_err. simpl.
  intros ([pk e1] & tr1 & -> & H).
  destruct (bool_decide (e1 <> None) || bool_decide (pk = None)) eqn:Hbad; simpl in H.
  - destruct H as ([] & tr2 & -> & [ak e2] & tr3 & -> & H).
    destruct e2 as [e2|]; simpl in H.
    + destruct H as ([] & tr4 & -> & -> & ->).
      exists pk, e1, ak, (Some e2), [obs (zlog LevelErr e1 "Error getting profile key") tt],
        [obs (zlog LevelErr (Some e2) "Error deriving access key") tt], false.
      repeat split; try done; repeat constructor. by intros (_ & _ & ?).
    + destruct H as [-> ->].
      exists pk, e1, ak, None, [obs (zlog LevelErr e1 "Error getting profile key") tt],
        [], false.
      repeat split; try done; repeat constructor.
      intros (-> & Hpk & _).
      rewrite orb_true_iff, !bool_decide_eq_true in Hbad.
      destruct Hbad as [Hb|Hb]; [by destruct Hb | by destruct Hpk].
  - destruct H as ([ak e2] & tr3 & -> & H).
    apply orb_false_iff in Hbad as [Hb1 Hb2].
    apply bool_decide_eq_false in Hb1, Hb2.
    assert (e1 = None) as -> by (destruct e1; [exfalso; by apply Hb1|done]).
    destruct e2 as [e2|]; simpl in H.
    + destruct H as ([] & tr4 & -> & -> & ->).
      exists pk, None, ak, (Some e2), [],
        [obs (zlog LevelErr (Some e2) "Error deriving access key") tt], false.
      repeat split; try done; repeat constructor. by intros (_ & _ & ?).
    + destruct H as [-> ->].
      exists pk, None, ak, None, [], [], true.
      repeat split; try done; repeat constructor.
Qed.

Lemma repair_local (status : Z) uuid response :
  silent is_local
    (if status =? 409 then handle409 uuid response
     else if status =? 410 then handle410 uuid response
     else if status =? 428 then handle428 uuid response
     else mret None).
Proof.
  destruct (status =? 409); [apply handle409_local|].
  destruct (status =? 410); [apply handle410_local|].
  destruct (status =? 428); [apply handle428_local | apply silent_mret].
Qed.

(** The runs of [sendContent] after the response: either the attempt ends
    here, having touched neither websocket, and reports its own sealed
    flag or [false]; or, after local repairs, the run continues with a
    run of the retry, whose outcome it returns. *)
Lemma sendContent_response_runs retry uuid sent response tr o :
  runs (sendContent_response retry uuid sent response) tr o ->
  (Forall is_local tr /\ (forall b e, o = Returned (b, e) -> b = sent \/ b = false))
  \/ (exists tr1 tr2 tr3,
        tr = tr1 ++ tr2 ++ tr3 /\ Forall is_local tr1 /\ Forall is_local tr3
        /\ runs retry tr2 o).
Proof.
  unfold sendContent_response. intros H.
  destruct response as [response|]; [|destruct H as [-> ->]; left; by split].
  destruct (resp_Id response); [|destruct H as [-> ->]; left; by split].
  destruct (resp_Status response) as [status|];
    [|destruct H as [-> ->]; left; by split].
  destruct (needToRetry status).
  - apply runs_bind in H as [(tr1 & a & tr2 & H1 & H2 & ->)|(m & H1 & ->)].
    + assert (Hl1 : Forall is_local tr1) by exact (repair_local _ _ _ _ _ H1).
      destruct a as [e|].
      * destruct H2 as [-> ->]. left. rewrite app_nil_r. split; [done|].
        intros b e' [= <- _]. by right.
      * apply runs_bind in H2 as [(t1 & [s' err] & t2 & Hr & H2 & ->)|(m & Hr & ->)].
        -- right. exists tr1, t1, t2. split; [done|]. split; [done|].
           destruct err as [e|].
           ++ unfold log_err in H2. destruct H2 as ([] & t3 & -> & -> & ->).
              split; [|done]. repeat constructor.
           ++ destruct H2 as [-> ->]. split; [constructor | done].
        -- right. exists tr1, tr2, []. rewrite app_nil_r. by repeat split.
    + left. split; [|done]. exact (repair_local _ _ _ _ _ H1).
  - destruct (negb (status =? 200)).
    + unfold log_err in H. destruct H as ([] & t3 & -> & -> & ->).
      left. split; [repeat constructor|]. intros b e [= <- _]. by left.
    + destruct H as [-> ->]. left. split; [constructor|].
      intros b e [= <- _]. by left.
Qed.

(** The runs of the dispatch in authenticated mode. *)
Lemma sendContent_dispatch_authed_runs hdrs retry uuid ts content tr o :
  runs (sendContent_dispatch hdrs retry uuid ts content false None) tr o ->
  (forall ws req, first_dispatch tr = Some (ws, req) -> ws = AuthedWS /\ Headers req = hdrs)
  /\ ((Forall (fun ob => is_attempt ob = false) tr
       /\ forall b e, o = Returned (b, e) -> b = false)
      \/ exists tr1 tr2 tr3,
           tr = tr1 ++ tr2 ++ tr3
           /\ Forall (fun ob => is_attempt ob = false) tr1
           /\ Forall (fun ob => is_attempt ob = false) tr3
           /\ runs retry tr2 o).
Proof.
  unfold sendContent_dispatch. intros H.
  apply runs_bind in H as [(tr1 & [messages err] & tr2 & H1 & H2 & ->)|(m & H1 & ->)].
  2:{ pose proof (buildMessagesToSend_local _ _ _ _ _ H1) as Hl. simpl in Hl.
      split.
      - intros ws req Hd. rewrite <- (app_nil_r tr) in Hd.
        rewrite first_dispatch_local in Hd by by apply Forall_local_no_dispatch. done.
      - left. split; [by apply Forall_local_no_attempt | done]. }
  pose proof (buildMessagesToSend_local _ _ _ _ _ H1) as Hl. simpl in Hl.
  destruct err as [e|].
  { unfold log_err in H2. destruct H2 as ([] & t & -> & -> & ->). split.
    - intros ws req Hd.
      rewrite first_dispatch_local in Hd by by apply Forall_local_no_dispatch. done.
    - left. split; [|by intros b e' [= <- _]].
      apply Forall_app. split; [by apply Forall_local_no_attempt | by repeat constructor]. }
  simpl in H2. destruct H2 as ([ch err] & t & -> & H2). split.
  - intros ws req Hd.
    rewrite first_dispatch_local in Hd by by apply Forall_local_no_dispatch.
    by injection Hd as <- <-.
  - destruct err as [e|].
    + destruct H2 as [-> ->]. left. split; [|by intros b e' [= <- _]].
      apply Forall_app. split; [by apply Forall_local_no_attempt | by repeat constructor].
    + simpl in H2. destruct H2 as (response & t' & -> & H2).
      apply sendContent_response_runs in H2
        as [[Hloc Hb]|(t1 & t2 & t3 & -> & Hl1 & Hl3 & Hr)].
      * left. split.
        -- apply Forall_app. split; [by apply Forall_local_no_attempt|].
           repeat constructor. by apply Forall_local_no_attempt.
        -- intros b e Ho. by destruct (Hb b e Ho).
      * right.
        eexists (tr1 ++ _ :: _ :: t1), t2, t3.
        split; [rewrite <- app_assoc; reflexivity|].
        split; [|split; [by apply Forall_local_no_attempt | done]].
        apply Forall_app. split; [by apply Forall_local_no_attempt|].
        repeat constructor. by apply Forall_local_no_attempt.
Qed.

Lemma is_log_selector ob : is_log ob -> is_selector_obs ob.
Proof. destruct ob as [X e x]. by destruct e. Qed.

Lemma is_log_local ob : is_log ob -> is_local ob.
Proof. destruct ob as [X e x]. by destruct e. Qed.

Lemma first_derive_skip l tr :
  Forall (fun ob => derive_of ob = None) l -> first_derive (l ++ tr) = first_derive tr.
Proof.
  unfold first_derive. induction 1 as [|ob l Hob _ IH]; simpl; [done|].
  by rewrite Hob.
Qed.

Lemma is_log_not_derive ob : is_log ob -> derive_of ob = None.
Proof. destruct ob as [X e x]. by destruct e. Qed.

Lemma first_derive_selector uuid pk e1 ak e2 l1 l2 tr2 :
  Forall is_log l1 ->
  first_derive ((obs (ProfileKeyForSignalID uuid) (pk, e1) :: l1
                 ++ obs (DeriveAccessKey pk) (ak, e2) :: l2) ++ tr2)
  = Some (ak, e2).
Proof.
  intros Hl1.
  replace ((obs (ProfileKeyForSignalID uuid) (pk, e1) :: l1
            ++ obs (DeriveAccessKey pk) (ak, e2) :: l2) ++ tr2)
    with ((obs (ProfileKeyForSignalID uuid) (pk, e1) :: l1)
          ++ obs (DeriveAccessKey pk) (ak, e2) :: (l2 ++ tr2))
    by (simpl; by rewrite <- app_assoc).
  rewrite first_derive_skip; [done|].
  constructor; [done|]. eapply Forall_impl; [exact Hl1 | apply is_log_not_derive].
Qed.

(** A run of [sendContent] without an attempt is the exhausted one. *)
Lemma sendContent_no_attempt hdrs uuid ts content rc tr o b e :
  runs (sendContent hdrs uuid ts content rc) tr o ->
  count_obs is_attempt tr = 0%nat -> o = Returned (b, e) -> b = false.
Proof.
  intros Hrun Hc Ho. destruct (Z.ltb_spec 3 rc) as [Hgt|Hle].
  - rewrite sendContent_exhausted in Hrun by done.
    destruct Hrun as ([] & tr' & -> & -> & ->). by injection Ho as <- _.
  - rewrite sendContent_unfold in Hrun. unfold sendContent_body in Hrun.
    destruct (Z.ltb_spec 3 rc); [lia|].
    apply runs_bind in Hrun as [(tr1 & a & tr2 & H1 & H2 & ->)|(m & H1 & ->)];
      apply sealedSenderSelector_runs in H1
        as (pk & e1 & ak & e2 & l1 & l2 & sealed & -> & _); done.
Qed.

Lemma omap_all_none {A B} (f : A -> option B) l :
  Forall (fun x => f x = None) l -> omap f l = [].
Proof. induction 1 as [|x l Hx _ IH]; [done|]. cbn. by rewrite Hx. Qed.

(** *** Steps that neither select nor send *)

Lemma buildAuthedMessageToSend_plain a padded :
  silent is_plain (buildAuthedMessageToSend a padded).
Proof. unfold buildAuthedMessageToSend. silent_local. Qed.

Lemma buildSSMessageToSend_plain a padded :
  silent is_plain (buildSSMessageToSend a padded).
Proof. unfold buildSSMessageToSend. silent_local. Qed.

Lemma buildMessagesToSend_loop_plain content unauth srs addresses :
  forall i messages,
    silent is_plain (buildMessagesToSend_loop content unauth srs i addresses messages).
Proof.
  induction addresses as [|a rest IH]; intros i messages; simpl.
  - silent_local.
  - pose proof (buildAuthedMessageToSend_plain) as HA.
    pose proof (buildSSMessageToSend_plain) as HS.
    unfold log_err. silent_local; first [apply HA | apply HS | apply IH].
Qed.

Lemma buildMessagesToSend_plain uuid content unauth :
  silent is_plain (buildMessagesToSend uuid content unauth).
Proof.
  unfold buildMessagesToSend.
  pose proof (buildMessagesToSend_loop_plain) as HL.
  silent_local; apply HL.
Qed.

Lemma handle409_missing_plain uuid l : silent is_plain (handle409_missing uuid l).
Proof. induction l as [|j l IH]; simpl; silent_local. Qed.

Lemma handle409_extra_plain uuid l : silent is_plain (handle409_extra uuid l).
Proof. induction l as [|j l IH]; simpl; unfold log_err; silent_local. Qed.

Lemma handle409_plain uuid response : silent is_plain (handle409 uuid response).
Proof.
  unfold handle409, log_err.
  pose proof (handle409_missing_plain uuid) as HM.
  pose proof (handle409_extra_plain uuid) as HE.
  silent_local; first [apply HM | apply HE].
Qed.

Lemma handle410_stale_plain uuid l : silent is_plain (handle410_stale uuid l).
Proof. induction l as [|j l IH]; simpl; unfold log_err; silent_local. Qed.

Lemma handle410_plain uuid response : silent is_plain (handle410 uuid response).
Proof.
  unfold handle410, log_err.
  pose proof (handle410_stale_plain uuid) as HS.
  silent_local; apply HS.
Qed.

Lemma handle428_headers_plain headers :
  forall r, silent is_plain (handle428_headers headers r).
Proof.
  induction headers as [|h rest IH]; intros r; simpl; unfold log_err; silent_local;
    apply IH.
Qed.

Lemma handle428_plain uuid response : silent is_plain (handle428 uuid response).
Proof.
  unfold handle428, log_err.
  pose proof handle428_headers_plain as HH.
  silent_local; apply HH.
Qed.

Lemma repair_plain (status : Z) uuid response :
  silent is_plain
    (if status =? 409 then handle409 uuid response
     else if status =? 410 then handle410 uuid response
     else if status =? 428 then handle428 uuid response
     else mret None).
Proof.
  destruct (status =? 409); [apply handle409_plain|].
  destruct (status =? 410); [apply handle410_plain|].
  destruct (status =? 428); [apply handle428_plain | apply silent_mret].
Qed.

Lemma is_log_plain ob : is_log ob -> is_plain ob.
Proof. destruct ob as [X e x]. by destruct e. Qed.

Lemma Forall_log_plain tr : Forall is_log tr -> Forall is_plain tr.
Proof. intros H. eapply Forall_impl; [exact H | apply is_log_plain]. Qed.

(** *** Selections and requests of a trace *)

Lemma first_derive_plain t tr : Forall is_plain t -> first_derive (t ++ tr) = first_derive tr.
Proof.
  intros H. unfold first_derive. rewrite omap_app, (omap_all_none _ t); [done|].
  eapply Forall_impl; [exact H|]. by intros ob (? & ? & ?).
Qed.

Lemma first_derive_plain_r t tr : Forall is_plain t -> first_derive (tr ++ t) = first_derive tr.
Proof.
  intros H. unfold first_derive. rewrite omap_app, (omap_all_none _ t), app_nil_r; [done|].
  eapply Forall_impl; [exact H|]. by intros ob (? & ? & ?).
Qed.

Lemma selections_plain t tr : Forall is_plain t -> selections (t ++ tr) = selections tr.
Proof.
  induction 1 as [|ob t (Hl & _ & _) _ IH]; [done|]. simpl. by rewrite Hl.
Qed.

Lemma selections_plain_r t tr : Forall is_plain t -> selections (tr ++ t) = selections tr.
Proof.
  intros H. induction tr as [|ob tr IH]; simpl.
  - rewrite <- (app_nil_r t). by rewrite selections_plain.
  - by rewrite first_derive_plain_r, IH.
Qed.

Lemma requests_plain t tr : Forall is_plain t -> requests (t ++ tr) = requests tr.
Proof.
  intros H. unfold requests. rewrite omap_app, (omap_all_none _ t); [done|].
  eapply Forall_impl; [exact H|]. by intros ob (? & ? & ?).
Qed.

Lemma requests_plain_r t tr : Forall is_plain t -> requests (tr ++ t) = requests tr.
Proof.
  intros H. unfold requests. rewrite omap_app, (omap_all_none _ t), app_nil_r; [done|].
  eapply Forall_impl; [exact H|]. by intros ob (? & ? & ?).
Qed.

(** The selection at the head of an attempt is one selection of the
    trace, and makes no request. *)
Lemma selections_selector uuid pk e1 ak e2 l1 l2 tr :
  Forall is_log l1 -> Forall is_log l2 ->
  selections ((obs (ProfileKeyForSignalID uuid) (pk, e1) :: l1
               ++ obs (DeriveAccessKey pk) (ak, e2) :: l2) ++ tr)
  = ((pk, e1), (ak, e2)) :: selections tr.
Proof.
  intros Hl1 Hl2. apply Forall_log_plain in Hl1, Hl2.
  change (selections ((obs (ProfileKeyForSignalID uuid) (pk, e1) :: l1
                       ++ obs (DeriveAccessKey pk) (ak, e2) :: l2) ++ tr))
    with (match first_derive ((l1 ++ obs (DeriveAccessKey pk) (ak, e2) :: l2) ++ tr) with
          | Some derived =>
              ((pk, e1), derived)
              :: selections ((l1 ++ obs (DeriveAccessKey pk) (ak, e2) :: l2) ++ tr)
          | None => selections ((l1 ++ obs (DeriveAccessKey pk) (ak, e2) :: l2) ++ tr)
          end).
  rewrite <- !app_assoc, first_derive_plain by done.
  rewrite selections_plain by done.
  change (selections ((obs (DeriveAccessKey pk) (ak, e2) :: l2) ++ tr))
    with (selections (l2 ++ tr)).
  by rewrite selections_plain.
Qed.

Lemma requests_selector uuid pk e1 ak e2 l1 l2 tr :
  Forall is_log l1 -> Forall is_log l2 ->
  requests ((obs (ProfileKeyForSignalID uuid) (pk, e1) :: l1
             ++ obs (DeriveAccessKey pk) (ak, e2) :: l2) ++ tr)
  = requests tr.
Proof.
  intros Hl1 Hl2. apply Forall_log_plain in Hl1, Hl2.
  change (requests ((obs (ProfileKeyForSignalID uuid) (pk, e1) :: l1
                     ++ obs (DeriveAccessKey pk) (ak, e2) :: l2) ++ tr))
    with (requests ((l1 ++ obs (DeriveAccessKey pk) (ak, e2) :: l2) ++ tr)).
  rewrite <- !app_assoc, requests_plain by done.
  change (requests ((obs (DeriveAccessKey pk) (ak, e2) :: l2) ++ tr))
    with (requests (l2 ++ tr)).
  by rewrite requests_plain.
Qed.

(** The runs of [sendContent] after the response, as to selections and
    requests: either the attempt ends here, with nothing selected or
    requested any more, and reports its own flag or [false]; or the run
    continues with a run of the retry, whose outcome it returns. *)
Lemma sendContent_response_plain retry uuid sent response tr o :
  runs (sendContent_response retry uuid sent response) tr o ->
  (Forall is_plain tr /\ (forall b e, o = Returned (b, e) -> b = sent \/ b = false))
  \/ (exists tr1 tr2 tr3,
        tr = tr1 ++ tr2 ++ tr3 /\ Forall is_plain tr1 /\ Forall is_plain tr3
        /\ runs retry tr2 o).
Proof.
  unfold sendContent_response. intros H.
  destruct response as [response|]; [|destruct H as [-> ->]; left; by split].
  destruct (resp_Id response); [|destruct H as [-> ->]; left; by split].
  destruct (resp_Status response) as [status|];
    [|destruct H as [-> ->]; left; by split].
  destruct (needToRetry status).
  - apply runs_bind in H as [(tr1 & a & tr2 & H1 & H2 & ->)|(m & H1 & ->)].
    + assert (Hl1 : Forall is_plain tr1) by exact (repair_plain _ _ _ _ _ H1).
      destruct a as [e|].
      * destruct H2 as [-> ->]. left. rewrite app_nil_r. split; [done|].
        intros b e' [= <- _]. by right.
      * apply runs_bind in H2 as [(t1 & [s' err] & t2 & Hr & H2 & ->)|(m & Hr & ->)].
        -- right. exists tr1, t1, t2. split; [done|]. split; [done|].
           destruct err as [e|].
           ++ unfold log_err in H2. destruct H2 as ([] & t3 & -> & -> & ->).
              split; [|done]. repeat constructor.
           ++ destruct H2 as [-> ->]. split; [constructor | done].
        -- right. exists tr1, tr2, []. rewrite app_nil_r. by repeat split.
    + left. split; [|done]. exact (repair_plain _ _ _ _ _ H1).
  - destruct (negb (status =? 200)).
    + unfold log_err in H. destruct H as ([] & t3 & -> & -> & ->).
      left. split; [repeat constructor|]. intros b e [= <- _]. by left.
    + destruct H as [-> ->]. left. split; [constructor|].
      intros b e [= <- _]. by left.
Qed.

Lemma selection_sealed_spec pk e1 ak e2 :
  selection_sealed ((pk, e1), (ak, e2)) = true <-> e1 = None /\ pk <> None /\ e2 = None.
Proof.
  unfold selection_sealed. simpl.
  rewrite !andb_true_iff, !bool_decide_eq_true. tauto.
Qed.

(** One attempt of [sendContent] below the ceiling, step by step: the
    selection, the build of the envelopes in the mode selected, the
    request on the websocket of that mode, the response. *)
Lemma sendContent_attempt_steps hdrs uuid ts content rc tr o :
  rc <= 3 ->
  runs (sendContent hdrs uuid ts content rc) tr o ->
  exists pk e1 ak e2 l1 l2 tr_build built rest sealed,
    sealed = selection_sealed ((pk, e1), (ak, e2))
    /\ tr = (obs (ProfileKeyForSignalID uuid) (pk, e1) :: l1
          ++ obs (DeriveAccessKey pk) (ak, e2) :: l2) ++ tr_build ++ rest
    /\ Forall is_log l1 /\ Forall is_log l2
    /\ runs (buildMessagesToSend uuid content sealed) tr_build built
    /\ match built with
       | Panicked m => rest = [] /\ o = Panicked m
       | Returned (_, Some e) =>
           rest = [obs (zlog LevelErr (Some e) "Error building messages to send") tt]
           /\ o = Returned (false, Some e)
       | Returned (messages, None) =>
           (sealed = true /\ rest = [] /\ exists m, o = Panicked m)
           \/ exists req ch err rest',
                rest = obs (SendRequest (socket_of sealed) req) (ch, err) :: rest'
                /\ (sealed = false -> req = authed_request hdrs uuid ts messages)
                /\ match err with
                   | Some e => rest' = [] /\ o = Returned (sealed, Some e)
                   | None =>
                       exists response rest'',
                         rest' = obs (Receive ch) response :: rest''
                         /\ runs (sendContent_response
                                    (sendContent hdrs uuid ts content (rc + 1))
                                    uuid sealed response) rest'' o
                   end
       end.
Proof.
  intros Hrc Hrun.
  rewrite sendContent_unfold in Hrun. unfold sendContent_body in Hrun.
  destruct (Z.ltb_spec 3 rc); [lia|].
  apply runs_bind in Hrun as [(tr1 & [sealed ak'] & tr2 & H1 & H2 & ->)|(m & H1 & ->)];
    apply sealedSenderSelector_runs in H1
      as (pk & e1 & ak & e2 & l1 & l2 & sealed' & -> & Hl1 & Hl2 & Ho & Hs); [|done].
  injection Ho as -> ->.
  assert (sealed' = selection_sealed ((pk, e1), (ak, e2))) as Hsealed.
  { destruct sealed'.
    - symmetry. apply selection_sealed_spec. by apply Hs.
    - destruct (selection_sealed _) eqn:Hx; [|done].
      apply selection_sealed_spec in Hx. by apply Hs in Hx. }
  clear Hs. unfold sendContent_dispatch in H2.
  apply runs_bind in H2 as [(t1 & [messages err] & t2 & Hb & H2 & ->)|(m & Hb & ->)].
  2:{ exists pk, e1, ak, e2, l1, l2, tr2, (Panicked m), [], sealed'.
      rewrite app_nil_r. by repeat split. }
  exists pk, e1, ak, e2, l1, l2, t1, (Returned (messages, err)), t2, sealed'.
  split; [done|]. split; [done|]. split; [done|]. split; [done|]. split; [done|].
  destruct err as [e|].
  { unfold log_err in H2. by destruct H2 as ([] & t & -> & -> & ->). }
  simpl in H2.
  apply runs_bind in H2 as [(t3 & [ch err] & t4 & Hs' & H2 & ->)|(m & Hs' & ->)].
  - right.
    assert (Ht3 : exists req, t3 = [obs (SendRequest (socket_of sealed') req) (ch, err)]
                  /\ (sealed' = false -> req = authed_request hdrs uuid ts messages)).
    { destruct sealed'; [destruct ak|]; simpl in Hs'.
      - destruct Hs' as (x & t & -> & -> & [= ->]). by eexists.
      - by destruct Hs'.
      - destruct Hs' as (x & t & -> & -> & [= ->]). by eexists. }
    destruct Ht3 as (req & -> & Hreq).
    exists req, ch, err, t4. split; [done|]. split; [done|].
    destruct err as [e|].
    + by destruct H2 as [-> ->].
    + simpl in H2. destruct H2 as (r & t & -> & H2). by exists r, t.
  - left. destruct sealed'; [destruct ak|]; simpl in Hs'.
    + by destruct Hs' as (x & t & -> & ? & ?).
    + destruct Hs' as [-> _]. split; [done|]. split; [done|]. by eexists.
    + by destruct Hs' as (x & t & -> & ? & ?).
Qed.

Lemma selections_none t : Forall is_plain t -> selections t = [].
Proof. intros H. rewrite <- (app_nil_r t). by rewrite selections_plain. Qed.

Lemma requests_none t : Forall is_plain t -> requests t = [].
Proof. intros H. rewrite <- (app_nil_r t). by rewrite requests_plain. Qed.

Lemma requests_follow_none hdrs s o :
  (forall b e, o = Returned (b, e) -> b = true -> selection_sealed s = true) ->
  requests_follow hdrs [s] [] o.
Proof.
  intros Hflag. split.
  - exists [], [s]. simpl. repeat split; [lia | constructor].
  - intros b e Ho Hb. exists s. split; [done | by eapply Hflag].
Qed.

Lemma requests_follow_one hdrs s r o :
  request_follows hdrs s r ->
  (forall b e, o = Returned (b, e) -> b = true -> selection_sealed s = true) ->
  requests_follow hdrs [s] [r] o.
Proof.
  intros Hr Hflag. split.
  - exists [s], []. simpl. repeat split; [lia | by repeat constructor].
  - intros b e Ho Hb. exists s. split; [done | by eapply Hflag].
Qed.

Lemma requests_follow_cons hdrs s r sels reqs o :
  request_follows hdrs s r ->
  requests_follow hdrs sels reqs o ->
  requests_follow hdrs (s :: sels) (r :: reqs) o.
Proof.
  intros Hr [(made & unmade & -> & Hlen & Hall) Hflag]. split.
  - exists (s :: made), unmade. repeat split; [done | by constructor].
  - intros b e Ho Hb. destruct (Hflag _ _ Ho Hb) as (s' & Hlast & Hs').
    exists s'. split; [|done]. rewrite last_cons. by rewrite Hlast.
Qed.

Lemma request_follows_attempt hdrs uuid ts messages s req :
  (selection_sealed s = false -> req = authed_request hdrs uuid ts messages) ->
  request_follows hdrs s (socket_of (selection_sealed s), req).
Proof.
  unfold request_follows. destruct (selection_sealed s); simpl; [done|].
  intros Hreq. by rewrite Hreq.
Qed.

(** Every run of [sendContent], retried or not, follows its selections. *)
Lemma sendContent_selections hdrs uuid ts content :
  forall n rc tr o,
    Z.to_nat (4 - rc) = n ->
    runs (sendContent hdrs uuid ts content rc) tr o ->
    selections_respected hdrs tr o.
Proof.
  unfold selections_respected.
  induction n as [|n IH]; intros rc tr o Hn Hrun.
  - rewrite sendContent_exhausted in Hrun by lia.
    unfold retryExhausted, log_err in Hrun. simpl in Hrun.
    destruct Hrun as ([] & t & -> & -> & ->).
    split; [|by intros b e [= <- _]].
    exists [], []. simpl. repeat split; [lia | constructor].
  - assert (Hrc : rc <= 3) by lia.
    destruct (sendContent_attempt_steps _ _ _ _ _ _ _ Hrc Hrun)
      as (pk & e1 & ak & e2 & l1 & l2 & tb & built & rest & sealed
          & -> & -> & Hl1 & Hl2 & Hb & H).
    pose proof (buildMessagesToSend_plain _ _ _ _ _ Hb) as Hplain. simpl in Hplain.
    rewrite selections_selector, requests_selector, selections_plain, requests_plain
      by done.
    destruct built as [[messages [e|]]|m].
    + destruct H as [-> ->]. apply requests_follow_none. by intros b e' [= <- _].
    + destruct H as [(Hs & -> & m & ->)
                    |(req & ch & err & rest' & -> & Hreq & H)];
        [by apply requests_follow_none|].
      change (selections (obs (SendRequest (socket_of (selection_sealed (pk, e1, (ak, e2)))) req)
                            (ch, err) :: rest'))
        with (selections rest').
      change (requests (obs (SendRequest (socket_of (selection_sealed (pk, e1, (ak, e2)))) req)
                          (ch, err) :: rest'))
        with ((socket_of (selection_sealed (pk, e1, (ak, e2))), req) :: requests rest').
      pose proof (request_follows_attempt hdrs uuid ts messages _ req Hreq) as Hfollows.
      destruct err as [e|].
      * destruct H as [-> ->]. apply requests_follow_one; [done|].
        by intros b e' [= <- _] ->.
      * destruct H as (response & rest'' & -> & H).
        change (selections (obs (Receive ch) response :: rest'')) with (selections rest'').
        change (requests (obs (Receive ch) response :: rest'')) with (requests rest'').
        apply sendContent_response_plain in H
          as [[Hp Hflag]|(t1 & t2 & t3 & -> & Hp1 & Hp3 & Hretry)].
        -- rewrite selections_none, requests_none by done.
           apply requests_follow_one; [done|].
           intros b e Ho Hbt. destruct (Hflag _ _ Ho) as [<- | ->]; done.
        -- rewrite selections_plain, requests_plain, selections_plain_r, requests_plain_r
             by done.
           apply requests_follow_cons; [done|].
           apply (IH (rc + 1)); [lia | done].
    + destruct H as [-> ->]. by apply requests_follow_none.
Qed.

Lemma requests_follow_all_authed hdrs sels reqs o :
  requests_follow hdrs sels reqs o ->
  Forall (fun s => selection_sealed s = false) sels ->
  Forall (fun r => r.1 = AuthedWS /\ Headers r.2 = hdrs) reqs
  /\ forall b e, o = Returned (b, e) -> b = false.
Proof.
  intros [(made & unmade & -> & _ & Hall) Hflag] Hnone. split.
  - apply Forall_app in Hnone as [Hmade _]. clear Hflag.
    induction Hall as [|s r made reqs Hr _ IH]; [constructor|].
    apply Forall_cons in Hmade as [Hs Hmade].
    constructor; [|by apply IH].
    unfold request_follows in Hr. by rewrite Hs in Hr.
  - intros [|] e Ho; [|done].
    destruct (Hflag _ _ Ho eq_refl) as (s & Hlast & Hs).
    apply last_Some in Hlast as [l' Heq]. rewrite Heq in Hnone.
    apply Forall_app in Hnone as [_ [Hs' _]%Forall_cons]. congruence.
Qed.

(** C3 (amended): a selection that fails downgrades its attempt, not the
    whole send.  When the profile key lookup fails or finds no key, or
    the access key cannot be derived, the selection only logs and the
    attempt goes on in authenticated mode: the envelopes are built for
    it, the request is handed to the authenticated connection without the
    access key header, and the errors it can return are those of the
    build, of the websocket and of the response, never one of the
    selection.  A retry selects again: every request follows the
    selection of its own attempt, and the flag reported is that of the
    last attempt, so that [sealed = false] is reported, and every request
    is authenticated, when the selection fails in every attempt. *)
Theorem sendContent_selector_downgrade hdrs uuid ts content retryCount tr o :
  runs (sendContent hdrs uuid ts content retryCount) tr o ->
  downgraded_to_authenticated hdrs uuid ts content retryCount tr o.
Proof.
  intros Hrun.
  pose proof (sendContent_selections hdrs uuid ts content _ _ _ _ eq_refl Hrun) as Hsel.
  split; [|split; [exact Hsel | by apply requests_follow_all_authed]].
  intros Hfail. destruct (Z.ltb_spec 3 retryCount) as [Hgt|Hle].
  { exfalso. rewrite sendContent_exhausted in Hrun by done.
    destruct Hrun as ([] & tr' & -> & -> & ->).
    by destruct Hfail as [(? & ? & [=])|[(? & [=])|(? & ? & [=])]]. }
  destruct (sendContent_attempt_steps _ _ _ _ _ _ _ Hle Hrun)
    as (pk & e1 & ak & e2 & l1 & l2 & tb & built & rest & sealed
        & Hsealed & -> & Hl1 & Hl2 & Hb & H).
  assert (sealed = false) as ->.
  { subst sealed. destruct (selection_sealed _) eqn:Hx; [|done].
    apply selection_sealed_spec in Hx as (-> & Hpk & ->).
    unfold selector_failed in Hfail.
    rewrite first_derive_selector in Hfail by done.
    unfold first_lookup in Hfail. simpl in Hfail.
    destruct Hfail as [(? & ? & [=])|[(? & [= -> _])|(? & ? & [=])]]. done. }
  exists (obs (ProfileKeyForSignalID uuid) (pk, e1) :: l1
          ++ obs (DeriveAccessKey pk) (ak, e2) :: l2), tb, built, rest.
  split; [done|]. split.
  { constructor; [done|]. apply Forall_app.
    split; [eapply Forall_impl; [exact Hl1 | apply is_log_selector]|].
    constructor; [done|]. eapply Forall_impl; [exact Hl2 | apply is_log_selector]. }
  split; [done|].
  destruct built as [[messages [e|]]|m]; [done| |done].
  destruct H as [(? & _)|(req & ch & err & rest' & -> & Hreq & H)]; [done|].
  rewrite (Hreq eq_refl). by exists ch, err, rest'.
Qed.

Lemma sendContent_selector_downgrade_witness :
  runs (sendContent jsonHeaders "bob" 1700000000000 hi_content 0)
    run_unknown_twice.1.1 run_unknown_twice.1.2
  /\ selector_failed run_unknown_twice.1.1
  /\ length (selections run_unknown_twice.1.1) = 2%nat
  /\ (requests run_unknown_twice.1.1).*1 = [AuthedWS; AuthedWS]
  /\ run_unknown_twice.1.2 = Returned (false, None)
  /\ downgraded_to_authenticated jsonHeaders "bob" 1700000000000 hi_content 0
       run_unknown_twice.1.1 run_unknown_twice.1.2.
Proof.
  assert (Hfail : selector_failed run_unknown_twice.1.1).
  { left. exists None, (errors_New "profile key not found"). vm_compute. reflexivity. }
  assert (Hn : length (selections run_unknown_twice.1.1) = 2%nat)
    by (vm_compute; reflexivity).
  assert (Hreqs : (requests run_unknown_twice.1.1).*1 = [AuthedWS; AuthedWS])
    by (vm_compute; reflexivity).
  assert (Ho : run_unknown_twice.1.2 = Returned (false, None))
    by (vm_compute; reflexivity).
  pose proof (run_runs (scripted no_profile_key)
                (sendContent jsonHeaders "bob" 1700000000000 hi_content 0)
                [response_of 500 []; response_of 200 []]) as Hrun.
  split; [exact Hrun|]. split; [exact Hfail|]. split; [exact Hn|].
  split; [exact Hreqs|]. split; [exact Ho|].
  exact (sendContent_selector_downgrade jsonHeaders "bob" 1700000000000 hi_content 0
           _ _ Hrun).
Defined.

(** A retried send on which the wording of C3 in the spec fails: the
    lookup fails for the first attempt, whose request goes over the authenticated
    connection and is answered 500; the retry selects again, the lookup
    succeeds, the second request goes over the unauthenticated connection
    with the access key header, and the send reports [sealed = true]. *)
Lemma sendContent_sealed_after_failed_lookup :
  runs (sendContent jsonHeaders "bob" 1700000000000 hi_content 0)
    run_flaky.1.1 run_flaky.1.2
  /\ selector_failed run_flaky.1.1
  /\ run_flaky.1.2 = Returned (true, None)
  /\ (requests run_flaky.1.1).*1 = [AuthedWS; UnauthedWS]
  /\ (Headers <$> (requests run_flaky.1.1).*2)
     = [jsonHeaders;
        jsonHeaders ++ ["unidentified-access-key:"
                        +:+ base64_EncodeToString (replicate 16 Byte.x02)]].
Proof.
  assert (Hfail : selector_failed run_flaky.1.1).
  { left. exists None, (errors_New "profile key not found"). vm_compute. reflexivity. }
  assert (Ho : run_flaky.1.2 = Returned (true, None)) by (vm_compute; reflexivity).
  assert (Hreqs : (requests run_flaky.1.1).*1 = [AuthedWS; UnauthedWS])
    by (vm_compute; reflexivity).
  assert (Hh : (Headers <$> (requests run_flaky.1.1).*2)
               = [jsonHeaders;
                  jsonHeaders ++ ["unidentified-access-key:"
                                  +:+ base64_EncodeToString (replicate 16 Byte.x02)]])
    by (vm_compute; reflexivity).
  pose proof (run_runs (flaky happy)
                (sendContent jsonHeaders "bob" 1700000000000 hi_content 0)
                [response_of 500 []; response_of 200 []]) as Hrun.
  split; [exact Hrun|]. split; [exact Hfail|]. split; [exact Ho|].
  split; [exact Hreqs | exact Hh].
Qed.

(** ** Cipher failures during envelope construction *)

(** C4 (the code departs from it): a cipher failure during envelope
    construction should fail the send.  [buildAuthedMessageToSend] does
    return the error, for an unknown ciphertext kind as for a failed
    serialization, but [buildMessagesToSend] assigns it to [err] and
    overwrites [err] with the result of [GetRemoteRegistrationID] before
    reading it: the envelope is assembled with type 0 and no content, the
    build reports no error, and [sendContent] dispatches the envelope and
    reports success. *)
Theorem cipher_failure_is_dropped :
  outcome_under unknown_kind
    (buildAuthedMessageToSend (mkAddress "bob" 1) hello) []
  = Returned (0, None, Some (errors_New "Unknown message type: 7"))
  /\ outcome_under unknown_kind (buildMessagesToSend "bob" hi_content false) []
     = Returned (Some [empty_envelope], None)
  /\ outcome_under unknown_kind
       (sendContent jsonHeaders "bob" 1700000000000 hi_content 0) []
     = Returned (false, None)
  /\ count_obs is_dispatch
       (trace_under unknown_kind
          (sendContent jsonHeaders "bob" 1700000000000 hi_content 0) []) = 1%nat
  /\ outcome_under serialize_fails
       (buildAuthedMessageToSend (mkAddress "bob" 1) hello) []
     = Returned (0, None, Some (errors_New "serialization failed"))
  /\ outcome_under serialize_fails (buildMessagesToSend "bob" hi_content false) []
     = Returned (Some [empty_envelope], None)
  /\ outcome_under serialize_fails
       (sendContent jsonHeaders "bob" 1700000000000 hi_content 0) []
     = Returned (false, None).
Proof. repeat split; vm_compute; reflexivity. Qed.

(** ** Repairs after a 409 and a 410 *)

Lemma after_first_receive_none tr :
  Forall (fun ob => is_receive ob = false) tr -> after_first_receive tr = None.
Proof.
  induction 1 as [|ob tr Hob _ IH]; simpl; [done|].
  destruct ob as [X e x]. by destruct e.
Qed.

Lemma after_first_receive_app tr1 ch r tr2 :
  Forall (fun ob => is_receive ob = false) tr1 ->
  after_first_receive (tr1 ++ obs (Receive ch) r :: tr2) = Some (r, tr2).
Proof.
  induction 1 as [|ob tr Hob _ IH]; simpl; [done|].
  destruct ob as [X e x]. by destruct e.
Qed.

Lemma Forall_local_no_receive tr :
  Forall is_local tr -> Forall (fun ob => is_receive ob = false) tr.
Proof. intros H. eapply Forall_impl; [exact H|]. by intros ob (? & ? & ?). Qed.

Lemma is_log_no_receive tr :
  Forall is_log tr -> Forall (fun ob => is_receive ob = false) tr.
Proof.
  intros H. eapply Forall_impl; [exact H|]. intros [X e x]. by destruct e.
Qed.

(** In a run of [sendContent] below the ceiling, what follows the first
    response is a run of [sendContent_response] with the send one level
    deeper as the retry. *)
Lemma sendContent_first_response hdrs uuid ts content rc tr o response rest :
  rc <= 3 ->
  runs (sendContent hdrs uuid ts content rc) tr o ->
  after_first_receive tr = Some (response, rest) ->
  exists sealed,
    runs (sendContent_response (sendContent hdrs uuid ts content (rc + 1))
            uuid sealed response) rest o.
Proof.
  intros Hrc Hrun Hafter.
  rewrite sendContent_unfold in Hrun. unfold sendContent_body in Hrun.
  destruct (Z.ltb_spec 3 rc); [lia|].
  apply runs_bind in Hrun as [(tr1 & [sealed ak'] & tr2 & H1 & H2 & ->)|(m & H1 & ->)];
    apply sealedSenderSelector_runs in H1
      as (pk & e1 & ak & e2 & l1 & l2 & sealed' & -> & Hl1 & Hl2 & Ho & Hs); [|done].
  injection Ho as -> ->.
  assert (Hsel : Forall (fun ob => is_receive ob = false)
            (obs (ProfileKeyForSignalID uuid) (pk, e1) :: l1
             ++ obs (DeriveAccessKey pk) (ak, e2) :: l2)).
  { constructor; [done|]. apply Forall_app. split; [by apply is_log_no_receive|].
    constructor; [done|]. by apply is_log_no_receive. }
  exists sealed'. unfold sendContent_dispatch in H2.
  apply runs_bind in H2 as [(t1 & [messages err] & t2 & Hb & H2 & ->)|(m & Hb & ->)].
  2:{ pose proof (buildMessagesToSend_local _ _ _ _ _ Hb) as Hl. simpl in Hl.
      rewrite after_first_receive_none in Hafter; [done|].
      apply Forall_app. split; [done | by apply Forall_local_no_receive]. }
  pose proof (buildMessagesToSend_local _ _ _ _ _ Hb) as Hl. simpl in Hl.
  apply Forall_local_no_receive in Hl.
  destruct err as [e|].
  { unfold log_err in H2. destruct H2 as ([] & t & -> & -> & ->).
    rewrite after_first_receive_none in Hafter; [done|].
    repeat (apply Forall_app; split); try done. by repeat constructor. }
  simpl in H2.
  apply runs_bind in H2 as [(t3 & [ch err] & t4 & Hs' & H2 & ->)|(m & Hs' & ->)].
  - assert (Ht3 : Forall (fun ob => is_receive ob = false) t3).
    { destruct sealed'; [destruct ak|]; simpl in Hs'.
      - destruct Hs' as (x & t & -> & -> & _). by repeat constructor.
      - by destruct Hs'.
      - destruct Hs' as (x & t & -> & -> & _). by repeat constructor. }
    destruct err as [e|].
    + destruct H2 as [-> ->].
      rewrite after_first_receive_none in Hafter; [done|].
      repeat (apply Forall_app; split); try done.
    + simpl in H2. destruct H2 as (r & t & -> & H2).
      rewrite !app_assoc in Hafter.
      rewrite after_first_receive_app in Hafter
        by (repeat (apply Forall_app; split); done).
      by injection Hafter as <- <-.
  - assert (Ht3 : Forall (fun ob => is_receive ob = false) t2).
    { destruct sealed'; [destruct ak|]; simpl in Hs'.
      - by destruct Hs' as (x & t & -> & ? & ?).
      - by destruct Hs' as [-> _].
      - by destruct Hs' as (x & t & -> & ? & ?). }
    rewrite after_first_receive_none in Hafter; [done|].
    repeat (apply Forall_app; split); try done.
Qed.



Lemma repair_failed_app_l e tr1 tr2 : repair_failed e tr1 -> repair_failed e (tr1 ++ tr2).
Proof. unfold repair_failed. rewrite Exists_app. by left. Qed.

Lemma repair_failed_app_r e tr1 tr2 : repair_failed e tr2 -> repair_failed e (tr1 ++ tr2).
Proof. unfold repair_failed. rewrite Exists_app. by right. Qed.





Lemma sendContent_response_retrying retry uuid sealed response id status rest o :
  resp_Id response = Some id -> resp_Status response = Some status ->
  needToRetry status = true ->
  runs (sendContent_response retry uuid sealed (Some response)) rest o ->
  (exists e, runs (repair_for status uuid response) rest (Returned (Some e))
             /\ o = Returned (false, Some e))
  \/ (exists t1 tr_retry tr_log,
        rest = t1 ++ tr_retry ++ tr_log
        /\ runs (repair_for status uuid response) t1 (Returned None)
        /\ Forall is_log tr_log
        /\ runs retry tr_retry o)
  \/ (exists m, runs (repair_for status uuid response) rest (Panicked m)).
Proof.
  intros Hid Hst Hretry H. unfold sendContent_response in H.
  rewrite Hid, Hst, Hretry in H. fold (repair_for status uuid response) in H.
  apply runs_bind in H as [(t1 & a & t2 & H1 & H2 & ->)|(m & H1 & ->)].
  - destruct a as [e|].
    + destruct H2 as [-> ->]. left. exists e. by rewrite app_nil_r.
    + right. left.
      apply runs_bind in H2 as [(tr & [s' err] & tl & Hr & H2 & ->)|(m & Hr & ->)].
      * exists t1, tr, tl. split; [done|]. split; [done|].
        destruct err as [e|].
        -- unfold log_err in H2. destruct H2 as ([] & t3 & -> & -> & ->).
           split; [by repeat constructor | done].
        -- destruct H2 as [-> ->]. by split.
      * exists t1, t2, []. rewrite app_nil_r. by repeat split.
  - right. right. by exists m.
Qed.











(** ** Envelope builder *)

#[local] Arguments addPadding : simpl never.

Lemma buildAuthedMessageToSend_returns a p tr o :
  runs (buildAuthedMessageToSend a p) tr o ->
  Forall (fun ob => step_error ob = None) tr /\ exists r, o = Returned r.
Proof.
  unfold buildAuthedMessageToSend. simpl.
  intros ([m e1] & t1 & -> & [payload [e|]] & t2 & -> & H); simpl in H.
  - destruct H as [-> ->]. split; [by repeat constructor | by eexists].
  - destruct H as ([k e3] & t3 & -> & H). simpl in H.
    repeat case_match; destruct H as [-> ->];
      (split; [by repeat constructor | by eexists]).
Qed.

Lemma buildSSMessageToSend_returns a p tr o :
  runs (buildSSMessageToSend a p) tr o ->
  Forall (fun ob => step_error ob = None) tr /\ exists r, o = Returned r.
Proof.
  unfold buildSSMessageToSend. simpl.
  intros ([cert [e|]] & t1 & -> & H); simpl in H.
  - destruct H as [-> ->]. split; [by repeat constructor | by eexists].
  - destruct H as ([payload e2] & t2 & -> & -> & ->).
    split; [by repeat constructor | by eexists].
Qed.

Lemma plaintexts_fit_app tr1 tr2 :
  plaintexts_fit (tr1 ++ tr2) <-> plaintexts_fit tr1 /\ plaintexts_fit tr2.
Proof. unfold plaintexts_fit. apply Forall_app. Qed.

Lemma buildMessagesToSend_loop_runs content unauth srs addresses :
  forall i messages tr o,
    runs (buildMessagesToSend_loop content unauth srs i addresses messages) tr o ->
    (i + length addresses <= length srs)%nat ->
    plaintexts_fit tr ->
    (Forall (fun ob => step_error ob = None) tr
     /\ exists new,
          o = Returned (Some (messages ++ new), None)
          /\ DestinationDeviceID <$> new
             = (fun a => GoInt.of_uint (addr_device a)) <$> addresses)
    \/ (exists e, Exists (fun ob => step_error ob = Some e) tr
                  /\ o = Returned (None, Some e)).
Proof.
  induction addresses as [|a rest IH]; intros i messages tr o H Hi Hfit; simpl in H.
  - destruct H as [-> ->]. left. split; [constructor|].
    exists []. by rewrite app_nil_r.
  - destruct H as ([e|] & t1 & -> & H); simpl in H.
    { destruct H as [-> ->]. right. exists e. split; [by left | done]. }
    destruct H as ([b [e|]] & t2 & -> & H); simpl in H.
    { destruct H as [-> ->]. right. exists e. split; [right; by left | done]. }
    apply Forall_cons in Hfit as [_ Hfit]. apply Forall_cons in Hfit as [Hb Hfit].
    simpl in Hb.
    destruct (addPadding_v3 3 b ltac:(lia) Hb)
      as (_ & _ & _ & _ & _ & out & _ & Hpad & _).
    rewrite Hpad in H. simpl in H.
    destruct (lookup_lt_is_Some_2 srs i) as [sr Hsr]; [simpl in Hi; lia|].
    rewrite Hsr in H.
    apply runs_bind in H as [(t3 & [[ty payload] e3] & t4 & Hb3 & H & ->)|(m & Hb3 & ->)].
    2:{ exfalso. destruct unauth.
        - by apply buildSSMessageToSend_returns in Hb3 as [_ [r ?]].
        - by apply buildAuthedMessageToSend_returns in Hb3 as [_ [r ?]]. }
    assert (Hok3 : Forall (fun ob => step_error ob = None) t3).
    { destruct unauth.
      - by apply buildSSMessageToSend_returns in Hb3 as [? _].
      - by apply buildAuthedMessageToSend_returns in Hb3 as [? _]. }
    apply plaintexts_fit_app in Hfit as [_ Hfit].
    simpl in H. destruct H as ([reg [e|]] & t5 & -> & H); simpl in H.
    { destruct H as [-> ->]. right. exists e. split; [|done].
      do 2 right. apply Exists_app. right. by left. }
    apply Forall_cons in Hfit as [_ Hfit].
    destruct (IH _ _ _ _ H ltac:(simpl in Hi; lia) Hfit)
      as [[Hok (new & -> & Hdev)]|(e & Hex & ->)].
    + left. split.
      * repeat (constructor; [done|]). apply Forall_app. split; [done|].
        by constructor.
      * eexists (_ :: new). rewrite <- app_assoc. split; [reflexivity|].
        rewrite !fmap_cons, Hdev. reflexivity.
    + right. exists e. split; [|done].
      do 2 right. apply Exists_app. right. by right.
Qed.

Lemma of_uint_inj a b :
  uint_range a -> uint_range b -> GoInt.of_uint a = GoInt.of_uint b -> a = b.
Proof.
  unfold uint_range, GoInt.of_uint, GoInt.wrap. intros Ha Hb H.
  assert (Hm : (a + 2 ^ 63) mod 2 ^ 64 = (b + 2 ^ 63) mod 2 ^ 64) by lia.
  destruct (Z.lt_ge_cases a (2 ^ 63)), (Z.lt_ge_cases b (2 ^ 63)).
  - rewrite !Z.mod_small in Hm by lia. lia.
  - rewrite (Z.mod_small (a + 2 ^ 63)) in Hm by lia.
    replace (b + 2 ^ 63) with (b - 2 ^ 63 + 1 * 2 ^ 64) in Hm by lia.
    rewrite Z.mod_add, Z.mod_small in Hm by lia. lia.
  - rewrite (Z.mod_small (b + 2 ^ 63)) in Hm by lia.
    replace (a + 2 ^ 63) with (a - 2 ^ 63 + 1 * 2 ^ 64) in Hm by lia.
    rewrite Z.mod_add, Z.mod_small in Hm by lia. lia.
  - replace (a + 2 ^ 63) with (a - 2 ^ 63 + 1 * 2 ^ 64) in Hm by lia.
    replace (b + 2 ^ 63) with (b - 2 ^ 63 + 1 * 2 ^ 64) in Hm by lia.
    rewrite !Z.mod_add, !Z.mod_small in Hm by lia. lia.
Qed.

Lemma one_envelope_per_device_intro (addresses : list Address) (messages : list MyMessage) :
  DestinationDeviceID <$> messages
  = (fun a => GoInt.of_uint (addr_device a)) <$> addresses ->
  one_envelope_per_device addresses messages.
Proof.
  intros Hdev. unfold one_envelope_per_device. split; [|split; [done|]].
  - apply (f_equal length) in Hdev. by rewrite !length_fmap in Hdev.
  - intros Hnd Hrange. rewrite Hdev.
    rewrite (list_fmap_compose addr_device GoInt.of_uint).
    apply NoDup_fmap_2_strong; [|done].
    intros x y Hx Hy. apply list_elem_of_fmap in Hx as (ax & -> & Hax).
    apply list_elem_of_fmap in Hy as (ay & -> & Hay).
    rewrite Forall_forall in Hrange. apply of_uint_inj; by apply Hrange.
Qed.

Lemma checkForErrorWithSessions_ok (a : list Address) (s : list SessionRecord) :
  a <> [] -> length a = length s ->
  checkForErrorWithSessions None (Some a) (Some s) = None.
Proof.
  intros Ha Hlen. unfold checkForErrorWithSessions, len. rewrite Hlen.
  rewrite Z.eqb_refl. simpl.
  assert (length s <> 0%nat) by (destruct a; [done | simpl in Hlen; lia]).
  by destruct (Z.eqb_spec (Z.of_nat (length s)) 0); [lia|].
Qed.

Lemma checkForErrorWithSessions_bad addresses sessionRecords :
  addresses = None \/ sessionRecords = None
  \/ slice_len addresses = 0 \/ slice_len sessionRecords = 0
  \/ slice_len addresses <> slice_len sessionRecords ->
  exists e, checkForErrorWithSessions None addresses sessionRecords = Some e.
Proof.
  unfold checkForErrorWithSessions, slice_len.
  destruct addresses as [a|], sessionRecords as [s|]; simpl; try by eexists.
  intros [?|[?|[H|[H|H]]]]; try done.
  - rewrite H. destruct (0 =? len s); simpl; eauto.
  - rewrite H. destruct (len a =? 0) eqn:E; simpl; eauto.
  - destruct (Z.eqb_spec (len a) (len s)); [done|]. simpl. eauto.
Qed.

Lemma buildMessagesToSend_loop_no_lookup content unauth srs addresses :
  forall i messages,
    silent (fun ob => sessions_of ob = None)
      (buildMessagesToSend_loop content unauth srs i addresses messages).
Proof.
  induction addresses as [|a rest IH]; intros i messages; simpl.
  - silent_local.
  - unfold buildAuthedMessageToSend, buildSSMessageToSend. silent_local; apply IH.
Qed.

Lemma resolved_app_none tr1 tr2 :
  Forall (fun ob => sessions_of ob = None) tr2 -> resolved (tr1 ++ tr2) = resolved tr1.
Proof.
  intros H. unfold resolved. by rewrite omap_app, (omap_all_none _ tr2), app_nil_r.
Qed.

(** C7: sending to [N] resolved addresses with [N] session records
    produces exactly [N] envelopes, one per pair, each for the device of
    its address, distinct when the devices are; if a list is missing or
    empty or the lengths differ, the build fails with the session
    resolution error and builds no envelope.  (A step of the loop that
    reports an error ends the build with an error and no envelope.)  The
    serialized message is taken to have a length a Go slice can have. *)
Theorem buildMessagesToSend_envelopes uuid content unauth tr o addresses sessionRecords :
  runs (buildMessagesToSend uuid content unauth) tr o ->
  resolved tr = Some (addresses, sessionRecords, None) ->
  plaintexts_fit tr ->
  envelopes_built addresses sessionRecords tr o.
Proof.
  unfold buildMessagesToSend. intros H Hres Hfit. simpl in H.
  destruct H as ([[a1 s1] e1] & t & -> & H).
  apply runs_bind in H as [(t1 & [[a s] err] & t2 & H1 & H2 & ->)|(m & H1 & ->)].
  2:{ exfalso. destruct (_ && _); simpl in H1.
      - by destruct H1 as (x & t1 & -> & y & t2 & -> & _ & ?).
      - by destruct H1 as [_ ?]. }
  assert (Hpre : resolved (obs (AllSessionsForUUID uuid) (a1, s1, e1) :: t1)
                 = Some (a, s, err)
                 /\ Forall (fun ob => is_device_step ob = false)
                      (obs (AllSessionsForUUID uuid) (a1, s1, e1) :: t1)
                 /\ Forall (fun ob => step_error ob = None)
                      (obs (AllSessionsForUUID uuid) (a1, s1, e1) :: t1)).
  { destruct (_ && _); simpl in H1.
    - destruct H1 as (x & t1' & -> & y & t2' & -> & -> & [= ->]).
      split; [done|]. split; by repeat constructor.
    - destruct H1 as [-> [= -> -> ->]]. split; [done|]. split; by repeat constructor. }
  destruct Hpre as (Hlast & Hnostep & Hnoerr).
  assert (Hnl : Forall (fun ob => sessions_of ob = None) t2).
  { destruct (checkForErrorWithSessions err a s).
    - destruct H2 as [-> _]. constructor.
    - exact (buildMessagesToSend_loop_no_lookup _ _ _ _ _ _ _ _ H2). }
  rewrite app_comm_cons, resolved_app_none in Hres by done.
  rewrite Hlast in Hres. injection Hres as -> -> ->.
  rewrite app_comm_cons in Hfit. apply plaintexts_fit_app in Hfit as [_ Hfit].
  split.
  - intros al sl -> -> Hne Hlen.
    rewrite checkForErrorWithSessions_ok in H2 by done. simpl in H2.
    destruct (buildMessagesToSend_loop_runs _ _ _ _ _ _ _ _ H2
                ltac:(simpl; lia) Hfit)
      as [[Hok (new & -> & Hdev)]|(e & Hex & ->)].
    + split; [|split].
      * intros _. exists new. split; [done|]. by apply one_envelope_per_device_intro.
      * intros e He. exfalso. rewrite app_comm_cons in He.
        apply Exists_app in He as [He|He].
        -- apply Exists_exists in He as (ob & Hin & Hob).
           rewrite Forall_forall in Hnoerr. by rewrite (Hnoerr ob Hin) in Hob.
        -- apply Exists_exists in He as (ob & Hin & Hob).
           rewrite Forall_forall in Hok. by rewrite (Hok ob Hin) in Hob.
      * intros messages e [= <- <-]. split; [done|].
        by apply one_envelope_per_device_intro.
    + split; [|split].
      * intros Hall. exfalso. rewrite app_comm_cons in Hall.
        apply Forall_app in Hall as [_ Hall].
        apply Exists_exists in Hex as (ob & Hin & Hob).
        rewrite Forall_forall in Hall. by rewrite (Hall ob Hin) in Hob.
      * intros _ _. by exists e.
      * by intros messages e' [=].
  - intros Hbad. destruct (checkForErrorWithSessions_bad _ _ Hbad) as [e He].
    rewrite He in H2. destruct H2 as [-> ->].
    exists e. rewrite app_nil_r. by repeat split.
Qed.

Lemma buildMessagesToSend_envelopes_witness :
  runs (buildMessagesToSend "bob" hi_content false) build_two.1.1 build_two.1.2
  /\ resolved build_two.1.1
     = Some (Some [mkAddress "bob" 1; mkAddress "bob" 2],
             Some [SessionRecord_ptr 4711; SessionRecord_ptr 4712], None)
  /\ plaintexts_fit build_two.1.1
  /\ length (default [] (default (None, None) (match build_two.1.2 with
                                                | Returned r => Some r
                                                | Panicked _ => None
                                                end)).1) = 2%nat
  /\ envelopes_built (Some [mkAddress "bob" 1; mkAddress "bob" 2])
       (Some [SessionRecord_ptr 4711; SessionRecord_ptr 4712])
       build_two.1.1 build_two.1.2.
Proof.
  assert (Hres : resolved build_two.1.1
     = Some (Some [mkAddress "bob" 1; mkAddress "bob" 2],
             Some [SessionRecord_ptr 4711; SessionRecord_ptr 4712], None))
    by (vm_compute; reflexivity).
  assert (Htr : exists tr, build_two.1.1 = tr /\ plaintexts_fit tr).
  { eexists. split; [vm_compute; reflexivity|]. repeat constructor. }
  destruct Htr as (tr & Htr & Hfit). rewrite <- Htr in Hfit.
  pose proof (run_runs (scripted two_devices)
                (buildMessagesToSend "bob" hi_content false) []) as Hrun.
  split; [exact Hrun|]. split; [exact Hres|]. split; [exact Hfit|].
  split; [vm_compute; reflexivity|].
  exact (buildMessagesToSend_envelopes "bob" hi_content false _ _ _ _ Hrun Hres Hfit).
Defined.

(** *** The copy for the sender's other devices *)

Lemma howManyOtherDevices_loop_returns d addresses :
  forall n tr o, runs (howManyOtherDevices_loop d addresses n) tr o ->
                 exists m, o = Returned m.
Proof.
  induction addresses as [|a rest IH]; intros n tr o H; simpl in H.
  - destruct H as [_ ->]. by eexists.
  - destruct H as (err & t & -> & H). destruct err as [e|].
    + simpl in H. destruct H as ([] & t' & -> & H). eauto.
    + destruct (negb _); eauto.
Qed.

Lemma howManyOtherDevicesDoWeHave_returns d tr o :
  runs (howManyOtherDevicesDoWeHave d) tr o -> exists m, o = Returned m.
Proof.
  unfold howManyOtherDevicesDoWeHave. simpl.
  intros ([[a s] err] & t & -> & H). destruct err as [e|].
  - destruct H as [_ ->]. by eexists.
  - by eapply howManyOtherDevices_loop_returns.
Qed.

Lemma sync_swallowed_cons {R} hdrs device ts syncContent msg (result : R) ob tr o :
  is_local ob ->
  sync_swallowed hdrs device ts syncContent msg result tr o ->
  sync_swallowed hdrs device ts syncContent msg result (ob :: tr) o.
Proof.
  intros Hob (pre & Hpre & H). exists (ob :: pre). split; [by constructor|].
  destruct H as [[-> ->]|(tr3 & o3 & Hr & H)]; [by left|].
  right. exists tr3, o3. split; [done|].
  destruct o3 as [[x [e|]]|m]; destruct H as [-> ->]; done.
Qed.

Lemma sync_tail_runs {R} hdrs device ts syncContent msg (result : R) tr o :
  runs (otherDevices ← howManyOtherDevicesDoWeHave device;
        (if 0 <? otherDevices then
           '(_, selfSendErr) ← sendContent hdrs (AciUuid device) ts syncContent 0;
           match selfSendErr with
           | Some e => log_err (Some e) msg
           | None => mret tt
           end
         else mret tt);;
        mret result) tr o ->
  sync_swallowed hdrs device ts syncContent msg result tr o.
Proof.
  intros H.
  apply runs_bind in H as [(pre & n & t2 & Hpre & H & ->)|(m & Hpre & ->)].
  2:{ by apply howManyOtherDevicesDoWeHave_returns in Hpre as [? ?]. }
  exists pre. split; [exact (howManyOtherDevicesDoWeHave_local device _ _ Hpre)|].
  apply runs_bind in H as [(t3 & [] & t4 & H & [-> ->] & ->)|(m & H & ->)].
  - rewrite app_nil_r. destruct (0 <? n).
    + right.
      apply runs_bind in H as [(t5 & [x err] & t6 & H5 & H6 & ->)|(m & H5 & [=])].
      exists t5, (Returned (x, err)). split; [done|].
      destruct err as [e|].
      * simpl in H6. destruct H6 as ([] & ? & -> & -> & _). done.
      * destruct H6 as [-> _]. by rewrite app_nil_r.
    + left. destruct H as [-> _]. by rewrite app_nil_r.
  - destruct (0 <? n); [|by destruct H].
    right.
    apply runs_bind in H as [(t5 & [x err] & t6 & H5 & H6 & ->)|(m' & H5 & [= <-])].
    + exfalso. destruct err as [e|].
      * simpl in H6. by destruct H6 as ([] & ? & _ & _ & ?).
      * by destruct H6.
    + by exists t2, (Panicked m).
Qed.

(** ** One attempt of a send *)

Lemma is_quiet_local ob : is_local ob -> is_quiet ob.
Proof. by intros (? & ? & ?). Qed.

Lemma is_quiet_log ob : is_log ob -> is_quiet ob.
Proof. destruct ob as [X e x]. by destruct e. Qed.

Lemma Forall_quiet_local tr : Forall is_local tr -> Forall is_quiet tr.
Proof. intros H. eapply Forall_impl; [exact H | apply is_quiet_local]. Qed.

Lemma Forall_quiet_log tr : Forall is_log tr -> Forall is_quiet tr.
Proof. intros H. eapply Forall_impl; [exact H | apply is_quiet_log]. Qed.

Lemma Forall_quiet_no_receive tr :
  Forall is_quiet tr -> Forall (fun ob => is_receive ob = false) tr.
Proof. intros H. eapply Forall_impl; [exact H|]. by intros ob [? ?]. Qed.

Lemma omap_quiet_dispatch tr : Forall is_quiet tr -> omap dispatch_of tr = [].
Proof.
  intros H. apply omap_all_none. eapply Forall_impl; [exact H|].
  intros [X e x] [Hd _]. by destruct e.
Qed.

Lemma omap_quiet_answer tr : Forall is_quiet tr -> omap answer_of tr = [].
Proof.
  intros H. apply omap_all_none. eapply Forall_impl; [exact H|].
  intros [X e x] [Hd _]. by destruct e.
Qed.

Lemma count_dispatch_quiet tr : Forall is_quiet tr -> count_obs is_dispatch tr = 0%nat.
Proof.
  intros H. apply count_obs_none. eapply Forall_impl; [exact H|]. by intros ob [? ?].
Qed.

(** A run of [sendContent] below the ceiling, up to its first response:
    steps that touch no websocket, and then either nothing (the attempt
    gave up before the request), or a request that the websocket refused,
    or a request, its response and a run of [sendContent_response]. *)
Lemma sendContent_attempt hdrs uuid ts content rc tr o :
  rc <= 3 ->
  runs (sendContent hdrs uuid ts content rc) tr o ->
  exists pre, Forall is_quiet pre
    /\ ((tr = pre /\ forall b e, o = Returned (b, e) -> b = false /\ e <> None)
        \/ (exists ws req ch e,
              tr = pre ++ [obs (SendRequest ws req) (ch, Some e)]
              /\ o = Returned (sealed_of ws, Some e))
        \/ (exists ws req ch response rest,
              tr = pre ++ obs (SendRequest ws req) (ch, None)
                     :: obs (Receive ch) response :: rest
              /\ runs (sendContent_response (sendContent hdrs uuid ts content (rc + 1))
                         uuid (sealed_of ws) response) rest o)).
Proof.
  intros Hrc Hrun.
  rewrite sendContent_unfold in Hrun. unfold sendContent_body in Hrun.
  destruct (Z.ltb_spec 3 rc); [lia|].
  apply runs_bind in Hrun as [(tr1 & [sealed ak'] & tr2 & H1 & H2 & ->)|(m & H1 & ->)];
    apply sealedSenderSelector_runs in H1
      as (pk & e1 & ak & e2 & l1 & l2 & sealed' & -> & Hl1 & Hl2 & Ho & Hs); [|done].
  injection Ho as -> ->.
  assert (Hsel : Forall is_quiet
            (obs (ProfileKeyForSignalID uuid) (pk, e1) :: l1
             ++ obs (DeriveAccessKey pk) (ak, e2) :: l2)).
  { constructor; [done|]. apply Forall_app. split; [by apply Forall_quiet_log|].
    constructor; [done|]. by apply Forall_quiet_log. }
  set (sel := obs (ProfileKeyForSignalID uuid) (pk, e1) :: l1
              ++ obs (DeriveAccessKey pk) (ak, e2) :: l2) in *.
  clearbody sel.
  unfold sendContent_dispatch in H2.
  apply runs_bind in H2 as [(t1 & [messages err] & t2 & Hb & H2 & ->)|(m & Hb & ->)].
  2:{ pose proof (buildMessagesToSend_local _ _ _ _ _ Hb) as Hl. simpl in Hl.
      exists (sel ++ tr2). split; [|left; split; [reflexivity|done]].
      apply Forall_app. split; [done | by apply Forall_quiet_local]. }
  pose proof (buildMessagesToSend_local _ _ _ _ _ Hb) as Hl. simpl in Hl.
  apply Forall_quiet_local in Hl.
  destruct err as [e|].
  { unfold log_err in H2. destruct H2 as ([] & t & -> & -> & ->).
    eexists. split; [|left; split; [reflexivity|]].
    - repeat (apply Forall_app; split); try done. by repeat constructor.
    - by intros b e' [= <- <-]. }
  simpl in H2.
  apply runs_bind in H2 as [(t3 & [ch err] & t4 & Hs' & H2 & ->)|(m & Hs' & ->)].
  - assert (Ht3 : exists ws req, t3 = [obs (SendRequest ws req) (ch, err)]
                                 /\ sealed_of ws = sealed').
    { destruct sealed'; [destruct ak|]; simpl in Hs'.
      - destruct Hs' as (x & t & -> & -> & [= ->]). by eexists UnauthedWS, _.
      - by destruct Hs'.
      - destruct Hs' as (x & t & -> & -> & [= ->]). by eexists AuthedWS, _. }
    destruct Ht3 as (ws & req & -> & <-).
    exists (sel ++ t1). split; [by apply Forall_app|].
    destruct err as [e|].
    + destruct H2 as [-> ->]. right. left. exists ws, req, ch, e.
      split; [|done]. by rewrite app_nil_r, app_assoc.
    + simpl in H2. destruct H2 as (r & t & -> & H2).
      right. right. exists ws, req, ch, r, t.
      split; [|done]. by rewrite app_assoc.
  - exists (sel ++ t1). split; [by apply Forall_app|]. left.
    destruct sealed'; [destruct ak|]; simpl in Hs'.
    + by destruct Hs' as (x & t & -> & ? & ?).
    + destruct Hs' as [-> _]. by rewrite app_nil_r.
    + by destruct Hs' as (x & t & -> & ? & ?).
Qed.

Lemma first_dispatch_quiet pre ws req x rest :
  Forall is_quiet pre ->
  first_dispatch (pre ++ obs (SendRequest ws req) x :: rest) = Some (ws, req).
Proof.
  intros H. unfold first_dispatch. by rewrite omap_app, omap_quiet_dispatch.
Qed.

Lemma first_answer_quiet pre ws req x rest :
  Forall is_quiet pre ->
  first_answer (pre ++ obs (SendRequest ws req) x :: rest) = Some (ws, x.2).
Proof.
  intros H. unfold first_answer. by rewrite omap_app, omap_quiet_answer.
Qed.

Lemma after_first_receive_quiet pre ws req x ch r rest :
  Forall is_quiet pre ->
  after_first_receive (pre ++ obs (SendRequest ws req) x :: obs (Receive ch) r :: rest)
  = Some (r, rest).
Proof.
  intros H.
  change (pre ++ obs (SendRequest ws req) x :: obs (Receive ch) r :: rest)
    with (pre ++ [obs (SendRequest ws req) x] ++ obs (Receive ch) r :: rest).
  rewrite app_assoc. apply after_first_receive_app.
  apply Forall_app. split; [by apply Forall_quiet_no_receive | by repeat constructor].
Qed.

(** A run of [sendContent] below the ceiling in which a response came:
    the trace up to the response, and the rest as a run of
    [sendContent_response]. *)
Lemma sendContent_answered hdrs uuid ts content rc tr o response rest :
  rc <= 3 ->
  runs (sendContent hdrs uuid ts content rc) tr o ->
  after_first_receive tr = Some (response, rest) ->
  exists pre ws req ch,
    Forall is_quiet pre
    /\ tr = pre ++ obs (SendRequest ws req) (ch, None) :: obs (Receive ch) response :: rest
    /\ runs (sendContent_response (sendContent hdrs uuid ts content (rc + 1))
               uuid (sealed_of ws) response) rest o.
Proof.
  intros Hrc Hrun Hafter.
  destruct (sendContent_attempt _ _ _ _ _ _ _ Hrc Hrun)
    as (pre & Hpre & [[-> _]|[(ws & req & ch & e & -> & _)
                            |(ws & req & ch & r & rest' & -> & H)]]).
  - rewrite after_first_receive_none in Hafter; [done|].
    by apply Forall_quiet_no_receive.
  - rewrite after_first_receive_none in Hafter; [done|].
    apply Forall_app. split; [by apply Forall_quiet_no_receive | by repeat constructor].
  - rewrite after_first_receive_quiet in Hafter by done.
    injection Hafter as -> ->. by exists pre, ws, req, ch.
Qed.

Lemma count_dispatch_answered pre ws req x ch r rest :
  Forall is_quiet pre ->
  count_obs is_dispatch (pre ++ obs (SendRequest ws req) x :: obs (Receive ch) r :: rest)
  = S (count_obs is_dispatch rest).
Proof.
  intros H. rewrite count_obs_app, count_dispatch_quiet by done. reflexivity.
Qed.

(** X1: a response whose status is not one of the retryable ones ends
    the send at once, after exactly one request: status 200 is the
    success, with the sealed flag of the websocket used; every other
    status, the rest of the 2xx range included, is logged and returned as
    the error [Unexpected status code while sending], with that flag. *)
Theorem sendContent_final_status hdrs uuid ts content rc tr o response id status rest :
  rc <= 3 ->
  runs (sendContent hdrs uuid ts content rc) tr o ->
  after_first_receive tr = Some (Some response, rest) ->
  resp_Id response = Some id ->
  resp_Status response = Some status ->
  needToRetry status = false ->
  exists ws req,
    first_dispatch tr = Some (ws, req)
    /\ count_obs is_dispatch tr = 1%nat
    /\ if decide (status = 200)
       then rest = [] /\ o = Returned (sealed_of ws, None)
       else rest = [obs (zlog LevelErr (Some (unexpectedStatus status)) EmptyString) tt]
            /\ o = Returned (sealed_of ws, Some (unexpectedStatus status)).
Proof.
  intros Hrc Hrun Hafter Hid Hst Hno.
  destruct (sendContent_answered _ _ _ _ _ _ _ _ _ Hrc Hrun Hafter)
    as (pre & ws & req & ch & Hpre & -> & H).
  exists ws, req. split; [by apply first_dispatch_quiet|].
  rewrite count_dispatch_answered by done.
  unfold sendContent_response in H. rewrite Hid, Hst, Hno in H.
  case_decide as Hs.
  - subst status. simpl in H. destruct H as [-> ->]. by repeat split.
  - assert (negb (status =? 200) = true) as Hneq.
    { apply negb_true_iff. by apply Z.eqb_neq. }
    rewrite Hneq in H. unfold log_err in H. simpl in H.
    destruct H as ([] & t & -> & -> & ->). by repeat split.
Qed.

Lemma sendContent_final_status_witness :
  exists ws req,
    first_dispatch (run_status 201).1.1 = Some (ws, req)
    /\ count_obs is_dispatch (run_status 201).1.1 = 1%nat
    /\ if decide (201 = 200)
       then after_first_receive (run_status 201).1.1 = Some (Some (response_of 201 []), [])
            /\ (run_status 201).1.2 = Returned (sealed_of ws, None)
       else after_first_receive (run_status 201).1.1
            = Some (Some (response_of 201 []),
                    [obs (zlog LevelErr (Some (unexpectedStatus 201)) EmptyString) tt])
            /\ (run_status 201).1.2 = Returned (sealed_of ws, Some (unexpectedStatus 201)).
Proof.
  assert (Hafter : after_first_receive (run_status 201).1.1
            = Some (Some (response_of 201 []),
                    [obs (zlog LevelErr (Some (unexpectedStatus 201)) EmptyString) tt]))
    by (vm_compute; reflexivity).
  pose proof (run_runs (scripted happy)
                (sendContent jsonHeaders "bob" 1700000000000 hi_content 0)
                [response_of 201 []]) as Hrun.
  destruct (sendContent_final_status jsonHeaders "bob" 1700000000000 hi_content 0
              _ _ (response_of 201 []) 1 201 _ ltac:(lia) Hrun Hafter
              eq_refl eq_refl eq_refl)
    as (ws & req & Hd & Hc & H).
  exists ws, req. split; [exact Hd|]. split; [exact Hc|].
  destruct (decide (201 = 200)) as [Heq|_]; [discriminate Heq|].
  destruct H as [_ Ho]. split; [exact Hafter | exact Ho].
Defined.

(** X2: a 500 or a 503 is answered by the next attempt at once: nothing
    is repaired and nothing else is called in between; what follows the
    response is a run of the send one level deeper, whose outcome is the
    outcome of the run, and at most a line in the log. *)
Theorem sendContent_server_error_retried hdrs uuid ts content rc tr o
    response id status rest :
  rc <= 3 ->
  runs (sendContent hdrs uuid ts content rc) tr o ->
  after_first_receive tr = Some (Some response, rest) ->
  resp_Id response = Some id ->
  resp_Status response = Some status ->
  status = 500 \/ status = 503 ->
  exists tr_retry tr_log,
    rest = tr_retry ++ tr_log
    /\ Forall is_log tr_log
    /\ runs (sendContent hdrs uuid ts content (rc + 1)) tr_retry o.
Proof.
  intros Hrc Hrun Hafter Hid Hst Hs.
  destruct (sendContent_first_response _ _ _ _ _ _ _ _ _ Hrc Hrun Hafter) as [sealed H].
  assert (Hretry : needToRetry status = true) by (by destruct Hs as [-> | ->]).
  assert (Hrep : repair_for status uuid response = mret None)
    by (by destruct Hs as [-> | ->]).
  destruct (sendContent_response_retrying _ _ _ _ _ _ _ _ Hid Hst Hretry H)
    as [(e & He & _)|[(t1 & tr_retry & tr_log & -> & H1 & Hlog & Hr)|(m & Hm)]];
    rewrite Hrep in *.
  - by destruct He as [_ ?].
  - destruct H1 as [-> _]. by exists tr_retry, tr_log.
  - by destruct Hm as [_ ?].
Qed.

Lemma sendContent_server_error_retried_witness :
  exists tr_retry tr_log,
    after_first_receive run_503.1.1 = Some (Some (response_of 503 []), tr_retry ++ tr_log)
    /\ Forall is_log tr_log
    /\ runs (sendContent jsonHeaders "bob" 1700000000000 hi_content (0 + 1))
         tr_retry run_503.1.2.
Proof.
  assert (Hafter : exists rest,
             after_first_receive run_503.1.1 = Some (Some (response_of 503 []), rest)).
  { eexists. vm_compute. reflexivity. }
  destruct Hafter as [rest Hafter].
  pose proof (run_runs (scripted happy)
                (sendContent jsonHeaders "bob" 1700000000000 hi_content 0)
                [response_of 503 []; response_of 200 []]) as Hrun.
  destruct (sendContent_server_error_retried jsonHeaders "bob" 1700000000000
              hi_content 0 _ _ (response_of 503 []) 1 503 rest ltac:(lia) Hrun Hafter
              eq_refl eq_refl (or_intror eq_refl))
    as (tr_retry & tr_log & Hrest & Hlog & Hr).
  exists tr_retry, tr_log. rewrite <- Hrest. by repeat split.
Defined.

(** X3: when the websocket refuses the request, the send ends there: the
    websocket's error is returned with the sealed flag of the websocket
    that was tried, no response is awaited and no second request is
    made. *)
Theorem sendContent_request_refused hdrs uuid ts content rc tr o ws e :
  rc <= 3 ->
  runs (sendContent hdrs uuid ts content rc) tr o ->
  first_answer tr = Some (ws, Some e) ->
  o = Returned (sealed_of ws, Some e)
  /\ count_obs is_dispatch tr = 1%nat
  /\ count_obs is_receive tr = 0%nat.
Proof.
  intros Hrc Hrun Hans.
  destruct (sendContent_attempt _ _ _ _ _ _ _ Hrc Hrun)
    as (pre & Hpre & [[-> _]|[(ws' & req & ch & e' & -> & ->)
                            |(ws' & req & ch & r & rest' & -> & H)]]).
  - unfold first_answer in Hans. by rewrite omap_quiet_answer in Hans.
  - rewrite first_answer_quiet in Hans by done. injection Hans as -> ->.
    split; [done|]. rewrite !count_obs_app, count_dispatch_quiet by done.
    split; [done|]. rewrite count_obs_none; [done|].
    by apply Forall_quiet_no_receive.
  - by rewrite first_answer_quiet in Hans.
Qed.

Lemma sendContent_request_refused_witness :
  first_answer run_refused.1.1 = Some (UnauthedWS, Some (errors_New "websocket closed"))
  /\ run_refused.1.2 = Returned (true, Some (errors_New "websocket closed"))
  /\ count_obs is_dispatch run_refused.1.1 = 1%nat
  /\ count_obs is_receive run_refused.1.1 = 0%nat.
Proof.
  assert (Hans : first_answer run_refused.1.1
                 = Some (UnauthedWS, Some (errors_New "websocket closed")))
    by (vm_compute; reflexivity).
  pose proof (run_runs (refusing happy)
                (sendContent jsonHeaders "bob" 1700000000000 hi_content 0) []) as Hrun.
  split; [exact Hans|].
  exact (sendContent_request_refused jsonHeaders "bob" 1700000000000 hi_content 0
           _ _ UnauthedWS _ ltac:(lia) Hrun Hans).
Defined.

(** X4: a response that is nil, or that carries no id or no status, makes
    the send panic on the nil dereference as soon as it is read: nothing
    is returned and nothing more is done. *)
Theorem sendContent_malformed_response hdrs uuid ts content rc tr o response rest :
  rc <= 3 ->
  runs (sendContent hdrs uuid ts content rc) tr o ->
  after_first_receive tr = Some (response, rest) ->
  (response = None
   \/ exists r, response = Some r /\ (resp_Id r = None \/ resp_Status r = None)) ->
  o = Panicked nilDereference /\ rest = [].
Proof.
  intros Hrc Hrun Hafter Hbad.
  destruct (sendContent_first_response _ _ _ _ _ _ _ _ _ Hrc Hrun Hafter) as [sealed H].
  unfold sendContent_response in H.
  destruct Hbad as [-> | (r & -> & [Hr | Hr])].
  - by destruct H as [-> ->].
  - rewrite Hr in H. by destruct H as [-> ->].
  - rewrite Hr in H. destruct (resp_Id r); by destruct H as [-> ->].
Qed.

Lemma sendContent_malformed_response_witness :
  after_first_receive run_no_status.1.1 = Some (Some no_status, [])
  /\ run_no_status.1.2 = Panicked nilDereference.
Proof.
  assert (Hafter : after_first_receive run_no_status.1.1 = Some (Some no_status, []))
    by (vm_compute; reflexivity).
  pose proof (run_runs (scripted happy)
                (sendContent jsonHeaders "bob" 1700000000000 hi_content 0)
                [no_status]) as Hrun.
  split; [exact Hafter|].
  exact (proj1 (sendContent_malformed_response jsonHeaders "bob" 1700000000000
                  hi_content 0 _ _ _ _ ltac:(lia) Hrun Hafter
                  (or_intror (ex_intro _ no_status
                                (conj eq_refl (or_intror eq_refl)))))).
Defined.

Lemma omap_selector_sessions tr :
  Forall is_selector_obs tr -> omap sessions_of tr = [].
Proof.
  intros H. apply omap_all_none. eapply Forall_impl; [exact H|].
  intros [X c x]. by destruct c.
Qed.

(** X5: an error of the session store ends the send before anything is
    built: after the sealed sender selection the run is the lookup and one
    line in the log, nothing is encrypted, no prekey is fetched, no
    request is made, and the store's error is returned as it is. *)
Theorem sendContent_session_store_error hdrs uuid ts content rc tr o a s e :
  rc <= 3 ->
  runs (sendContent hdrs uuid ts content rc) tr o ->
  first_sessions tr = Some (a, s, Some e) ->
  o = Returned (false, Some e)
  /\ exists sel,
       Forall is_selector_obs sel
       /\ tr = sel ++ [obs (AllSessionsForUUID uuid) (a, s, Some e);
                       obs (zlog LevelErr (Some e) "Error building messages to send") tt].
Proof.
  intros Hrc Hrun Hfirst.
  rewrite sendContent_unfold in Hrun. unfold sendContent_body in Hrun.
  destruct (Z.ltb_spec 3 rc); [lia|].
  apply runs_bind in Hrun as [(tr1 & [sealed ak'] & tr2 & H1 & H2 & ->)|(m & H1 & ->)];
    apply sealedSenderSelector_runs in H1
      as (pk & e1 & ak & e2 & l1 & l2 & sealed' & -> & Hl1 & Hl2 & Ho & Hs); [|done].
  injection Ho as -> ->.
  assert (Hsel : Forall is_selector_obs
            (obs (ProfileKeyForSignalID uuid) (pk, e1) :: l1
             ++ obs (DeriveAccessKey pk) (ak, e2) :: l2)).
  { constructor; [done|]. apply Forall_app.
    split; [eapply Forall_impl; [exact Hl1 | apply is_log_selector]|].
    constructor; [done|]. eapply Forall_impl; [exact Hl2 | apply is_log_selector]. }
  set (sel := obs (ProfileKeyForSignalID uuid) (pk, e1) :: l1
              ++ obs (DeriveAccessKey pk) (ak, e2) :: l2) in *.
  clearbody sel.
  unfold first_sessions in Hfirst.
  rewrite omap_app, omap_selector_sessions in Hfirst by done.
  unfold sendContent_dispatch, buildMessagesToSend in H2. simpl in H2.
  destruct H2 as ([[a1 s1] err1] & t & -> & H2).
  simpl in Hfirst. injection Hfirst as -> -> ->.
  simpl in H2. destruct H2 as ([] & t' & -> & -> & ->).
  split; [done|]. by exists sel.
Qed.

Lemma sendContent_session_store_error_witness :
  first_sessions run_store_down.1.1
  = Some (None, None, Some (errors_New "database is locked"))
  /\ run_store_down.1.2 = Returned (false, Some (errors_New "database is locked"))
  /\ exists sel,
       Forall is_selector_obs sel
       /\ run_store_down.1.1
          = sel ++ [obs (AllSessionsForUUID "bob")
                      (None, None, Some (errors_New "database is locked"));
                    obs (zlog LevelErr (Some (errors_New "database is locked"))
                           "Error building messages to send") tt].
Proof.
  assert (Hfirst : first_sessions run_store_down.1.1
                   = Some (None, None, Some (errors_New "database is locked")))
    by (vm_compute; reflexivity).
  pose proof (run_runs (scripted store_down)
                (sendContent jsonHeaders "bob" 1700000000000 hi_content 0) []) as Hrun.
  split; [exact Hfirst|].
  exact (sendContent_session_store_error jsonHeaders "bob" 1700000000000 hi_content 0
           _ _ None None _ ltac:(lia) Hrun Hfirst).
Defined.

(** ** Rate limiting *)

Lemma split_colon_go_lookup_0 s : forall cur, is_Some (split_colon_go cur s !! 0%nat).
Proof.
  induction s as [|c s IH]; intros cur; simpl; [by eexists|].
  destruct (Ascii.eqb c colon); [by eexists | apply IH].
Qed.

Lemma split_colon_go_lookup_1 s :
  forall cur, is_Some (split_colon_go cur s !! 1%nat) <-> has_colon s.
Proof.
  unfold has_colon.
  induction s as [|c s IH]; intros cur; simpl.
  - split; [by intros [? ?] | by intros ?%elem_of_nil].
  - destruct (Ascii.eqb_spec c colon) as [->|Hc].
    + split; [intros _; by left | intros _]. simpl. apply split_colon_go_lookup_0.
    + rewrite IH. split; [by right | by intros [?|?]%elem_of_cons].
Qed.

Lemma handle428_headers_runs headers :
  forall r tr o,
    runs (handle428_headers headers r) tr o ->
    Forall is_log tr
    /\ (Forall has_colon headers -> exists v, o = Returned v)
    /\ (~ Forall has_colon headers -> o = Panicked "index out of range").
Proof.
  induction headers as [|h rest IH]; intros r tr o H; simpl in H.
  - destruct H as [-> ->]. split; [constructor|]. split; [by eexists|].
    intros Hn. by destruct Hn.
  - pose proof (split_colon_go_lookup_0 h EmptyString) as [key Hkey].
    pose proof (split_colon_go_lookup_1 h EmptyString) as Hcolon.
    unfold strings_Split_colon in H. rewrite Hkey in H.
    destruct (split_colon_go EmptyString h !! 1%nat) as [value|] eqn:Hvalue.
    + assert (Hh : has_colon h) by (apply Hcolon; by eexists).
      assert (Hrest : forall r' tr', runs (handle428_headers rest r') tr' o ->
                Forall is_log tr' ->
                Forall is_log tr'
                /\ (Forall has_colon (h :: rest) -> exists v, o = Returned v)
                /\ (~ Forall has_colon (h :: rest) -> o = Panicked "index out of range")).
      { intros r' tr' Hr Hlog. destruct (IH _ _ _ Hr) as (_ & Hok & Hbad).
        split; [done|]. split.
        - intros [_ ?]%Forall_cons. by apply Hok.
        - intros Hn. apply Hbad. intros ?. apply Hn. by constructor. }
      destruct (String.eqb key "Retry-After").
      * destruct (strconv_ParseUint value) as [v [e|]]; simpl in H.
        -- destruct H as ([] & t & -> & H).
           destruct (IH _ _ _ H) as (Hlog & _).
           destruct (Hrest _ _ H Hlog) as (_ & ? & ?).
           split; [by constructor|]. by split.
        -- destruct (IH _ _ _ H) as (Hlog & _). by apply (Hrest v).
      * destruct (IH _ _ _ H) as (Hlog & _). by apply (Hrest r).
    + destruct H as [-> ->]. split; [constructor|]. split.
      * intros [Hh _]%Forall_cons. apply Hcolon in Hh as [? ?]. done.
      * done.
Qed.

(** X6: [handle428] answers a rate limit without waiting and without
    answering the challenge: it decodes the body and writes to the log,
    nothing else.  A body that does not decode is the error returned;
    otherwise the result is nil whatever [Retry-After] holds, provided
    every header of the response has a colon; a header without one makes
    it panic on the index. *)
Theorem handle428_outcome uuid response tr o body err :
  runs (handle428 uuid response) tr o ->
  decoded tr = Some (resp_Body response, (body, err)) ->
  Forall is_log (tail tr)
  /\ match err with
     | Some e => o = Returned (Some e)
     | None =>
         if decide (Forall has_colon (resp_Headers response))
         then o = Returned None
         else o = Panicked "index out of range"
     end.
Proof.
  unfold handle428. simpl. intros ([body' err'] & t & -> & H) Hdec.
  injection Hdec as -> ->. simpl. destruct err as [e|].
  - simpl in H. destruct H as ([] & t' & -> & -> & ->). by repeat constructor.
  - apply runs_bind in H as [(t1 & r & t2 & H1 & H2 & ->)|(m & H1 & ->)];
      destruct (handle428_headers_runs _ _ _ _ H1) as (Hlog & Hok & Hbad).
    + case_decide as Hc; [|by apply Hbad in Hc].
      assert (Forall is_log t2 /\ o = Returned None) as [? ?].
      { destruct (0 <? r); simpl in H2.
        - destruct H2 as ([] & t' & -> & -> & ->). by repeat constructor.
        - by destruct H2 as [-> ->]. }
      split; [by apply Forall_app | done].
    + split; [done|]. case_decide as Hc.
      * by apply Hok in Hc as [? ?].
      * apply Hbad in Hc. by injection Hc as ->.
Qed.

Lemma handle428_outcome_witness :
  decoded (run_428 ["Retry-After:86400"; "Content-Type"]).1.1
  = Some (bytes_of_string "{}", (∅, None))
  /\ Forall is_log (tail (run_428 ["Retry-After:86400"; "Content-Type"]).1.1)
  /\ (run_428 ["Retry-After:86400"; "Content-Type"]).1.2 = Panicked "index out of range".
Proof.
  assert (Hdec : decoded (run_428 ["Retry-After:86400"; "Content-Type"]).1.1
                 = Some (bytes_of_string "{}", (∅, None)))
    by (vm_compute; reflexivity).
  pose proof (run_runs (scripted happy)
                (handle428 "bob" (rate_limited ["Retry-After:86400"; "Content-Type"]))
                []) as Hrun.
  destruct (handle428_outcome "bob" (rate_limited ["Retry-After:86400"; "Content-Type"])
              _ _ ∅ None Hrun Hdec) as [Hlog Ho].
  split; [exact Hdec|]. split; [exact Hlog|].
  destruct (decide (Forall has_colon
                      (resp_Headers (rate_limited ["Retry-After:86400"; "Content-Type"]))))
    as [Hall|_]; [|exact Ho].
  exfalso. apply Forall_cons in Hall as [_ [Hbad _]%Forall_cons].
  vm_compute in Hbad. clear -Hbad.
  repeat (apply elem_of_cons in Hbad as [Hbad|Hbad]; [discriminate Hbad|]).
  by apply elem_of_nil in Hbad.
Defined.

(** ** The sender's other devices *)

Lemma omap_cons {A B} (f : A -> option B) x l :
  omap f (x :: l) = match f x with Some y => y :: omap f l | None => omap f l end.
Proof. reflexivity. Qed.

Lemma omap_length_le {A B} (f : A -> option B) l :
  (length (omap f l) <= length l)%nat.
Proof.
  induction l as [|x l IH]; [done|]. rewrite omap_cons.
  destruct (f x); simpl; lia.
Qed.

Lemma other_devices_length_le d answers :
  (length (other_devices d answers) <= length answers)%nat.
Proof. apply omap_length_le. Qed.

Lemma device_answers_cons a x t :
  device_answers (obs (DeviceID a) x :: t) = (a, x) :: device_answers t.
Proof. reflexivity. Qed.

Lemma device_answers_log l e m t :
  device_answers (obs (zlog l e m) tt :: t) = device_answers t.
Proof. reflexivity. Qed.

Lemma other_devices_cons d a err answers :
  other_devices d ((a, err) :: answers)
  = match err with
    | Some _ => other_devices d answers
    | None =>
        if negb (addr_device a =? uint_of_int (DeviceId d))
        then a :: other_devices d answers
        else other_devices d answers
    end.
Proof. unfold other_devices. rewrite omap_cons. destruct err; [done|]. by destruct (negb _). Qed.

Lemma howManyOtherDevices_loop_runs d addresses :
  forall n tr o,
    runs (howManyOtherDevices_loop d addresses n) tr o ->
    0 <= n -> n + len addresses < 2 ^ 63 ->
    (device_answers tr).*1 = addresses
    /\ o = Returned (n + len (other_devices d (device_answers tr))).
Proof.
  unfold len.
  induction addresses as [|a rest IH]; intros n tr o H Hn Hlen; simpl in H.
  - destruct H as [-> ->]. split; [done|]. f_equal. simpl. lia.
  - destruct H as (err & t & -> & H).
    rewrite length_cons, Nat2Z.inj_succ in Hlen.
    rewrite device_answers_cons, other_devices_cons, fmap_cons.
    destruct err as [e|].
    + simpl in H. destruct H as ([] & t' & -> & H).
      rewrite device_answers_log.
      destruct (IH _ _ _ H Hn ltac:(lia)) as [Ha ->]. by rewrite Ha.
    + destruct (negb (addr_device a =? uint_of_int (DeviceId d))) eqn:Hother.
      * assert (GoInt.add n 1 = n + 1) as Hadd.
        { apply wrap_small. unfold GoInt.in_range. lia. }
        rewrite Hadd in H.
        destruct (IH _ _ _ H ltac:(lia) ltac:(lia)) as [Ha ->].
        rewrite Ha. split; [done|]. f_equal. rewrite length_cons. lia.
      * destruct (IH _ _ _ H Hn ltac:(lia)) as [Ha ->]. by rewrite Ha.
Qed.

(** X7: [howManyOtherDevicesDoWeHave] asks the session store once for
    the device's own account.  If the store fails the answer is 0 and no
    address is looked at; otherwise every address is asked for its device
    id, in order, and the answer is the number of addresses whose id
    could be read and differs from the device's own, at most the number
    of addresses.  (A Go slice has fewer than 2^63 elements.) *)
Theorem howManyOtherDevicesDoWeHave_counts d tr o addresses sessionRecords err :
  runs (howManyOtherDevicesDoWeHave d) tr o ->
  first_sessions tr = Some (addresses, sessionRecords, err) ->
  slice_len addresses < 2 ^ 63 ->
  head tr = Some (obs (AllSessionsForUUID (AciUuid d)) (addresses, sessionRecords, err))
  /\ match err with
     | Some _ => o = Returned 0 /\ tail tr = []
     | None =>
         (device_answers tr).*1 = default [] addresses
         /\ o = Returned (len (other_devices d (device_answers tr)))
         /\ 0 <= len (other_devices d (device_answers tr)) <= slice_len addresses
     end.
Proof.
  unfold howManyOtherDevicesDoWeHave. simpl.
  intros ([[a s] e] & t & -> & H) Hfirst Hlen.
  injection Hfirst as -> -> ->. split; [done|]. destruct err as [e|].
  - by destruct H as [-> ->].
  - destruct (howManyOtherDevices_loop_runs _ _ _ _ _ H ltac:(lia) ltac:(unfold slice_len in Hlen; lia))
      as [Ha Ho].
    change (device_answers (obs (AllSessionsForUUID (AciUuid d))
                              (addresses, sessionRecords, None) :: t))
      with (device_answers t).
    split; [done|]. split; [by rewrite Ho|].
    unfold slice_len, len. rewrite <- Ha, length_fmap.
    pose proof (other_devices_length_le d (device_answers t)). lia.
Qed.

Lemma howManyOtherDevicesDoWeHave_counts_witness :
  first_sessions run_how_many.1.1
  = Some (Some [mkAddress "alice" 1; mkAddress "alice" 2],
          Some [SessionRecord_ptr 11; SessionRecord_ptr 12], None)
  /\ run_how_many.1.2 = Returned 1
  /\ (device_answers run_how_many.1.1).*1 = [mkAddress "alice" 1; mkAddress "alice" 2].
Proof.
  assert (Hfirst : first_sessions run_how_many.1.1
            = Some (Some [mkAddress "alice" 1; mkAddress "alice" 2],
                    Some [SessionRecord_ptr 11; SessionRecord_ptr 12], None))
    by (vm_compute; reflexivity).
  assert (Hone : len (other_devices {| AciUuid := "alice"; DeviceId := 1 |}
                        (device_answers run_how_many.1.1)) = 1)
    by (vm_compute; reflexivity).
  pose proof (run_runs (scripted happy)
                (howManyOtherDevicesDoWeHave {| AciUuid := "alice"; DeviceId := 1 |})
                []) as Hrun.
  destruct (howManyOtherDevicesDoWeHave_counts _ _ _ _ _ None Hrun Hfirst
              ltac:(vm_compute; reflexivity)) as (_ & Ha & Ho & _).
  split; [exact Hfirst|]. split; [|exact Ha].
  exact (eq_trans Ho (f_equal Returned Hone)).
Defined.

(** ** Entry points *)

#[local] Arguments sendContent : simpl never.
#[local] Arguments howManyOtherDevicesDoWeHave : simpl never.

Lemma currentMessageTimestamp_runs tr o :
  runs currentMessageTimestamp tr o ->
  exists ms, tr = [obs UnixMilli ms] /\ o = Returned (uint_of_int ms).
Proof. intros (ms & t & -> & -> & ->). by exists ms. Qed.

(** X8: [SendMessage] reports what the send to the recipient gave.  A
    run that returns is the clock, that send, and the rest; if the send
    returned an error, nothing follows it (no prekey is fetched, no own
    device is looked up, no copy is sent) and the result is the failure
    with the recipient and that error; and the result says successful
    exactly when that send returned no error. *)
Theorem SendMessage_reports_primary hdrs device recipientUuid text tr result :
  runs (SendMessage hdrs device recipientUuid text) tr (Returned result) ->
  exists ms tr1 sentUnidentified err tr2,
    tr = obs UnixMilli ms :: tr1 ++ tr2
    /\ runs (sendContent hdrs recipientUuid (uint_of_int ms)
               (solo_content text (uint_of_int ms)) 0) tr1
            (Returned (sentUnidentified, err))
    /\ (WasSuccessful result = true <-> err = None)
    /\ match err with
       | Some e => tr2 = [] /\ result = solo_failure recipientUuid e
       | None => result = solo_result recipientUuid sentUnidentified
       end.
Proof.
  unfold SendMessage. intros H.
  apply runs_bind in H as [(t0 & ts & t & Hc & H & ->)|(m & _ & [=])].
  apply currentMessageTimestamp_runs in Hc as (ms & -> & [= ->]).
  apply runs_bind in H as [(tr1 & [su err] & tr2 & H1 & H2 & ->)|(m & _ & [=])].
  exists ms, tr1, su, err, tr2. split; [done|]. split; [exact H1|].
  destruct err as [e|].
  - destruct H2 as [-> [= ->]]. by repeat split.
  - apply runs_bind in H2 as [(t2 & x & t3 & _ & H2 & ->)|(m & _ & [=])].
    apply runs_bind in H2 as [(t4 & n & t5 & _ & H4 & ->)|(m & _ & [=])].
    apply runs_bind in H4 as [(t6 & [] & t7 & _ & [-> [= ->]] & ->)|(m & _ & [=])].
    by repeat split.
Qed.

Lemma SendMessage_reports_primary_witness :
  send_solo_refused.1.2 = Returned (solo_failure "bob" (unexpectedStatus 404))
  /\ exists ms tr1 sentUnidentified err tr2,
       send_solo_refused.1.1 = obs UnixMilli ms :: tr1 ++ tr2
       /\ runs (sendContent jsonHeaders "bob" (uint_of_int ms)
                  (solo_content "hi" (uint_of_int ms)) 0) tr1
               (Returned (sentUnidentified, err))
       /\ (WasSuccessful (solo_failure "bob" (unexpectedStatus 404)) = true <-> err = None)
       /\ match err with
          | Some e => tr2 = [] /\ solo_failure "bob" (unexpectedStatus 404)
                                  = solo_failure "bob" e
          | None => solo_failure "bob" (unexpectedStatus 404)
                    = solo_result "bob" sentUnidentified
          end.
Proof.
  assert (Ho : send_solo_refused.1.2 = Returned (solo_failure "bob" (unexpectedStatus 404)))
    by (vm_compute; reflexivity).
  pose proof (run_runs (scripted happy) (SendMessage jsonHeaders alice "bob" "hi")
                [response_of 404 []]) as Hrun.
  split; [exact Ho|].
  apply (SendMessage_reports_primary jsonHeaders alice "bob" "hi").
  exact (eq_rect _ (runs _ _) Hrun _ Ho).
Defined.

Lemma other_members_cons device member rest :
  other_members device (member :: rest)
  = if String.eqb (UserId member) (AciUuid device)
    then other_members device rest
    else UserId member :: other_members device rest.
Proof.
  unfold other_members. rewrite fmap_cons, filter_cons.
  destruct (String.eqb_spec (UserId member) (AciUuid device)); by case_decide.
Qed.

Lemma runs_call {X} (e : Call X) tr (o : Outcome X) :
  runs (call e) tr o <-> exists x, tr = [obs e x] /\ o = Returned x.
Proof.
  simpl. split.
  - intros (x & t & -> & -> & ->). by exists x.
  - intros (x & -> & ->). by exists x, [].
Qed.

Lemma SendGroupMessage_loop_cons hdrs device ts content member rest result :
  SendGroupMessage_loop hdrs device ts content (member :: rest) result
  = if String.eqb (UserId member) (AciUuid device) then
      SendGroupMessage_loop hdrs device ts content rest result
    else
      '(sentUnidentified, err) ← sendContent hdrs (UserId member) ts content 0;
      match err with
      | Some e =>
          log_err (Some e) ("Failed to send to " +:+ UserId member);;
          SendGroupMessage_loop hdrs device ts content rest
            {| SuccessfullySentTo := SuccessfullySentTo result;
               FailedToSendTo :=
                 FailedToSendTo result
                 ++ [ {| fsr_RecipientUuid := UserId member; fsr_Error := e |} ] |}
      | None =>
          SendGroupMessage_loop hdrs device ts content rest
            {| SuccessfullySentTo :=
                 SuccessfullySentTo result
                 ++ [ {| ssr_RecipientUuid := UserId member;
                         ssr_Unidentified := sentUnidentified |} ];
               FailedToSendTo := FailedToSendTo result |}
      end.
Proof. reflexivity. Qed.

Lemma SendGroupMessage_loop_partitions hdrs device ts content members :
  forall result tr res,
    runs (SendGroupMessage_loop hdrs device ts content members result) tr (Returned res) ->
    exists sent failed,
      sent_to res = sent_to result ++ sent
      /\ failed_to res = failed_to result ++ failed
      /\ sent ++ failed ≡ₚ other_members device members
      /\ sent `sublist_of` other_members device members
      /\ failed `sublist_of` other_members device members.
Proof.
  induction members as [|member rest IH]; intros result tr res H.
  - destruct H as [_ [= <-]]. exists [], []. by rewrite !app_nil_r.
  - rewrite other_members_cons. rewrite SendGroupMessage_loop_cons in H.
    destruct (String.eqb (UserId member) (AciUuid device)); [exact (IH _ _ _ H)|].
    apply runs_bind in H as [(t1 & [su err] & t2 & _ & H & ->)|(m & _ & [=])].
    destruct err as [e|].
    + apply runs_bind in H as [(t3 & [] & t & _ & H & ->)|(m & _ & [=])].
      destruct (IH _ _ _ H) as (sent & failed & Hs & Hf & Hp & Hss & Hsf).
      exists sent, (UserId member :: failed). split; [done|]. split.
      * rewrite Hf. unfold failed_to. simpl. by rewrite fmap_app, <- app_assoc.
      * split; [|split; [by apply sublist_cons | by apply sublist_skip]].
        by rewrite <- Permutation_middle, Hp.
    + destruct (IH _ _ _ H) as (sent & failed & Hs & Hf & Hp & Hss & Hsf).
      exists (UserId member :: sent), failed. split.
      * rewrite Hs. unfold sent_to. simpl. by rewrite fmap_app, <- app_assoc.
      * split; [done|].
        split; [|split; [by apply sublist_skip | by apply sublist_cons]].
        simpl. by rewrite Hp.
Qed.

(** The runs of [SendGroupMessage] once the group is there: the clock,
    the group's metadata, a run of the loop over the members, and a
    tail that only a result of the loop opens. *)
Lemma SendGroupMessage_runs hdrs device groupID text group tr o :
  runs (SendGroupMessage hdrs device groupID text) tr o ->
  retrieved tr = Some (Some group, None) ->
  exists ms groupV2 trl ol tr2,
    tr = obs (RetrieveGroupByID groupID) (Some group, None)
           :: obs UnixMilli ms :: obs (groupMetadataForDataMessage group) groupV2
           :: trl ++ tr2
    /\ runs (SendGroupMessage_loop hdrs device (uint_of_int ms)
               (group_content text (uint_of_int ms) groupV2) (Members group)
               {| SuccessfullySentTo := []; FailedToSendTo := [] |}) trl ol
    /\ match ol with
       | Panicked m => tr2 = [] /\ o = Panicked m
       | Returned result =>
           runs (otherDevices ← howManyOtherDevicesDoWeHave device;
                 (if 0 <? otherDevices then
                    '(_, selfSendErr) ←
                      sendContent hdrs (AciUuid device) (uint_of_int ms)
                        (syncMessageFromGroupDataMessage
                           (group_dataMessage text (uint_of_int ms) groupV2)
                           (SuccessfullySentTo result)) 0;
                    match selfSendErr with
                    | Some e =>
                        log_err (Some e) "Failed to send sync message to myself (%v)"
                    | None => mret tt
                    end
                  else mret tt);;
                 mret (Some result, None)) tr2 o
       end.
Proof.
  unfold SendGroupMessage. intros H Hret.
  apply runs_bind in H as [(t0 & [g err] & t & Hc & H & ->)|(m & Hc & _)];
    apply runs_call in Hc as (x & -> & [= <-]).
  injection Hret as -> ->.
  apply runs_bind in H as [(t0 & ts & t1 & Hc & H & ->)|(m & Hc & _)];
    apply currentMessageTimestamp_runs in Hc as (ms & -> & [= ->]).
  apply runs_bind in H as [(t0 & groupV2 & t2 & Hc & H & ->)|(m & Hc & _)];
    apply runs_call in Hc as (x & -> & [= <-]).
  apply runs_bind in H as [(trl & result & tr2 & Hl & H & ->)|(m & Hl & ->)].
  - by exists ms, groupV2, trl, (Returned result), tr2.
  - exists ms, groupV2, t2, (Panicked m), []. by rewrite app_nil_r.
Qed.

(** X9: in the result of [SendGroupMessage] every member of the group
    but the sender is in exactly one of the two lists, sent or failed,
    each list in the order of the members; the sender is in neither; and
    the error beside the result is nil however many sends failed. *)
Theorem SendGroupMessage_partitions hdrs device groupID text group tr result err :
  runs (SendGroupMessage hdrs device groupID text) tr (Returned (result, err)) ->
  retrieved tr = Some (Some group, None) ->
  err = None
  /\ exists res, result = Some res /\ group_partition device (Members group) res.
Proof.
  intros H Hret.
  destruct (SendGroupMessage_runs _ _ _ _ _ _ _ H Hret)
    as (ms & groupV2 & trl & ol & tr2 & -> & Hl & Htail).
  destruct ol as [res|m]; [|by destruct Htail].
  apply runs_bind in Htail as [(t3 & n & t4 & _ & H4 & ->)|(m & _ & [=])].
  apply runs_bind in H4 as [(t5 & [] & t6 & _ & [-> [= -> ->]] & ->)|(m & _ & [=])].
  split; [done|]. exists res. split; [done|].
  destruct (SendGroupMessage_loop_partitions _ _ _ _ _ _ _ _ Hl)
    as (sent & failed & Hs & Hf & Hp & Hss & Hsf).
  unfold group_partition. simpl in Hs, Hf. by rewrite Hs, Hf.
Qed.

Lemma SendGroupMessage_partitions_witness :
  retrieved send_three.1.1 = Some (Some three_members, None)
  /\ exists res,
       send_three.1.2 = Returned (Some res, None)
       /\ sent_to res = ["bob"] /\ failed_to res = ["carol"]
       /\ group_partition alice (Members three_members) res.
Proof.
  assert (Hret : retrieved send_three.1.1 = Some (Some three_members, None))
    by (vm_compute; reflexivity).
  assert (Ho : exists res, send_three.1.2 = Returned (Some res, None)
                           /\ sent_to res = ["bob"] /\ failed_to res = ["carol"]).
  { eexists. split; [vm_compute; reflexivity|]. split; reflexivity. }
  destruct Ho as (res & Ho & Hs & Hf).
  pose proof (run_runs (group_of_three happy) (SendGroupMessage jsonHeaders alice [] "hi")
                [response_of 200 []; response_of 404 []]) as Hrun.
  split; [exact Hret|]. exists res. split; [exact Ho|]. split; [exact Hs|].
  split; [exact Hf|].
  destruct (SendGroupMessage_partitions jsonHeaders alice [] "hi" three_members
              _ (Some res) None (eq_rect _ (runs _ _) Hrun _ Ho) Hret)
    as (_ & res' & [= <-] & Hp).
  exact Hp.
Defined.

(** X10: the only error [SendGroupMessage] returns is the one of the
    group retrieval, and then it has done nothing else: the clock is not
    read, nothing is sent and there is no result. *)
Theorem SendGroupMessage_error_is_retrieval hdrs device groupID text tr result e :
  runs (SendGroupMessage hdrs device groupID text) tr (Returned (result, Some e)) ->
  result = None
  /\ exists group, tr = [obs (RetrieveGroupByID groupID) (group, Some e)].
Proof.
  unfold SendGroupMessage. intros H.
  apply runs_bind in H as [(t0 & [g err] & t & Hc & H & ->)|(m & Hc & _)];
    apply runs_call in Hc as (x & -> & [= <-]).
  destruct err as [e'|].
  - destruct H as [-> [= <- <-]]. split; [done|]. by exists g.
  - exfalso.
    apply runs_bind in H as [(t0 & ts & t1 & Hc & H & ->)|(m & _ & [=])].
    destruct g as [group|]; [|by destruct H].
    apply runs_bind in H as [(t2 & groupV2 & t3 & _ & H & ->)|(m & _ & [=])].
    apply runs_bind in H as [(trl & res & tr2 & _ & H & ->)|(m & _ & [=])].
    apply runs_bind in H as [(t4 & n & t5 & _ & H & ->)|(m & _ & [=])].
    by apply runs_bind in H as [(t6 & [] & t7 & _ & [_ [=]] & _)|(m & _ & [=])].
Qed.

Lemma SendGroupMessage_error_is_retrieval_witness :
  send_missing.1.2 = Returned (None, Some (errors_New "group not found"))
  /\ exists group,
       send_missing.1.1 = [obs (RetrieveGroupByID []) (group, Some (errors_New "group not found"))].
Proof.
  assert (Ho : send_missing.1.2 = Returned (None, Some (errors_New "group not found")))
    by (vm_compute; reflexivity).
  pose proof (run_runs (group_missing happy) (SendGroupMessage jsonHeaders alice [] "hi")
                []) as Hrun.
  split; [exact Ho|].
  exact (proj2 (SendGroupMessage_error_is_retrieval jsonHeaders alice [] "hi" _ None _
                  (eq_rect _ (runs _ _) Hrun _ Ho))).
Defined.

(** ** Requests of the entry points *)

Lemma sendContent_four hdrs uuid ts content :
  atmost is_dispatch 4 (sendContent hdrs uuid ts content 0).
Proof. by apply sendContent_dispatches. Qed.

Lemma sync_tail_requests {R} hdrs device ts syncContent msg (result : R) :
  atmost is_dispatch 4
    (otherDevices ← howManyOtherDevicesDoWeHave device;
     (if 0 <? otherDevices then
        '(_, selfSendErr) ← sendContent hdrs (AciUuid device) ts syncContent 0;
        match selfSendErr with
        | Some e => log_err (Some e) msg
        | None => mret tt
        end
      else mret tt);;
     mret result).
Proof.
  apply (atmost_bind is_dispatch 0 4).
  { apply atmost_local; [apply is_dispatch_local | apply howManyOtherDevicesDoWeHave_local]. }
  intros n. apply (atmost_bind is_dispatch 4 0).
  - destruct (0 <? n).
    + apply (atmost_bind is_dispatch 4 0); [apply sendContent_four|].
      intros [x [e|]]; apply atmost_local;
        [apply is_dispatch_local | unfold log_err; silent_local
        | apply is_dispatch_local | apply silent_mret].
    + apply atmost_local; [apply is_dispatch_local | apply silent_mret].
  - intros []. apply atmost_local; [apply is_dispatch_local | apply silent_mret].
Qed.

(** X11: one call of [SendMessage] hands at most 8 requests to the
    websockets, whatever the server answers: at most 4 for the recipient
    and at most 4 for the copy to the sender's other devices. *)
Theorem SendMessage_request_bound hdrs device recipientUuid text :
  atmost is_dispatch 8 (SendMessage hdrs device recipientUuid text).
Proof.
  unfold SendMessage.
  apply (atmost_bind is_dispatch 0 8).
  { apply atmost_local; [apply is_dispatch_local|].
    unfold currentMessageTimestamp. silent_local. }
  intros ts. apply (atmost_bind is_dispatch 4 4); [apply sendContent_four|].
  intros [su [e|]].
  - apply atmost_local; [apply is_dispatch_local | apply silent_mret].
  - apply (atmost_bind is_dispatch 0 4).
    + apply atmost_local; [apply is_dispatch_local | silent_local].
    + intros _. apply sync_tail_requests.
Qed.

Lemma SendGroupMessage_loop_requests hdrs device ts content members :
  forall result,
    atmost is_dispatch (4 * length (other_members device members))
      (SendGroupMessage_loop hdrs device ts content members result).
Proof.
  induction members as [|member rest IH]; intros result.
  - apply atmost_local; [apply is_dispatch_local | apply silent_mret].
  - rewrite other_members_cons, SendGroupMessage_loop_cons.
    destruct (String.eqb (UserId member) (AciUuid device)); [apply IH|].
    rewrite length_cons.
    replace (4 * S (length (other_members device rest)))%nat
      with (4 + 4 * length (other_members device rest))%nat by lia.
    apply atmost_bind; [apply sendContent_four|].
    intros [su [e|]]; [|apply IH].
    apply (atmost_bind is_dispatch 0).
    + apply atmost_local; [apply is_dispatch_local | unfold log_err; silent_local].
    + intros _. apply IH.
Qed.

(** X12: one call of [SendGroupMessage] hands at most 4 requests to the
    websockets for each member of the group but the sender, and at most
    4 more for the copy to the sender's other devices. *)
Theorem SendGroupMessage_request_bound hdrs device groupID text group tr o :
  runs (SendGroupMessage hdrs device groupID text) tr o ->
  retrieved tr = Some (Some group, None) ->
  (count_obs is_dispatch tr
   <= 4 * (length (other_members device (Members group)) + 1))%nat.
Proof.
  intros H Hret.
  destruct (SendGroupMessage_runs _ _ _ _ _ _ _ H Hret)
    as (ms & groupV2 & trl & ol & tr2 & -> & Hl & Htail).
  apply SendGroupMessage_loop_requests in Hl. simpl in Hl.
  assert (count_obs is_dispatch tr2 <= 4)%nat as H2.
  { destruct ol as [res|m].
    - by apply sync_tail_requests in Htail.
    - destruct Htail as [-> _]. unfold count_obs. simpl. lia. }
  change (count_obs is_dispatch
            (obs (RetrieveGroupByID groupID) (Some group, None)
             :: obs UnixMilli ms :: obs (groupMetadataForDataMessage group) groupV2
             :: trl ++ tr2))
    with (count_obs is_dispatch (trl ++ tr2)).
  rewrite count_obs_app. lia.
Qed.

Lemma SendGroupMessage_request_bound_witness :
  retrieved send_three.1.1 = Some (Some three_members, None)
  /\ length (other_members alice (Members three_members)) = 2%nat
  /\ count_obs is_dispatch send_three.1.1 = 3%nat
  /\ (count_obs is_dispatch send_three.1.1
      <= 4 * (length (other_members alice (Members three_members)) + 1))%nat.
Proof.
  assert (Hret : retrieved send_three.1.1 = Some (Some three_members, None))
    by (vm_compute; reflexivity).
  assert (Hc : count_obs is_dispatch send_three.1.1 = 3%nat)
    by (vm_compute; reflexivity).
  pose proof (run_runs (group_of_three happy) (SendGroupMessage jsonHeaders alice [] "hi")
                [response_of 200 []; response_of 404 []]) as Hrun.
  split; [exact Hret|]. split; [reflexivity|]. split; [exact Hc|].
  exact (SendGroupMessage_request_bound jsonHeaders alice [] "hi" three_members _ _
           Hrun Hret).
Defined.

(** ** The copy for the sender's other devices is best effort *)

(** C8: a failure of the copy sent to the sender's own account is
    logged and swallowed.  In every run of [SendMessage] in which the send
    to the recipient returned no error, and in every run of
    [SendGroupMessage] in which the sends to the members gave a result,
    what follows sends nothing or sends the copy; an error of the copy is
    written to the log and the result is returned as it was, successful
    for [SendMessage] and with a nil error for [SendGroupMessage]. *)
Theorem self_sync_failure_swallowed hdrs device :
  (forall recipientUuid text tr o,
      runs (SendMessage hdrs device recipientUuid text) tr o ->
      solo_sync_swallowed hdrs device recipientUuid text tr o)
  /\ (forall groupID text group tr o,
        runs (SendGroupMessage hdrs device groupID text) tr o ->
        retrieved tr = Some (Some group, None) ->
        group_sync_swallowed hdrs device groupID text group tr o).
Proof.
  split.
  - intros recipientUuid text tr o H. unfold SendMessage in H.
    apply runs_bind in H as [(t0 & ts & t & Hc & H & ->)|(m & Hc & _)];
      apply currentMessageTimestamp_runs in Hc as (ms & -> & [= ->]).
    apply runs_bind in H as [(tr1 & [su err] & tr2 & H1 & H2 & ->)|(m & H1 & ->)].
    + exists ms, tr1, (Returned (su, err)), tr2. split; [done|]. split; [exact H1|].
      intros su' [= <- ->].
      apply runs_bind in H2 as [(t2 & x & t3 & Hf & H2 & ->)|(m & Hf & _)];
        apply runs_call in Hf as (x' & -> & [= <-]).
      apply sync_swallowed_cons; [by repeat split|].
      by apply sync_tail_runs.
    + exists ms, t, (Panicked m), []. rewrite app_nil_r. by repeat split.
  - intros groupID text group tr o H Hret.
    destruct (SendGroupMessage_runs _ _ _ _ _ _ _ H Hret)
      as (ms & groupV2 & trl & ol & tr2 & -> & Hl & Htail).
    exists ms, groupV2, trl, ol, tr2. split; [done|]. split; [exact Hl|].
    intros result ->. by apply sync_tail_runs.
Qed.

Lemma self_sync_failure_swallowed_witness :
  send_solo.1.2 = Returned (solo_result "bob" true)
  /\ last send_solo.1.1
     = Some (obs (zlog LevelErr (Some (unexpectedStatus 400))
                    "Failed to send sync message to myself") tt)
  /\ solo_sync_swallowed jsonHeaders alice "bob" "hi" send_solo.1.1 send_solo.1.2
  /\ retrieved send_group.1.1
     = Some (Some {| Members := [ {| UserId := "alice" |}; {| UserId := "bob" |} ] |}, None)
  /\ (exists result, send_group.1.2 = Returned (Some result, None)
                     /\ sent_to result = ["bob"])
  /\ last send_group.1.1
     = Some (obs (zlog LevelErr (Some (unexpectedStatus 400))
                    "Failed to send sync message to myself (%v)") tt)
  /\ group_sync_swallowed jsonHeaders alice [] "hi"
       {| Members := [ {| UserId := "alice" |}; {| UserId := "bob" |} ] |}
       send_group.1.1 send_group.1.2.
Proof.
  assert (Ho : send_solo.1.2 = Returned (solo_result "bob" true))
    by (vm_compute; reflexivity).
  assert (Hlast : last send_solo.1.1
                  = Some (obs (zlog LevelErr (Some (unexpectedStatus 400))
                                 "Failed to send sync message to myself") tt))
    by (vm_compute; reflexivity).
  assert (Hret : retrieved send_group.1.1
                 = Some (Some {| Members := [ {| UserId := "alice" |};
                                              {| UserId := "bob" |} ] |}, None))
    by (vm_compute; reflexivity).
  assert (Hgo : exists result, send_group.1.2 = Returned (Some result, None)
                               /\ sent_to result = ["bob"]).
  { eexists. split; [vm_compute; reflexivity | reflexivity]. }
  assert (Hglast : last send_group.1.1
                   = Some (obs (zlog LevelErr (Some (unexpectedStatus 400))
                                  "Failed to send sync message to myself (%v)") tt))
    by (vm_compute; reflexivity).
  pose proof (run_runs (scripted happy) (SendMessage jsonHeaders alice "bob" "hi")
                sync_refused) as Hrun.
  pose proof (run_runs (scripted happy) (SendGroupMessage jsonHeaders alice [] "hi")
                sync_refused) as Hgrun.
  split; [exact Ho|]. split; [exact Hlast|].
  split; [exact (proj1 (self_sync_failure_swallowed jsonHeaders alice) _ _ _ _ Hrun)|].
  split; [exact Hret|]. split; [exact Hgo|]. split; [exact Hglast|].
  exact (proj2 (self_sync_failure_swallowed jsonHeaders alice) _ _ _ _ _ Hgrun Hret).
Defined.

(** ** The request on the wire *)

Lemma batch_json_marshal ts l :
  (json_Marshal {| Timestamp := ts; Online := false; Urgent := true; Messages := Some l |}).1
  = bytes_of_string (json_render (batch_json ts l)).
Proof. reflexivity. Qed.

Lemma buildMessagesToSend_loop_contents content unauth srs addresses :
  forall i messages tr built,
    runs (buildMessagesToSend_loop content unauth srs i addresses messages) tr
      (Returned (built, None)) ->
    Forall base64_content messages ->
    exists l, built = Some l /\ Forall base64_content l.
Proof.
  induction addresses as [|a rest IH]; intros i messages tr built H Hm.
  - destruct H as [_ [= ->]]. by exists messages.
  - simpl in H. destruct H as (err & t & -> & H).
    destruct err as [e|]; [by destruct H as [_ [=]]|].
    simpl in H. destruct H as ([serialized err] & t' & -> & H).
    destruct err as [e|]; [by destruct H as [_ [=]]|].
    apply runs_bind in H as [(t1 & [padded perr] & t2 & _ & H & ->)|(m & _ & [=])].
    destruct (srs !! i) as [sr|]; [|by destruct H as [_ [=]]].
    apply runs_bind in H as [(t3 & [[ty payload] berr] & t4 & _ & H & ->)|(m & _ & [=])].
    simpl in H. destruct H as ([reg err] & t5 & -> & H).
    destruct err as [e|]; [by destruct H as [_ [=]]|].
    apply (IH _ _ _ _ H). apply Forall_app. split; [done|].
    constructor; [|constructor]. by exists payload.
Qed.

Lemma buildMessagesToSend_contents uuid content unauth tr built :
  runs (buildMessagesToSend uuid content unauth) tr (Returned (built, None)) ->
  exists l, built = Some l /\ Forall base64_content l.
Proof.
  unfold buildMessagesToSend. intros H.
  apply runs_bind in H as [(t0 & [[a s] e] & t & _ & H & ->)|(m & _ & [=])].
  apply runs_bind in H as [(t1 & [[a' s'] e'] & t2 & _ & H & ->)|(m & _ & [=])].
  destruct (checkForErrorWithSessions e' a' s'); [by destruct H as [_ [=]]|].
  by apply (buildMessagesToSend_loop_contents _ _ _ _ _ _ _ _ H).
Qed.

(** One attempt of [sendContent] below the ceiling, as to its request:
    after the selection and the build, which make no request, either the
    attempt ends without a request, or it makes one request, in the wire
    format and in the mode selected, and then ends or handles the
    response. *)
Lemma sendContent_attempt_wire hdrs uuid ts content rc tr o :
  rc <= 3 ->
  runs (sendContent hdrs uuid ts content rc) tr o ->
  exists pk e1 ak e2 l1 l2 tr_build rest,
    tr = (obs (ProfileKeyForSignalID uuid) (pk, e1) :: l1
          ++ obs (DeriveAccessKey pk) (ak, e2) :: l2) ++ tr_build ++ rest
    /\ Forall is_log l1 /\ Forall is_log l2
    /\ Forall is_plain tr_build
    /\ (Forall is_plain rest
        \/ exists r x rest',
             rest = obs (SendRequest r.1 r.2) x :: rest'
             /\ wire_follows hdrs uuid ts ((pk, e1), (ak, e2)) r
             /\ (rest' = []
                 \/ exists ch response rest'',
                      rest' = obs (Receive ch) response :: rest''
                      /\ runs (sendContent_response
                                 (sendContent hdrs uuid ts content (rc + 1))
                                 uuid (selection_sealed ((pk, e1), (ak, e2)))
                                 response) rest'' o)).
Proof.
  intros Hrc Hrun.
  rewrite sendContent_unfold in Hrun. unfold sendContent_body in Hrun.
  destruct (Z.ltb_spec 3 rc); [lia|].
  apply runs_bind in Hrun as [(tr1 & [sealed ak'] & tr2 & H1 & H2 & ->)|(m & H1 & ->)];
    apply sealedSenderSelector_runs in H1
      as (pk & e1 & ak & e2 & l1 & l2 & sealed' & -> & Hl1 & Hl2 & Ho & Hs); [|done].
  injection Ho as -> ->.
  assert (sealed' = selection_sealed ((pk, e1), (ak, e2))) as Hsealed.
  { destruct sealed'.
    - symmetry. apply selection_sealed_spec. by apply Hs.
    - destruct (selection_sealed _) eqn:Hx; [|done].
      apply selection_sealed_spec in Hx. by apply Hs in Hx. }
  clear Hs. unfold sendContent_dispatch in H2.
  apply runs_bind in H2 as [(t1 & [messages err] & t2 & Hb & H2 & ->)|(m & Hb & ->)].
  2:{ exists pk, e1, ak, e2, l1, l2, tr2, []. rewrite app_nil_r.
      split; [done|]. split; [done|]. split; [done|].
      split; [exact (buildMessagesToSend_plain _ _ _ _ _ Hb) | by left]. }
  exists pk, e1, ak, e2, l1, l2, t1, t2.
  split; [done|]. split; [done|]. split; [done|].
  split; [exact (buildMessagesToSend_plain _ _ _ _ _ Hb)|].
  destruct err as [e|].
  { unfold log_err in H2. destruct H2 as ([] & t & -> & -> & ->).
    left. by repeat constructor. }
  destruct (buildMessagesToSend_contents _ _ _ _ _ Hb) as (l & -> & Hl).
  simpl in H2.
  apply runs_bind in H2 as [(t3 & [ch err] & t4 & Hs' & H2 & ->)|(m & Hs' & ->)].
  - right.
    assert (Ht3 : exists r, t3 = [obs (SendRequest r.1 r.2) (ch, err)]
                  /\ wire_follows hdrs uuid ts ((pk, e1), (ak, e2)) r).
    { unfold wire_follows. rewrite <- Hsealed.
      destruct sealed'; [destruct ak as [key|]|]; simpl in Hs'.
      - destruct Hs' as (x & t & -> & -> & [= ->]).
        eexists (UnauthedWS, _). split; [reflexivity|]. simpl.
        split; [done|]. split; [done|]. split; [by exists l|].
        split; [done|]. by exists key.
      - by destruct Hs'.
      - destruct Hs' as (x & t & -> & -> & [= ->]).
        eexists (AuthedWS, _). split; [reflexivity|]. simpl.
        split; [done|]. split; [done|]. split; [by exists l | done]. }
    destruct Ht3 as (r & -> & Hr).
    exists r, (ch, err), t4. split; [done|]. split; [done|].
    destruct err as [e|].
    + destruct H2 as [-> _]. by left.
    + simpl in H2. destruct H2 as (resp & t & -> & H2). right.
      rewrite <- Hsealed. by exists ch, resp, t.
  - left. destruct sealed'; [destruct ak|]; simpl in Hs'.
    + by destruct Hs' as (x & t & -> & ? & ?).
    + destruct Hs' as [-> _]. constructor.
    + by destruct Hs' as (x & t & -> & ? & ?).
Qed.

Lemma wire_follows_ok hdrs uuid ts s r :
  wire_follows hdrs uuid ts s r -> wire_ok hdrs uuid ts r.
Proof.
  intros (Hv & Hp & Hb & Hh). split; [done|]. split; [done|]. split; [done|].
  destruct (selection_sealed s).
  - destruct Hh as (-> & key & _ & Hk). by exists key.
  - by destruct Hh as (-> & Hk).
Qed.

Lemma sendContent_wire hdrs uuid ts content :
  forall n rc tr o,
    Z.to_nat (4 - rc) = n ->
    runs (sendContent hdrs uuid ts content rc) tr o ->
    exists made unmade,
      selections tr = made ++ unmade
      /\ (length unmade <= 1)%nat
      /\ Forall2 (wire_follows hdrs uuid ts) made (requests tr).
Proof.
  induction n as [|n IH]; intros rc tr o Hn Hrun.
  - rewrite sendContent_exhausted in Hrun by lia.
    unfold retryExhausted, log_err in Hrun. simpl in Hrun.
    destruct Hrun as ([] & t & -> & -> & ->).
    exists [], []. simpl. repeat split; [lia | constructor].
  - assert (Hrc : rc <= 3) by lia.
    destruct (sendContent_attempt_wire _ _ _ _ _ _ _ Hrc Hrun)
      as (pk & e1 & ak & e2 & l1 & l2 & tb & rest & -> & Hl1 & Hl2 & Hplain & H).
    rewrite selections_selector, requests_selector, selections_plain, requests_plain
      by done.
    destruct H as [Hrest|(r & x & rest' & -> & Hr & H)].
    { rewrite selections_none, requests_none by done.
      exists [], [(pk, e1, (ak, e2))]. simpl. repeat split; [lia | constructor]. }
    change (selections (obs (SendRequest r.1 r.2) x :: rest')) with (selections rest').
    change (requests (obs (SendRequest r.1 r.2) x :: rest'))
      with ((r.1, r.2) :: requests rest').
    replace (r.1, r.2) with r by (by destruct r).
    destruct H as [->|(ch & response & rest'' & -> & H)].
    { exists [(pk, e1, (ak, e2))], []. simpl.
      repeat split; [lia | constructor; [done | constructor]]. }
    change (selections (obs (Receive ch) response :: rest'')) with (selections rest'').
    change (requests (obs (Receive ch) response :: rest'')) with (requests rest'').
    apply sendContent_response_plain in H
      as [[Hp _]|(t1 & t2 & t3 & -> & Hp1 & Hp3 & Hretry)].
    + rewrite selections_none, requests_none by done.
      exists [(pk, e1, (ak, e2))], []. simpl.
      repeat split; [lia | constructor; [done | constructor]].
    + rewrite selections_plain, requests_plain, selections_plain_r, requests_plain_r
        by done.
      destruct (IH (rc + 1) _ _ ltac:(lia) Hretry) as (made & unmade & -> & Hlen & Hall).
      exists ((pk, e1, (ak, e2)) :: made), unmade. repeat split; [done | by constructor].
Qed.

(** C9: every request a send hands to a websocket has the wire format:
    a [PUT] to [/v1/messages/] followed by the recipient's account id,
    whose body is the JSON of the batch with its timestamp, [online]
    false, [urgent] true and, for each envelope, the type, the
    destination device id, the destination registration id and the
    base64 content; the request of a sealed attempt, and no other, goes
    over the unauthenticated connection and carries, after the default
    headers, the [unidentified-access-key] header with the base64 of the
    access key derived in that attempt. *)
Theorem sendContent_wire_format hdrs uuid ts content retryCount tr o :
  runs (sendContent hdrs uuid ts content retryCount) tr o ->
  wire_format hdrs uuid ts tr.
Proof.
  intros Hrun.
  destruct (sendContent_wire hdrs uuid ts content _ _ _ _ eq_refl Hrun)
    as (made & unmade & Hsel & Hlen & Hall).
  split; [by exists made, unmade|].
  clear Hsel. induction Hall as [|s r made reqs Hr _ IH]; constructor.
  - by eapply wire_follows_ok.
  - exact IH.
Qed.

Lemma sendContent_wire_format_witness :
  runs (sendContent jsonHeaders "bob" 1700000000000 hi_content 0)
    run_flaky.1.1 run_flaky.1.2
  /\ (requests run_flaky.1.1).*1 = [AuthedWS; UnauthedWS]
  /\ (Path <$> (requests run_flaky.1.1).*2) = ["/v1/messages/bob"; "/v1/messages/bob"]
  /\ wire_format jsonHeaders "bob" 1700000000000 run_flaky.1.1.
Proof.
  assert (Hreqs : (requests run_flaky.1.1).*1 = [AuthedWS; UnauthedWS])
    by (vm_compute; reflexivity).
  assert (Hpaths : (Path <$> (requests run_flaky.1.1).*2)
                   = ["/v1/messages/bob"; "/v1/messages/bob"])
    by (vm_compute; reflexivity).
  pose proof (run_runs (flaky happy)
                (sendContent jsonHeaders "bob" 1700000000000 hi_content 0)
                [response_of 500 []; response_of 200 []]) as Hrun.
  split; [exact Hrun|]. split; [exact Hreqs|]. split; [exact Hpaths|].
  exact (sendContent_wire_format jsonHeaders "bob" 1700000000000 hi_content 0 _ _ Hrun).
Defined.
